(** * Parameter transfer between Houdini nodes: a shallow embedding of
    [PYTHON/ParmTransfer/parm_transfer.py]

    The tool snapshots the parameters of a source node ([ParameterItem]) and
    copies selected ones onto target nodes ([_transfer_parameter], driven by
    [_do_transfer]).  Both talk to the scene through the [hou] module, which
    is not part of the repository: the scene is modelled below as a store of
    parameter records indexed by (node path, parameter name), every [hou]
    call as a step of a state-and-exception monad over that store.

    Around them the file has the panel: the table of snapshots with its
    filter and its checked rows ([ParameterTableModel]), the pickers of the
    source node and of the target nodes, and the handlers of
    [ParameterTransferPanel].  They are modelled as records of the state each
    class keeps, with one function per method. *)

From stdpp Require Import gmap strings list.
From Stdlib Require Import QArith Ascii DecimalString DecimalZ Sorted.
Local Close Scope Q_scope.
Local Open Scope string_scope.

(** ** Python values and exceptions *)

(** The exceptions the modelled calls can raise.  All of them derive from
    Python's [Exception] ([hou.Error] does), so [except Exception] and a bare
    [except:] catch every one of them; [except hou.OperationFailed] catches
    the first only. *)
Inductive exn : Type :=
  | OperationFailed      (* hou.OperationFailed *)
  | PermissionError      (* hou.PermissionError *)
  | ObjectWasDeleted     (* hou.ObjectWasDeleted *)
  | HouTypeError         (* hou.TypeError *)
  | PyTypeError          (* builtin TypeError *)
  | PyValueError.        (* builtin ValueError *)

Definition is_OperationFailed (e : exn) : bool :=
  match e with OperationFailed => true | _ => false end.

(** What [hou.Parm.eval()] can return, and [None]. A ramp is kept as its list
    of (position, value) control points; the tool never looks inside one. *)
Inductive pyvalue : Type :=
  | VNone
  | VInt (z : Z)
  | VFloat (q : Q)
  | VStr (s : string)
  | VRamp (points : list (Q * Q)).

(** Python truthiness, as [if self.parm.eval()] uses it. *)
Definition py_truthy (v : pyvalue) : bool :=
  match v with
  | VNone => false
  | VInt z => negb (z =? 0)%Z
  | VFloat q => negb (Qeq_bool q (0 # 1))
  | VStr s => negb (String.eqb s "")
  | VRamp _ => true
  end.

(** A Python string is kept as its UTF-8 bytes, while [len] and slices count
    characters.  In UTF-8 a character starts at every byte that is not a
    continuation byte (a byte [10xxxxxx]). *)
Definition is_continuation (c : ascii) : bool :=
  match c with
  | Ascii _ _ _ _ _ _ b6 b7 => (b7 && negb b6)%bool
  end.

(** [len(s)] of a string: its number of characters. *)
Fixpoint py_str_len (s : string) : nat :=
  match s with
  | EmptyString => 0
  | String.String c rest =>
      if is_continuation c then py_str_len rest else S (py_str_len rest)
  end.

(** [s[:n]] of a string: its first [n] characters, all of it when it has
    fewer. *)
Fixpoint py_str_take (n : nat) (s : string) : string :=
  match s with
  | EmptyString => EmptyString
  | String.String c rest =>
      if is_continuation c then String.String c (py_str_take n rest)
      else
        match n with
        | 0 => EmptyString
        | S n' => String.String c (py_str_take n' rest)
        end
  end.

(** [len(val)]: defined on strings only among the values above. *)
Definition py_len (v : pyvalue) : exn + nat :=
  match v with
  | VStr s => inr (py_str_len s)
  | _ => inl PyTypeError
  end.

(** ** The scene API ([hou]) *)

(** [hou.parmTemplateType]. *)
Module parmTemplateType.
Inductive t : Type :=
  | Int | Float | String | Toggle | Menu | Button
  | FolderSet | Folder | Separator | Label | Ramp | Data.
End parmTemplateType.

(** [hou.exprLanguage]. *)
Module exprLanguage.
Inductive t : Type := Hscript | Python.
End exprLanguage.

(** How a keyframe leaves its value towards the next one. *)
Inductive interpolation : Type := Constant | Linear | Bezier | Cubic.

(** A keyframe: (time, value, interpolation).  Time is counted in frames. *)
Record Keyframe : Type := mkKeyframe {
  frame : Z;
  kf_value : Q;
  kf_interp : interpolation;
}.

(** [hou.ParmTemplate]: the static description of a parameter. *)
Record ParmTemplate : Type := mkTemplate {
  type : parmTemplateType.t;
  menuLabels : list string;
}.

(** Modelled from the spec: the state the host keeps for one parameter (section
    6, Scene API: description, type, lock, raw value, attached expression,
    ordered keyframes).  The parameter's name is its key in the scene. *)
Record Parm : Type := mkParm {
  description : string;
  parmTemplate_of : ParmTemplate;
  locked : bool;
  raw : pyvalue;
  expr : option (string * exprLanguage.t);
  keys : list Keyframe;
}.

(** A [hou.Parm] object is a reference into the scene: node path and
    parameter name.  Two handles with the same components are the same
    parameter. *)
Abbreviation handle := (string * string)%type.

Abbreviation scene := (gmap handle Parm).

(** Modelled from the spec: what the host computes from a parameter and what
    it accepts, left open (section 6: [evaluate], [isTimeDependent],
    [isAtDefault]), together with the Python formatting built-ins used for
    display strings.  Evaluation reads the whole scene: the expression of a
    parameter can refer to other parameters.  Every theorem below holds for
    any such host. *)
Record Host : Type := mkHost {
  eval_of : scene -> Parm -> exn + pyvalue;                (* hou.Parm.eval() *)
  time_dependent_of : Parm -> bool;                        (* hou.Parm.isTimeDependent() *)
  at_default_of : Parm -> bool;                            (* hou.Parm.isAtDefault() *)
  accepts_value : ParmTemplate -> pyvalue -> bool;         (* set: else hou.TypeError *)
  accepts_language : ParmTemplate -> exprLanguage.t -> bool;
                                          (* setExpression: else hou.OperationFailed *)
  py_str : pyvalue -> string;                              (* str(v) *)
  py_format_6g : Q -> string;                              (* format(v, ".6g") *)
  py_int_of_str : string -> exn + Z;                       (* int(s) *)
}.

(** *** Reads of one parameter *)

(** Modelled from the spec: [rawString(handle)], the unevaluated string of a
    parameter that holds one ([hou.Parm.unexpandedString()] raises
    [hou.OperationFailed] on any other). *)
Definition unexpandedString_of (p : Parm) : exn + string :=
  match raw p with
  | VStr s => inr s
  | _ => inl OperationFailed
  end.

(** Modelled from the spec: [expression(handle)], which fails if none is
    attached. *)
Definition expression_of (p : Parm) : exn + string :=
  match expr p with
  | Some (e, _) => inr e
  | None => inl OperationFailed
  end.

(** Modelled from the spec: the dialect of the attached expression
    ([hou.Parm.expressionLanguage()]). *)
Definition expressionLanguage_of (p : Parm) : exn + exprLanguage.t :=
  match expr p with
  | Some (_, l) => inr l
  | None => inl OperationFailed
  end.

(** *** Writes of one parameter

    A locked parameter refuses every write with [hou.PermissionError]; a
    refused write leaves the parameter as it was.  Each write changes the one
    field it is about. *)

Definition with_keys (ks : list Keyframe) (p : Parm) : Parm :=
  mkParm (description p) (parmTemplate_of p) (locked p) (raw p) (expr p) ks.

Definition with_raw (v : pyvalue) (p : Parm) : Parm :=
  mkParm (description p) (parmTemplate_of p) (locked p) v (expr p) (keys p).

Definition with_expr (e : string) (l : exprLanguage.t) (p : Parm) : Parm :=
  mkParm (description p) (parmTemplate_of p) (locked p) (raw p) (Some (e, l)) (keys p).

(** Modelled from the spec: where [setKeyframe] puts a keyframe in the
    ordered sequence: at its place in time order, replacing one already
    standing at the same frame. *)
Fixpoint insert_keyframe (k : Keyframe) (ks : list Keyframe) : list Keyframe :=
  match ks with
  | [] => [k]
  | k' :: rest =>
      if (frame k <? frame k')%Z then k :: ks
      else if (frame k =? frame k')%Z then k :: rest
      else k' :: insert_keyframe k rest
  end.

(** Modelled from the spec: [deleteAllKeyframes]. *)
Definition deleteAllKeyframes_of (p : Parm) : exn + Parm :=
  if locked p then inl PermissionError else inr (with_keys [] p).

(** Modelled from the spec: [setKeyframe]. *)
Definition setKeyframe_of (k : Keyframe) (p : Parm) : exn + Parm :=
  if locked p then inl PermissionError
  else inr (with_keys (insert_keyframe k (keys p)) p).

(** Modelled from the spec: [set(handle, value)]; a value the parameter's
    type does not take is refused with [hou.TypeError]. *)
Definition set_of (host : Host) (v : pyvalue) (p : Parm) : exn + Parm :=
  if locked p then inl PermissionError
  else if accepts_value host (parmTemplate_of p) v then inr (with_raw v p)
  else inl HouTypeError.

(** Modelled from the spec: [setExpression(handle, text, dialect)], text and
    dialect set together; a dialect the parameter does not take is
    refused. *)
Definition setExpression_of (host : Host) (e : string) (l : exprLanguage.t)
    (p : Parm) : exn + Parm :=
  if locked p then inl PermissionError
  else if accepts_language host (parmTemplate_of p) l then inr (with_expr e l p)
  else inl OperationFailed.

(** ** The monad of scene calls: state, and exceptions that keep the state *)

Definition M (A : Type) : Type := scene -> (exn + A) * scene.

Definition ret {A} (a : A) : M A := fun s => (inr a, s).

Definition raise {A} (e : exn) : M A := fun s => (inl e, s).

Definition bind {A B} (m : M A) (k : A -> M B) : M B :=
  fun s =>
    match m s with
    | (inr a, s') => k a s'
    | (inl e, s') => (inl e, s')
    end.

(** [try: body / except: handler] and [except Exception as e]. *)
Definition try_except {A} (body : M A) (handler : exn -> M A) : M A :=
  fun s =>
    match body s with
    | (inl e, s') => handler e s'
    | r => r
    end.

(** [try: body / except hou.OperationFailed: handler]: any other exception
    goes on to the caller. *)
Definition try_except_OperationFailed {A} (body : M A) (handler : M A) : M A :=
  fun s =>
    match body s with
    | (inl e, s') => if is_OperationFailed e then handler s' else (inl e, s')
    | r => r
    end.

Declare Scope hou_scope.
Delimit Scope hou_scope with hou.
Notation "x <- m ;; k" := (bind m (fun x => k))
  (at level 100, m at next level, right associativity) : hou_scope.
Notation "m ;; k" := (bind m (fun _ => k))
  (at level 100, right associativity) : hou_scope.
Local Open Scope hou_scope.

(** A value computed without the scene, which may raise. *)
Definition lift {A} (r : exn + A) : M A :=
  match r with inr a => ret a | inl e => raise e end.

(** A method of a [hou.Parm] that only reads: a handle whose parameter is gone
    raises [hou.ObjectWasDeleted]. *)
Definition read {A} (f : Parm -> exn + A) (h : handle) : M A :=
  fun s =>
    match s !! h with
    | Some p => (f p, s)
    | None => (inl ObjectWasDeleted, s)
    end.

(** A method that writes: the stored parameter is replaced when the host
    accepts the write. *)
Definition write (f : Parm -> exn + Parm) (h : handle) : M unit :=
  fun s =>
    match s !! h with
    | Some p =>
        match f p with
        | inr p' => (inr tt, <[h := p']> s)
        | inl e => (inl e, s)
        end
    | None => (inl ObjectWasDeleted, s)
    end.

(** [for x in xs: body x]. *)
Fixpoint for_each {A} (xs : list A) (body : A -> M unit) : M unit :=
  match xs with
  | [] => ret tt
  | x :: rest => body x ;; for_each rest body
  end.

(** [for x in xs: acc = body x acc], for loops that keep counters. *)
Fixpoint for_fold {A S} (xs : list A) (body : A -> S -> M S) (acc : S) : M S :=
  match xs with
  | [] => ret acc
  | x :: rest => acc' <- body x acc ;; for_fold rest body acc'
  end.

Section SceneAPI.

Variable host : Host.

Definition parm_name (h : handle) : M string := read (fun _ => inr (snd h)) h.
Definition parm_description (h : handle) : M string := read (fun p => inr (description p)) h.
Definition parm_parmTemplate (h : handle) : M ParmTemplate := read (fun p => inr (parmTemplate_of p)) h.
Definition parm_isAtDefault (h : handle) : M bool := read (fun p => inr (at_default_of host p)) h.
Definition parm_isTimeDependent (h : handle) : M bool := read (fun p => inr (time_dependent_of host p)) h.
Definition parm_isLocked (h : handle) : M bool := read (fun p => inr (locked p)) h.
Definition parm_eval (h : handle) : M pyvalue := fun s => read (eval_of host s) h s.
Definition parm_unexpandedString (h : handle) : M string := read unexpandedString_of h.
Definition parm_expression (h : handle) : M string := read expression_of h.
Definition parm_expressionLanguage (h : handle) : M exprLanguage.t := read expressionLanguage_of h.
Definition parm_keyframes (h : handle) : M (list Keyframe) := read (fun p => inr (keys p)) h.

Definition parm_deleteAllKeyframes (h : handle) : M unit := write deleteAllKeyframes_of h.
Definition parm_setKeyframe (h : handle) (k : Keyframe) : M unit := write (setKeyframe_of k) h.
Definition parm_set (h : handle) (v : pyvalue) : M unit := write (set_of host v) h.
Definition parm_setExpression (h : handle) (e : string) (l : exprLanguage.t) : M unit :=
  write (setExpression_of host e l) h.

(** [node.parm(name)]: the handle, or [None] when the node has no such
    parameter. *)
Definition node_parm (node : string) (nm : string) : M (option handle) :=
  fun s =>
    match s !! (node, nm) with
    | Some _ => (inr (Some (node, nm)), s)
    | None => (inr None, s)
    end.

(** [int(v)]. *)
Definition py_int (v : pyvalue) : exn + Z :=
  match v with
  | VInt z => inr z
  | VFloat q => inr (Z.quot (Qnum q) (Zpos (Qden q)))
  | VStr s => py_int_of_str host s
  | VNone | VRamp _ => inl PyTypeError
  end.

End SceneAPI.

(** ** The tool *)

(** What [_transfer_parameter] returns: the strings ["success"], ["skipped"]
    and ["failed"]. *)
Inductive outcome : Type := success | skipped | failed.

(** [class ParameterItem]: the snapshot of one source parameter. *)
Module ParameterItem.

Record t : Type := mk {
  parm : handle;
  name : string;
  label : string;
  parm_template : ParmTemplate;
  is_at_default : bool;
  value : pyvalue;
  value_display : string;
  has_keyframes : bool;
  has_expression : bool;
}.

Section Methods.

Variable host : Host.

(** [_get_value]: [eval()], else [unexpandedString()], else [None]. *)
Definition _get_value (parm : handle) : M pyvalue :=
  try_except (parm_eval host parm)
    (fun _ =>
       try_except (s <- parm_unexpandedString parm ;; ret (VStr s))
         (fun _ => ret VNone)).

(** The statements of [_get_display_value] after the [if]/[elif] chain. *)
Definition display_plain (parm : handle) : M string :=
  val <- parm_eval host parm ;;
  match val with
  | VFloat q => ret (py_format_6g host q)
  | _ => ret (py_str host val)
  end.

(** The [Menu] branch: [Some text] when it returns, [None] when it falls out
    of its own [try] (index out of range, or an exception swallowed). *)
Definition display_menu (parm : handle) (tmpl : ParmTemplate) : M (option string) :=
  try_except
    (let menu_items := menuLabels tmpl in
     v <- parm_eval host parm ;;
     idx <- lift (py_int host v) ;;
     if ((0 <=? idx)%Z && (idx <? Z.of_nat (length menu_items))%Z)%bool
     then
       match menu_items !! Z.to_nat idx with
       | Some item => ret (Some (item ++ " (" ++ py_str host (VInt idx) ++ ")"))
       | None => raise PyTypeError
       end
     else ret None)
    (fun _ => ret None).

(** [_get_display_value]. *)
Definition _get_display_value (parm : handle) (tmpl : ParmTemplate)
    (value : pyvalue) : M string :=
  try_except
    (match type tmpl with
     | parmTemplateType.Menu =>
         r <- display_menu parm tmpl ;;
         match r with
         | Some text => ret text
         | None => display_plain parm
         end
     | parmTemplateType.Toggle =>
         v <- parm_eval host parm ;;
         ret (if py_truthy v then "On" else "Off")
     | parmTemplateType.String =>
         val <- parm_eval host parm ;;
         n <- lift (py_len val) ;;
         match val with
         | VStr text =>
             if (50 <? n)%nat then ret (py_str_take 47 text ++ "...")
             else ret text
         | _ => raise PyTypeError
         end
     | parmTemplateType.Ramp => ret "[Ramp Data]"
     | _ => display_plain parm
     end)
    (fun _ => ret (py_str host value)).

(** [__init__]. *)
Definition __init__ (parm : handle) : M t :=
  name <- parm_name parm ;;
  label <- parm_description parm ;;
  parm_template <- parm_parmTemplate parm ;;
  is_at_default <- parm_isAtDefault host parm ;;
  value <- _get_value parm ;;
  value_display <- _get_display_value parm parm_template value ;;
  has_keyframes <- parm_isTimeDependent host parm ;;
  has_expression <-
    (if negb has_keyframes
     then try_except_OperationFailed (parm_expression parm ;; ret true) (ret false)
     else ret false) ;;
  ret (mk parm name label parm_template is_at_default value value_display
         has_keyframes has_expression).

End Methods.

End ParameterItem.

Section Panel.

Variable host : Host.

(** The value-copy statements of [_transfer_parameter] (after the two
    [if] blocks, before [return "success"]). *)
Definition copy_value (parm_item : ParameterItem.t) (source_parm target_parm : handle)
    : M unit :=
  let parm_type := type (ParameterItem.parm_template parm_item) in
  match parm_type with
  | parmTemplateType.String =>
      v <- parm_unexpandedString source_parm ;; parm_set host target_parm (VStr v)
  | parmTemplateType.Ramp =>
      v <- parm_eval host source_parm ;; parm_set host target_parm v
  | _ =>
      v <- parm_eval host source_parm ;; parm_set host target_parm v
  end.

(** The inner [try] of the expression branch: [Some success] when it
    returns, [None] when its bare [except: pass] swallowed an exception. *)
Definition copy_expression (source_parm target_parm : handle) : M (option outcome) :=
  try_except
    (expr <- parm_expression source_parm ;;
     lang <- parm_expressionLanguage source_parm ;;
     parm_setExpression host target_parm expr lang ;;
     ret (Some success))
    (fun _ => ret None).

(** The body of the outer [try] of [_transfer_parameter]. *)
Definition transfer_body (parm_item : ParameterItem.t) (source_parm target_parm : handle)
    (copy_expressions copy_keyframes : bool) : M outcome :=
  if (copy_keyframes && ParameterItem.has_keyframes parm_item)%bool then
    parm_deleteAllKeyframes target_parm ;;
    ks <- parm_keyframes source_parm ;;
    for_each ks (fun keyframe => parm_setKeyframe target_parm keyframe) ;;
    ret success
  else
    r <- (if (copy_expressions && ParameterItem.has_expression parm_item)%bool
          then copy_expression source_parm target_parm
          else ret None) ;;
    match r with
    | Some o => ret o
    | None => copy_value parm_item source_parm target_parm ;; ret success
    end.

(** The condition [skip_locked and (target_parm.isLocked() or
    source_parm.isLocked())], evaluated left to right with Python's short
    circuits. *)
Definition lock_test (skip_locked : bool) (source_parm target_parm : handle) : M bool :=
  if skip_locked then
    target_locked <- parm_isLocked target_parm ;;
    if target_locked then ret true else parm_isLocked source_parm
  else ret false.

(** [_transfer_parameter].  A result [inl e] is an exception that leaves the
    function; the [print] of the handler is not modelled. *)
Definition _transfer_parameter (parm_item : ParameterItem.t) (target_node : string)
    (copy_expressions copy_keyframes skip_locked : bool) : M outcome :=
  let source_parm := ParameterItem.parm parm_item in
  target_parm <- node_parm target_node (ParameterItem.name parm_item) ;;
  match target_parm with
  | None => ret failed
  | Some target_parm =>
      skip <- lock_test skip_locked source_parm target_parm ;;
      if skip then ret skipped
      else
        try_except
          (transfer_body parm_item source_parm target_parm
             copy_expressions copy_keyframes)
          (fun e => ret failed)
  end.

(** The three counters of [_do_transfer]. *)
Record counts : Type := mkCounts {
  success_count : nat;
  skip_count : nat;
  fail_count : nat;
}.

Definition count (result : outcome) (c : counts) : counts :=
  match result with
  | success => mkCounts (success_count c + 1) (skip_count c) (fail_count c)
  | skipped => mkCounts (success_count c) (skip_count c + 1) (fail_count c)
  | failed => mkCounts (success_count c) (skip_count c) (fail_count c + 1)
  end.

(** The batch of [_do_transfer]: the two nested loops inside the undo group,
    for a non-empty selection the user has confirmed. *)
Definition _do_transfer (target_nodes : list string)
    (checked_parms : list ParameterItem.t)
    (copy_expressions copy_keyframes skip_locked : bool) : M counts :=
  for_fold target_nodes
    (fun target_node c =>
       for_fold checked_parms
         (fun parm_item c =>
            result <- _transfer_parameter parm_item target_node
                        copy_expressions copy_keyframes skip_locked ;;
            ret (count result c))
         c)
    (mkCounts 0 0 0).

End Panel.

(** ** The panel around the transfer

    The classes that keep the list of snapshots, the checked rows and the
    target nodes, and the methods of the panel that drive them.  Layout and
    painting are Qt's and are not modelled, nor are the notifications a model
    sends to its view ([beginResetModel], [endResetModel]); what a method shows
    to the user or signals to a slot that [parm_transfer.py] connects is part
    of its result.  The slot runs apart from the method that emits: what a
    slot raises is reported by the binding and does not come back into the
    emitting method. *)

(** Exceptions that can leave a method of the panel: those of the scene calls
    and two of Python's own. *)
Inductive exception : Type :=
  | SceneError (e : exn)
  | IndexError
  | AttributeError.

(** The index Python reads for [xs[i]]: a negative [i] counts from the end;
    [None] when it falls outside the list ([IndexError]). *)
Definition py_index {A} (xs : list A) (i : Z) : option nat :=
  let n := Z.of_nat (length xs) in
  let j := if (i <? 0)%Z then (i + n)%Z else i in
  if ((0 <=? j)%Z && (j <? n)%Z)%bool then Some (Z.to_nat j) else None.

(** [xs[i]]. *)
Definition py_getitem {A} (xs : list A) (i : Z) : exception + A :=
  match py_index xs i with
  | Some j =>
      match xs !! j with
      | Some x => inr x
      | None => inl IndexError
      end
  | None => inl IndexError
  end.

(** [del xs[i]]. *)
Definition py_delitem {A} (xs : list A) (i : Z) : exception + list A :=
  match py_index xs i with
  | Some j => inr (delete j xs)
  | None => inl IndexError
  end.

(** [pat in s] on strings.  A string is its UTF-8 bytes; a valid encoding
    occurs in another as bytes exactly where it occurs as characters. *)
Fixpoint py_in (pat s : string) : bool :=
  match s with
  | EmptyString => String.eqb pat ""
  | String.String _ rest => (String.prefix pat s || py_in pat rest)%bool
  end.

(** [str(n)] of an integer. *)
Definition str_of_int (z : Z) : string := NilZero.string_of_int (Z.to_int z).

(** The line feed of ["\n"]. *)
Definition nl : string := String.String "010"%char EmptyString.

(** [enumerate(xs)]. *)
Fixpoint enumerate_from {A} (i : nat) (xs : list A) : list (nat * A) :=
  match xs with
  | [] => []
  | x :: rest => (i, x) :: enumerate_from (S i) rest
  end.

Definition enumerate {A} (xs : list A) : list (nat * A) := enumerate_from 0 xs.

(** [[f(x) for x in xs]] where [f] can raise: the first exception leaves the
    comprehension. *)
Fixpoint comprehension {A B} (f : A -> exception + B) (xs : list A) : exception + list B :=
  match xs with
  | [] => inr []
  | x :: rest =>
      match f x with
      | inl e => inl e
      | inr y =>
          match comprehension f rest with
          | inl e => inl e
          | inr ys => inr (y :: ys)
          end
      end
  end.

(** *** What the panel uses of Qt *)

Module Qt.

Inductive ItemDataRole : Type :=
  | DisplayRole | EditRole | ToolTipRole | ForegroundRole | CheckStateRole | OtherRole.

Inductive CheckState : Type := Unchecked | PartiallyChecked | Checked.

Inductive Orientation : Type := Horizontal | Vertical.

Inductive ItemFlag : Type := ItemIsSelectable | ItemIsEnabled | ItemIsUserCheckable.

End Qt.

(** A [QModelIndex]: whether it is valid, its row and its column. *)
Record QModelIndex : Type := mkIndex {
  isValid : bool;
  row : Z;
  column : Z;
}.

(** What [data] and [headerData] return: [None], a string, a check state or
    a [QColor]. *)
Inductive cell : Type :=
  | CNone
  | CText (text : string)
  | CCheck (c : Qt.CheckState)
  | CColor (r g b : Z).

(** What a method shows or signals: a [hou.ui.displayMessage] with its title,
    or the signal [node_changed] of the source picker. *)
Inductive event : Type :=
  | displayMessage (text title : string)
  | node_changed (node : option string).

(** A [QLineEdit]: its text and its style sheet. *)
Record QLineEdit : Type := mkLineEdit {
  text : string;
  styleSheet : string;
}.

(** A [QListWidgetItem], told from the other items by [item_id], and a
    [QListWidget]: its rows from the top, and the identity the next item
    gets. *)
Record QListWidgetItem : Type := mkItem {
  item_id : nat;
  item_text : string;
}.

Record QListWidget : Type := mkList {
  items : list QListWidgetItem;
  next_id : nat;
}.

(** The methods of [QListWidget] the target picker calls. *)
Module QListWidget_.

Definition addItem (label : string) (w : QListWidget) : QListWidget :=
  mkList (items w ++ [mkItem (next_id w) label])%list (S (next_id w)).

(** [row(item)]: the row of the item, -1 when the widget does not hold
    it. *)
Fixpoint row_from (i : Z) (item : QListWidgetItem) (rows : list QListWidgetItem) : Z :=
  match rows with
  | [] => (-1)%Z
  | r :: rest =>
      if (item_id r =? item_id item)%nat then i else row_from (i + 1)%Z item rest
  end.

Definition row (item : QListWidgetItem) (w : QListWidget) : Z :=
  row_from 0%Z item (items w).

(** [takeItem(row)]: the row is removed; nothing happens for a row the
    widget does not have. *)
Definition takeItem (r : Z) (w : QListWidget) : QListWidget :=
  if ((0 <=? r)%Z && (r <? Z.of_nat (length (items w)))%Z)%bool
  then mkList (delete (Z.to_nat r) (items w)) (next_id w)
  else w.

Definition clear (w : QListWidget) : QListWidget := mkList [] (next_id w).

End QListWidget_.

(** *** The nodes of the scene *)

(** Modelled from the spec: what the host keeps for a node besides its
    parameters' states: its name, and the names of its parameters in the
    order [listParameters(node)] gives them (section 6). *)
Record Node : Type := mkNode {
  node_name : string;
  parm_names : list string;
}.

(** The nodes of the scene by path.  A [hou.Node] object is a reference by
    path, as [target_node] is above; a node that was deleted has no entry and
    every method of its handle raises [hou.ObjectWasDeleted]. *)
Abbreviation nodes := (gmap string Node).

Definition node_method {A} (f : string -> Node -> A) (ns : nodes) (node : string) : exn + A :=
  match ns !! node with
  | Some n => inr (f node n)
  | None => inl ObjectWasDeleted
  end.

(** [node.path()], [node.name()] and [node.parms()]. *)
Definition node_path : nodes -> string -> exn + string :=
  node_method (fun path _ => path).

Definition node_name_of : nodes -> string -> exn + string :=
  node_method (fun _ n => node_name n).

Definition node_parms : nodes -> string -> exn + list handle :=
  node_method (fun path n => map (pair path) (parm_names n)).

(** *** [class ParameterTableModel] *)

Module ParameterTableModel.

Definition COLUMNS : list string := [""; "Name"; "Label"; "Value"; "Status"].

Record t : Type := mk {
  parameters : list ParameterItem.t;
  checked_items : gset nat;
  show_only_non_default : bool;
  filter_text : string;
  _filtered_indices : list nat;
}.

Definition __init__ : t := mk [] ∅ false "" [].

Definition with_checked (checked : gset nat) (self : t) : t :=
  mk (parameters self) checked (show_only_non_default self) (filter_text self)
    (_filtered_indices self).

Section Methods.

(** [str.lower()]: Python lowers by the Unicode tables; the function is left
    open here. *)
Variable lower : string -> string.

(** [_matches_filter]. *)
Definition _matches_filter (self : t) (parm_item : ParameterItem.t) : bool :=
  if (show_only_non_default self && ParameterItem.is_at_default parm_item)%bool then false
  else if negb (String.eqb (filter_text self) "") then
    let search := lower (filter_text self) in
    if (negb (py_in search (lower (ParameterItem.name parm_item)))
        && negb (py_in search (lower (ParameterItem.label parm_item))))%bool
    then false
    else true
  else true.

(** [_update_filtered_indices]. *)
Definition _update_filtered_indices (self : t) : t :=
  mk (parameters self) (checked_items self) (show_only_non_default self) (filter_text self)
    (fold_left
       (fun filtered '(i, parm_item) =>
          if _matches_filter self parm_item then (filtered ++ [i])%list else filtered)
       (enumerate (parameters self)) []).

(** [set_parameters]. *)
Definition set_parameters (parm_items : list ParameterItem.t) (self : t) : t :=
  _update_filtered_indices
    (mk parm_items ∅ (show_only_non_default self) (filter_text self) (_filtered_indices self)).

(** [set_filter]. *)
Definition set_filter (text : string) (self : t) : t :=
  _update_filtered_indices
    (mk (parameters self) (checked_items self) (show_only_non_default self) text
       (_filtered_indices self)).

(** [set_show_only_non_default]. *)
Definition set_show_only_non_default (enabled : bool) (self : t) : t :=
  _update_filtered_indices
    (mk (parameters self) (checked_items self) enabled (filter_text self)
       (_filtered_indices self)).

(** [rowCount] and [columnCount]. *)
Definition rowCount (self : t) : nat := length (_filtered_indices self).

Definition columnCount (self : t) : nat := length COLUMNS.

(** [headerData]. *)
Definition headerData (section : Z) (orientation : Qt.Orientation) (role : Qt.ItemDataRole)
    : exception + cell :=
  match orientation, role with
  | Qt.Horizontal, Qt.DisplayRole =>
      match py_getitem COLUMNS section with
      | inr title => inr (CText title)
      | inl e => inl e
      end
  | _, _ => inr CNone
  end.

(** The text of the Status column. *)
Definition status_text (parm_item : ParameterItem.t) : string :=
  let status :=
    ((if ParameterItem.has_keyframes parm_item then ["🔑 Animated"] else [])
     ++ (if ParameterItem.has_expression parm_item then ["⚡ Expression"] else [])
     ++ (if negb (ParameterItem.is_at_default parm_item) then ["✏️ Modified"] else []))%list in
  match status with
  | [] => "Default"
  | _ => String.concat " | " status
  end.

(** The tool tip; [parm.expression()] is read from the scene, and an
    exception it raises leaves the line out. *)
Definition tooltip_text (s : scene) (parm_item : ParameterItem.t) : string :=
  let tooltip :=
    "Parameter: " ++ ParameterItem.name parm_item ++ nl
    ++ "Label: " ++ ParameterItem.label parm_item ++ nl
    ++ "Value: " ++ ParameterItem.value_display parm_item ++ nl in
  if ParameterItem.has_expression parm_item then
    match fst (parm_expression (ParameterItem.parm parm_item) s) with
    | inr e => tooltip ++ "Expression: " ++ e
    | inl _ => tooltip
    end
  else tooltip.

(** [data]. *)
Definition data (self : t) (s : scene) (index : QModelIndex) (role : Qt.ItemDataRole)
    : exception + cell :=
  if negb (isValid index) then inr CNone
  else
    match py_getitem (_filtered_indices self) (row index) with
    | inl e => inl e
    | inr real_idx =>
        match py_getitem (parameters self) (Z.of_nat real_idx) with
        | inl e => inl e
        | inr parm_item =>
            let col := column index in
            match role with
            | Qt.DisplayRole =>
                if (col =? 0)%Z then inr CNone
                else if (col =? 1)%Z then inr (CText (ParameterItem.name parm_item))
                else if (col =? 2)%Z then inr (CText (ParameterItem.label parm_item))
                else if (col =? 3)%Z then inr (CText (ParameterItem.value_display parm_item))
                else if (col =? 4)%Z then inr (CText (status_text parm_item))
                else inr CNone
            | Qt.CheckStateRole =>
                if (col =? 0)%Z then
                  inr (CCheck (if bool_decide (real_idx ∈ checked_items self)
                               then Qt.Checked else Qt.Unchecked))
                else inr CNone
            | Qt.ForegroundRole =>
                if negb (ParameterItem.is_at_default parm_item) then inr (CColor 255 200 100)
                else if (ParameterItem.has_keyframes parm_item
                         || ParameterItem.has_expression parm_item)%bool
                then inr (CColor 150 200 255)
                else inr CNone
            | Qt.ToolTipRole => inr (CText (tooltip_text s parm_item))
            | _ => inr CNone
            end
        end
    end.

(** [setData]: the value returned, and the model it leaves.  The view is
    told ([dataChanged]) exactly when [True] is returned. *)
Definition setData (self : t) (index : QModelIndex) (value : Qt.CheckState)
    (role : Qt.ItemDataRole) : exception + bool * t :=
  match role with
  | Qt.CheckStateRole =>
      if (column index =? 0)%Z then
        match py_getitem (_filtered_indices self) (row index) with
        | inl e => inl e
        | inr real_idx =>
            match value with
            | Qt.Checked => inr (true, with_checked ({[real_idx]} ∪ checked_items self) self)
            | _ => inr (true, with_checked (checked_items self ∖ {[real_idx]}) self)
            end
        end
      else inr (false, self)
  | _ => inr (false, self)
  end.

(** [flags]. *)
Definition flags (index : QModelIndex) : list Qt.ItemFlag :=
  ([Qt.ItemIsEnabled; Qt.ItemIsSelectable]
   ++ (if (column index =? 0)%Z then [Qt.ItemIsUserCheckable] else []))%list.

(** [get_checked_parameters].  Python walks a set in an order of its own:
    [order] is that order, a listing of [checked_items]. *)
Definition get_checked_parameters (self : t) (order : list nat)
    : exception + list ParameterItem.t :=
  comprehension (fun i => py_getitem (parameters self) (Z.of_nat i)) order.

(** [check_all_visible]. *)
Definition check_all_visible (self : t) : t :=
  with_checked
    (fold_left (fun checked idx => {[idx]} ∪ checked) (_filtered_indices self)
       (checked_items self))
    self.

(** [uncheck_all]. *)
Definition uncheck_all (self : t) : t := with_checked ∅ self.

(** [check_non_default]. *)
Definition check_non_default (self : t) : t :=
  with_checked
    (fold_left
       (fun checked '(i, parm_item) =>
          if negb (ParameterItem.is_at_default parm_item) then {[i]} ∪ checked else checked)
       (enumerate (parameters self)) ∅)
    self.

End Methods.

End ParameterTableModel.

(** *** [class NodePickerWidget] *)

Module NodePickerWidget.

Record t : Type := mk {
  _node : option string;
  path_edit : QLineEdit;
}.

Definition __init__ : t := mk None (mkLineEdit "" "").

(** The style sheet of a path that names no node. *)
Definition not_found : string := "background-color: #662222;".

Section Methods.

Variable ns : nodes.

(** [set_node]: what it emits, or the exception of [node.path()] on a node
    that is gone, raised once [_node] is assigned. *)
Definition set_node (self : t) (node : option string) : (exception + list event) * t :=
  match node with
  | Some n =>
      match node_path ns n with
      | inr path => (inr [node_changed node], mk node (mkLineEdit path ""))
      | inl e => (inl (SceneError e), mk node (path_edit self))
      end
  | None => (inr [node_changed node], mk node (mkLineEdit "" ""))
  end.

(** [get_node]. *)
Definition get_node (self : t) : option string := _node self.

(** [clear]. *)
Definition clear (self : t) : (exception + list event) * t := set_node self None.

(** [str.strip()] and [hou.node(path)], left open: the second gives the node
    the path leads to, [None] when there is none. *)
Variable strip : string -> string.
Variable hou_node : string -> exn + option string.

(** [_on_path_edited]; its [except] takes what [hou.node] and [set_node]
    raise. *)
Definition _on_path_edited (self : t) : list event * t :=
  let path := strip (text (path_edit self)) in
  if String.eqb path "" then
    match set_node self None with
    | (inr sent, self') => (sent, self')
    | (inl _, self') => ([], self')
    end
  else
    let marked self' := mk (_node self') (mkLineEdit (text (path_edit self')) not_found) in
    match hou_node path with
    | inr (Some node) =>
        match set_node self (Some node) with
        | (inr sent, self') => (sent, self')
        | (inl _, self') => ([], marked self')
        end
    | inr None => ([], marked self)
    | inl _ => ([], marked self)
    end.

(** [_pick_from_selection], given what [hou.selectedNodes()] returns. *)
Definition _pick_from_selection (self : t) (selected : list string)
    : (exception + list event) * t :=
  match selected with
  | first :: _ => set_node self (Some first)
  | [] =>
      (inr [displayMessage "Please select a node in the network editor first."
              "No Selection"], self)
  end.

End Methods.

End NodePickerWidget.

(** *** [class MultiNodePickerWidget]

    No slot is connected to its signal [nodes_changed], which is left
    out. *)

Module MultiNodePickerWidget.

Record t : Type := mk {
  _nodes : list string;
  node_list : QListWidget;
}.

Definition __init__ : t := mk [] (mkList [] 0).

Section Methods.

Variable ns : nodes.

(** The loop of [_pick_from_selection]. *)
Fixpoint add_nodes (selected : list string) (self : t) : (exception + unit) * t :=
  match selected with
  | [] => (inr tt, self)
  | node :: rest =>
      if bool_decide (node ∈ _nodes self) then add_nodes rest self
      else
        let appended := mk (_nodes self ++ [node])%list (node_list self) in
        match node_path ns node with
        | inr path =>
            add_nodes rest (mk (_nodes appended) (QListWidget_.addItem path (node_list appended)))
        | inl e => (inl (SceneError e), appended)
        end
  end.

(** [_pick_from_selection], given what [hou.selectedNodes()] returns. *)
Definition _pick_from_selection (self : t) (selected : list string)
    : (exception + list event) * t :=
  match selected with
  | [] =>
      (inr [displayMessage "Please select one or more nodes in the network editor."
              "No Selection"], self)
  | _ =>
      match add_nodes selected self with
      | (inr _, self') => (inr [], self')
      | (inl e, self') => (inl e, self')
      end
  end.

(** [_remove_selected], given what [node_list.selectedItems()] returns. *)
Fixpoint _remove_selected (self : t) (selectedItems : list QListWidgetItem)
    : (exception + unit) * t :=
  match selectedItems with
  | [] => (inr tt, self)
  | item :: rest =>
      let row := QListWidget_.row item (node_list self) in
      let taken := QListWidget_.takeItem row (node_list self) in
      match py_delitem (_nodes self) row with
      | inr kept => _remove_selected (mk kept taken) rest
      | inl e => (inl e, mk (_nodes self) taken)
      end
  end.

(** [get_nodes]: the nodes whose [path()] does not raise; they replace
    [_nodes], the list widget is not told. *)
Definition get_nodes (self : t) : list string * t :=
  let valid_nodes :=
    fold_left
      (fun valid_nodes node =>
         match node_path ns node with
         | inr _ => (valid_nodes ++ [node])%list
         | inl _ => valid_nodes
         end)
      (_nodes self) [] in
  (valid_nodes, mk valid_nodes (node_list self)).

(** [clear]. *)
Definition clear (self : t) : t := mk [] (QListWidget_.clear (node_list self)).

End Methods.

End MultiNodePickerWidget.

(** *** [class ParameterTransferPanel] *)

Module ParameterTransferPanel.

(** The attributes the methods below read or write: the widgets by the state
    they hold, the two labels by their text, the three option boxes by
    whether they are checked. *)
Record t : Type := mk {
  _source_node : option string;
  table_model : ParameterTableModel.t;
  target_picker : MultiNodePickerWidget.t;
  copy_expressions_check : bool;
  copy_keyframes_check : bool;
  skip_locked_check : bool;
  selected_count_label : string;
  status_label : string;
}.

(** The panel as [__init__] and [_setup_ui] leave it. *)
Definition __init__ : t :=
  mk None ParameterTableModel.__init__ MultiNodePickerWidget.__init__ true true true
    "0 parameters selected" "Select a source node to begin".

Definition with_table (table : ParameterTableModel.t) (self : t) : t :=
  mk (_source_node self) table (target_picker self) (copy_expressions_check self)
    (copy_keyframes_check self) (skip_locked_check self) (selected_count_label self)
    (status_label self).

Definition with_status (label : string) (self : t) : t :=
  mk (_source_node self) (table_model self) (target_picker self) (copy_expressions_check self)
    (copy_keyframes_check self) (skip_locked_check self) (selected_count_label self) label.

(** [_update_selection_count]. *)
Definition _update_selection_count (self : t) : t :=
  let count := size (ParameterTableModel.checked_items (table_model self)) in
  mk (_source_node self) (table_model self) (target_picker self) (copy_expressions_check self)
    (copy_keyframes_check self) (skip_locked_check self)
    (str_of_int (Z.of_nat count) ++ " parameters selected") (status_label self).

(** The template types [_on_source_changed] passes over. *)
Definition is_structural (ty : parmTemplateType.t) : bool :=
  match ty with
  | parmTemplateType.FolderSet | parmTemplateType.Folder
  | parmTemplateType.Label | parmTemplateType.Separator => true
  | _ => false
  end.

Section Methods.

Variable host : Host.
Variable lower : string -> string.
Variable ns : nodes.

(** The loop of [_on_source_changed] over [node.parms()]. *)
Definition load_parameters (parms : list handle) : M (list ParameterItem.t) :=
  for_fold parms
    (fun parm parm_items =>
       template <- parm_parmTemplate parm ;;
       if is_structural (type template) then ret parm_items
       else
         parm_item <- ParameterItem.__init__ host parm ;;
         ret (parm_items ++ [parm_item])%list)
    [].

(** [_on_source_changed].  An exception of a scene call leaves the method
    with [_source_node] already assigned. *)
Definition _on_source_changed (self : t) (node : option string)
    : scene -> ((exception + unit) * t) * scene :=
  fun s =>
    let self :=
      mk node (table_model self) (target_picker self) (copy_expressions_check self)
        (copy_keyframes_check self) (skip_locked_check self) (selected_count_label self)
        (status_label self) in
    match node with
    | None =>
        ((inr tt,
          with_status "Select a source node to begin"
            (with_table (ParameterTableModel.set_parameters lower [] (table_model self)) self)),
         s)
    | Some node =>
        match node_parms ns node with
        | inl e => ((inl (SceneError e), self), s)
        | inr parms =>
            match load_parameters parms s with
            | (inl e, s') => ((inl (SceneError e), self), s')
            | (inr parm_items, s') =>
                let self :=
                  _update_selection_count
                    (with_table
                       (ParameterTableModel.set_parameters lower parm_items (table_model self))
                       self) in
                let non_default :=
                  length (List.filter (fun p => negb (ParameterItem.is_at_default p)) parm_items) in
                match node_name_of ns node with
                | inl e => ((inl (SceneError e), self), s')
                | inr name =>
                    ((inr tt,
                      with_status
                        ("Loaded " ++ str_of_int (Z.of_nat (length parm_items))
                         ++ " parameters from " ++ name
                         ++ " (" ++ str_of_int (Z.of_nat non_default) ++ " modified)")
                        self),
                     s')
                end
            end
        end
    end.

(** [_on_filter_changed], [_on_non_default_toggled], [_select_all_visible],
    [_select_none] and [_select_modified]. *)
Definition _on_filter_changed (self : t) (text : string) : t :=
  _update_selection_count
    (with_table (ParameterTableModel.set_filter lower text (table_model self)) self).

Definition _on_non_default_toggled (self : t) (checked : bool) : t :=
  _update_selection_count
    (with_table (ParameterTableModel.set_show_only_non_default lower checked (table_model self))
       self).

Definition _select_all_visible (self : t) : t :=
  _update_selection_count
    (with_table (ParameterTableModel.check_all_visible (table_model self)) self).

Definition _select_none (self : t) : t :=
  _update_selection_count
    (with_table (ParameterTableModel.uncheck_all (table_model self)) self).

Definition _select_modified (self : t) : t :=
  _update_selection_count
    (with_table (ParameterTableModel.check_non_default (table_model self)) self).

(** A click in the check box of a row: the view calls [setData] on the
    model, whose signal [dataChanged] is connected to
    [_update_selection_count]. *)
Definition row_toggled (self : t) (index : QModelIndex) (value : Qt.CheckState)
    : exception + t :=
  match ParameterTableModel.setData (table_model self) index value Qt.CheckStateRole with
  | inl e => inl e
  | inr (true, table) => inr (_update_selection_count (with_table table self))
  | inr (false, table) => inr (with_table table self)
  end.

(** How [_do_transfer] ends: on a notice, on the user's refusal of the
    question asked, after the batch with the counters and the message shown
    last, or on an exception. *)
Inductive ending : Type :=
  | Notice (e : event)
  | Cancelled (question : string)
  | Completed (question : string) (c : counts) (msg : string)
  | Raised (e : exception).

(** The question [_do_transfer] asks before the batch. *)
Definition question_text (self : t) (checked_parms : list ParameterItem.t)
    (target_nodes : list string) : exception + string :=
  let msg :=
    "Transfer " ++ str_of_int (Z.of_nat (length checked_parms)) ++ " parameters to "
    ++ str_of_int (Z.of_nat (length target_nodes)) ++ " node(s)?" ++ nl ++ nl in
  match _source_node self with
  | None => inl AttributeError
  | Some source =>
      match node_path ns source with
      | inl e => inl (SceneError e)
      | inr path =>
          let msg := msg ++ "Source: " ++ path ++ nl in
          let msg := msg ++ "Targets:" ++ nl in
          match
            comprehension
              (fun node =>
                 match node_path ns node with
                 | inr path => inr ("  - " ++ path ++ nl)
                 | inl e => inl (SceneError e)
                 end)
              (take 5 target_nodes)
          with
          | inl e => inl e
          | inr lines =>
              let msg := msg ++ String.concat "" lines in
              if (5 <? length target_nodes)%nat
              then inr (msg ++ "  ... and "
                        ++ str_of_int (Z.of_nat (length target_nodes) - 5) ++ " more" ++ nl)
              else inr msg
          end
      end
  end.

(** The message [_do_transfer] shows after the batch. *)
Definition summary_text (c : counts) : string :=
  let msg := "Transfer complete!" ++ nl ++ nl in
  let msg := msg ++ "✓ Transferred: " ++ str_of_int (Z.of_nat (success_count c)) ++ nl in
  let msg :=
    if (0 <? skip_count c)%nat
    then msg ++ "⊘ Skipped: " ++ str_of_int (Z.of_nat (skip_count c)) ++ nl
    else msg in
  if (0 <? fail_count c)%nat
  then msg ++ "✗ Failed: " ++ str_of_int (Z.of_nat (fail_count c)) ++ nl
  else msg.

(** [_do_transfer], the whole method; its two nested loops are the batch
    [_do_transfer] above.  [order] is the order in which Python walks the set
    of checked rows, [answer] the button the user presses on the question (0
    is Transfer).  The undo group of the host around the batch is not
    modelled. *)
Definition _do_transfer (self : t) (order : list nat) (answer : Z)
    : scene -> (ending * t) * scene :=
  fun s =>
    match ParameterTableModel.get_checked_parameters (table_model self) order with
    | inl e => ((Raised e, self), s)
    | inr [] =>
        ((Notice (displayMessage "No parameters selected for transfer." "Nothing Selected"),
          self), s)
    | inr checked_parms =>
        let '(target_nodes, picker) := MultiNodePickerWidget.get_nodes ns (target_picker self) in
        let self :=
          mk (_source_node self) (table_model self) picker (copy_expressions_check self)
            (copy_keyframes_check self) (skip_locked_check self) (selected_count_label self)
            (status_label self) in
        match target_nodes with
        | [] => ((Notice (displayMessage "No target nodes selected." "No Targets"), self), s)
        | _ =>
            match question_text self checked_parms target_nodes with
            | inl e => ((Raised e, self), s)
            | inr question =>
                if negb (answer =? 0)%Z then ((Cancelled question, self), s)
                else
                  match
                    _do_transfer host target_nodes checked_parms (copy_expressions_check self)
                      (copy_keyframes_check self) (skip_locked_check self) s
                  with
                  | (inl e, s') => ((Raised (SceneError e), self), s')
                  | (inr c, s') =>
                      ((Completed question c (summary_text c),
                        with_status
                          ("Transferred " ++ str_of_int (Z.of_nat (success_count c))
                           ++ " parameters to "
                           ++ str_of_int (Z.of_nat (length target_nodes)) ++ " node(s)")
                          self),
                       s')
                  end
            end
        end
    end.

End Methods.

End ParameterTransferPanel.

(** ** Notions used in the statements and proofs *)

Local Open Scope list_scope.

Implicit Types (h : handle) (s : scene) (p tp sp : Parm) (item : ParameterItem.t).

(** Keyframes in strictly increasing frame order, as the host keeps and
    returns them. *)
Definition keys_ordered (ks : list Keyframe) : Prop :=
  StronglySorted (fun a b => (frame a < frame b)%Z) ks.

(** The fallback chain of [_get_value] on a parameter's state. *)
Definition value_fallback (host : Host) (s : scene) (p : Parm) : pyvalue :=
  match eval_of host s p with
  | inr v => v
  | inl _ =>
      match unexpandedString_of p with
      | inr text => VStr text
      | inl _ => VNone
      end
  end.

(** Whether an expression is attached, that is whether [expression()]
    returns. *)
Definition has_expr (p : Parm) : bool :=
  match expr p with Some _ => true | None => false end.

(** The keyframes of [ks] set one after the other on a parameter that has
    [acc]. *)
Definition insert_all (ks acc : list Keyframe) : list Keyframe :=
  fold_left (fun acc k => insert_keyframe k acc) ks acc.

(** *** What one call does to the target parameter

    [evaluated] is what [eval()] of a handle gives on a scene;
    [copied_value] is the argument the value-copy statements pass to
    [target_parm.set], from the state [sp] of the source and what its
    [eval()] gives; [effect] gives the result of a whole call and the
    target parameter it leaves, from the state [tp] of the target, the
    state of the source: [src] as the call finds it and [src_after] as it is
    once the target's keyframes are deleted (the same, unless the source is
    the target), and what [eval()] of the source gives on the scene of the
    call. *)

Definition evaluated (host : Host) (h : handle) (s : scene) : exn + pyvalue :=
  fst (parm_eval host h s).

Definition copied_value (item : ParameterItem.t) (sp : Parm) (ev : exn + pyvalue)
    : exn + pyvalue :=
  match type (ParameterItem.parm_template item) with
  | parmTemplateType.String =>
      match unexpandedString_of sp with
      | inr text => inr (VStr text)
      | inl e => inl e
      end
  | _ => ev
  end.

Definition value_effect (host : Host) (item : ParameterItem.t) (tp : Parm)
    (src : option Parm) (ev : exn + pyvalue) : (exn + outcome) * Parm :=
  match src with
  | None => (inr failed, tp)
  | Some sp =>
      match copied_value item sp ev with
      | inl _ => (inr failed, tp)
      | inr v =>
          match set_of host v tp with
          | inr tp' => (inr success, tp')
          | inl _ => (inr failed, tp)
          end
      end
  end.

Definition expression_effect (host : Host) (tp : Parm) (src : option Parm) : option Parm :=
  match src with
  | None => None
  | Some sp =>
      match expr sp with
      | None => None
      | Some (e, l) =>
          match setExpression_of host e l tp with
          | inr tp' => Some tp'
          | inl _ => None
          end
      end
  end.

Definition lock_answer (sl : bool) (tp : Parm) (src : option Parm) : exn + bool :=
  if sl then
    if locked tp then inr true
    else match src with
         | Some sp => inr (locked sp)
         | None => inl ObjectWasDeleted
         end
  else inr false.

Definition body_effect (host : Host) (item : ParameterItem.t) (ce ck : bool)
    (tp : Parm) (src src_after : option Parm) (ev : exn + pyvalue)
    : (exn + outcome) * Parm :=
  if (ck && ParameterItem.has_keyframes item)%bool then
    if locked tp then (inr failed, tp)
    else match src_after with
         | None => (inr failed, with_keys [] tp)
         | Some sp => (inr success, with_keys (insert_all (keys sp) []) tp)
         end
  else
    match (if (ce && ParameterItem.has_expression item)%bool
           then expression_effect host tp src else None) with
    | Some tp' => (inr success, tp')
    | None => value_effect host item tp src ev
    end.

Definition effect (host : Host) (item : ParameterItem.t) (ce ck sl : bool)
    (tp : Parm) (src src_after : option Parm) (ev : exn + pyvalue)
    : (exn + outcome) * Parm :=
  match lock_answer sl tp src with
  | inl e => (inl e, tp)
  | inr true => (inr skipped, tp)
  | inr false => body_effect host item ce ck tp src src_after ev
  end.

(** A host whose evaluation of a parameter reads the state of that parameter
    and nothing else of the scene: no parameter refers to another. *)
Definition reads_own_state (host : Host) : Prop :=
  forall s s' p, eval_of host s p = eval_of host s' p.

(** *** Frame: what a computation keeps of the scene

    [preserves R m]: the scene [m] leaves is related by [R] to the one it
    started from.  Two relations are used: the parameters other than one
    handle are unchanged ([only_touches]), and no parameter appears or
    disappears ([keeps_parameters]). *)

Definition preserves {A : Type} (R : relation scene) (m : M A) : Prop :=
  forall s, R s (snd (m s)).

Definition agree_outside (tgt : handle) : relation scene :=
  fun s s' => forall h, h <> tgt -> s' !! h = s !! h.

Definition same_parameters : relation scene :=
  fun s s' => dom s' = dom s.

Definition only_touches {A : Type} (tgt : handle) (m : M A) : Prop :=
  preserves (agree_outside tgt) m.

Definition keeps_parameters {A : Type} (m : M A) : Prop :=
  preserves same_parameters m.

(** Either of the two relations. *)
Inductive kept (tgt : handle) : relation scene -> Prop :=
  | kept_outside : kept tgt (agree_outside tgt)
  | kept_parameters : kept tgt same_parameters.

(** The pairs a batch has counted. *)
Definition total (c : counts) : nat := success_count c + skip_count c + fail_count c.

(** *** The panel: notions of the statements *)

(** The indices from [i] of the elements of [xs] that pass [keep]. *)
Fixpoint matching_from {A} (keep : A -> bool) (i : nat) (xs : list A) : list nat :=
  match xs with
  | [] => []
  | x :: rest =>
      if keep x then i :: matching_from keep (S i) rest else matching_from keep (S i) rest
  end.

(** The table models the methods of [ParameterTableModel] produce, starting
    from a new one. *)
Inductive reachable (lower : string -> string) : ParameterTableModel.t -> Prop :=
  | reach_init : reachable lower ParameterTableModel.__init__
  | reach_update m :
      reachable lower m -> reachable lower (ParameterTableModel._update_filtered_indices lower m)
  | reach_set_parameters m parm_items :
      reachable lower m -> reachable lower (ParameterTableModel.set_parameters lower parm_items m)
  | reach_set_filter m text :
      reachable lower m -> reachable lower (ParameterTableModel.set_filter lower text m)
  | reach_set_show_only_non_default m enabled :
      reachable lower m ->
      reachable lower (ParameterTableModel.set_show_only_non_default lower enabled m)
  | reach_setData m index value role changed m' :
      reachable lower m ->
      ParameterTableModel.setData m index value role = inr (changed, m') ->
      reachable lower m'
  | reach_check_all_visible m :
      reachable lower m -> reachable lower (ParameterTableModel.check_all_visible m)
  | reach_uncheck_all m :
      reachable lower m -> reachable lower (ParameterTableModel.uncheck_all m)
  | reach_check_non_default m :
      reachable lower m -> reachable lower (ParameterTableModel.check_non_default m).

(** The rows of a table model are those its filter lets through, and every
    checked index is the index of a parameter. *)
Definition consistent (lower : string -> string) (m : ParameterTableModel.t) : Prop :=
  ParameterTableModel._filtered_indices m
    = matching_from (ParameterTableModel._matches_filter lower m) 0
        (ParameterTableModel.parameters m)
  /\ forall i, i ∈ ParameterTableModel.checked_items m ->
               i < length (ParameterTableModel.parameters m).

(** The target picker in step: the rows of the list widget are the paths of
    the nodes of [_nodes], place for place. *)
Definition in_step (w : MultiNodePickerWidget.t) : Prop :=
  MultiNodePickerWidget._nodes w
    = map item_text (items (MultiNodePickerWidget.node_list w)).

(** Whether a node is still in the scene. *)
Definition live (ns : nodes) (node : string) : bool :=
  match ns !! node with Some _ => true | None => false end.

(** Whether the handle is that of a parameter [_on_source_changed] takes a
    snapshot of: one of the scene whose template is not a folder, a folder
    set, a label or a separator. *)
Definition value_bearing (s : scene) (h : handle) : bool :=
  match s !! h with
  | Some p => negb (ParameterTransferPanel.is_structural (type (parmTemplate_of p)))
  | None => false
  end.

(** The selection label reads the number of checked rows. *)
Definition count_shown (panel : ParameterTransferPanel.t) : Prop :=
  ParameterTransferPanel.selected_count_label panel
  = (str_of_int
       (Z.of_nat
          (size (ParameterTableModel.checked_items (ParameterTransferPanel.table_model panel))))
     +:+ " parameters selected")%string.

(** One handler of the panel run on a panel and a scene, any but the
    clearing of the source node: the loading of a source node, a change of
    the filter, the three selection buttons, a click in a check box, the
    transfer button. *)
Inductive handled (host : Host) (lower : string -> string) (ns : nodes) :
    ParameterTransferPanel.t -> scene -> ParameterTransferPanel.t -> scene -> Prop :=
  | handled_source panel s node r panel' s' :
      ParameterTransferPanel._on_source_changed host lower ns panel (Some node) s
        = ((r, panel'), s') ->
      handled host lower ns panel s panel' s'
  | handled_filter panel s text :
      handled host lower ns panel s (ParameterTransferPanel._on_filter_changed lower panel text) s
  | handled_non_default panel s checked :
      handled host lower ns panel s
        (ParameterTransferPanel._on_non_default_toggled lower panel checked) s
  | handled_select_all panel s :
      handled host lower ns panel s (ParameterTransferPanel._select_all_visible panel) s
  | handled_select_none panel s :
      handled host lower ns panel s (ParameterTransferPanel._select_none panel) s
  | handled_select_modified panel s :
      handled host lower ns panel s (ParameterTransferPanel._select_modified panel) s
  | handled_row panel s index value panel' :
      ParameterTransferPanel.row_toggled panel index value = inr panel' ->
      handled host lower ns panel s panel' s
  | handled_transfer panel s order answer e panel' s' :
      ParameterTransferPanel._do_transfer host ns panel order answer s = ((e, panel'), s') ->
      handled host lower ns panel s panel' s'.

(** ** A host to run the tool on

    One concrete host and scene, used to evaluate the definitions above at
    explicit inputs.  Its evaluator reads the first keyframe of an animated
    parameter and expands [$HIP] at the head of a string.  A parameter is
    time-dependent when it has keyframes or when its string or expression
    mentions the frame variable [$F], as in a file path [geo.$F4.bgeo]: the
    documentation of [hou.Parm.isTimeDependent] describes a value that
    changes with the point on the timeline at which it is evaluated, and
    gives an expression containing [$F] as its example.  Its parameters take
    Hscript expressions only.  Floats are printed in decimal with up to six
    fractional digits, in place of Python's formatting. *)
Module Sim.

Fixpoint contains (pat s : string) : bool :=
  match s with
  | EmptyString => String.eqb pat ""
  | String.String _ rest => (String.prefix pat s || contains pat rest)%bool
  end.

Definition expand (s : string) : string :=
  if String.prefix "$HIP" s
  then "/home/user" ++ String.substring 4 (String.length s - 4) s
  else s.

Definition eval_of (p : Parm) : exn + pyvalue :=
  match keys p with
  | k :: _ => inr (VFloat (kf_value k))
  | [] =>
      match raw p with
      | VNone => inl OperationFailed
      | VStr s => inr (VStr (expand s))
      | v => inr v
      end
  end.

Definition mentions_frame (p : Parm) : bool :=
  (match raw p with VStr s => contains "$F" s | _ => false end
   || match expr p with Some (e, _) => contains "$F" e | None => false end)%bool.

Definition time_dependent_of (p : Parm) : bool :=
  (match keys p with [] => false | _ => true end || mentions_frame p)%bool.

Definition at_default_of (p : Parm) : bool :=
  match keys p, expr p, raw p with
  | [], None, VInt 0 => true
  | [], None, VStr "" => true
  | [], None, VFloat q => Qeq_bool q (0 # 1)
  | _, _, _ => false
  end.

Definition accepts_value (tmpl : ParmTemplate) (v : pyvalue) : bool :=
  match type tmpl, v with
  | parmTemplateType.Float, (VInt _ | VFloat _) => true
  | (parmTemplateType.Int | parmTemplateType.Toggle | parmTemplateType.Menu), VInt _ => true
  | parmTemplateType.String, VStr _ => true
  | parmTemplateType.Ramp, VRamp _ => true
  | _, _ => false
  end.

Definition accepts_language (tmpl : ParmTemplate) (l : exprLanguage.t) : bool :=
  match l with exprLanguage.Hscript => true | exprLanguage.Python => false end.

Definition str_of_Z (z : Z) : string := NilZero.string_of_int (Z.to_int z).

(** A digit string without its trailing zeros. *)
Fixpoint strip_zeros (s : string) : string :=
  match s with
  | EmptyString => EmptyString
  | String.String c rest =>
      match strip_zeros rest with
      | EmptyString => if Ascii.eqb c "0"%char then EmptyString else String.String c EmptyString
      | kept => String.String c kept
      end
  end.

(** [q] in decimal; [keep_point] asks for [.0] on a whole number, as [str]
    prints a float. *)
Definition float_str (keep_point : bool) (q : Q) : string :=
  let n := Z.abs (Qnum q) in
  let d := Zpos (Qden q) in
  let whole := (n / d)%Z in
  let millionths := ((n mod d) * 1000000 / d)%Z in
  let digits := strip_zeros (String.substring 1 6 (str_of_Z (1000000 + millionths))) in
  (if (Qnum q <? 0)%Z then "-" else "")
  ++ str_of_Z whole
  ++ match digits with
     | EmptyString => if keep_point then ".0" else ""
     | _ => "." ++ digits
     end.

Definition py_str (v : pyvalue) : string :=
  match v with
  | VNone => "None"
  | VInt z => str_of_Z z
  | VFloat q => float_str true q
  | VStr s => s
  | VRamp _ => "<hou.Ramp>"
  end.

Definition py_int_of_str (s : string) : exn + Z :=
  match NilZero.int_of_string s with
  | Some d => inr (Z.of_int d)
  | None => inl PyValueError
  end.

Definition host : Host :=
  mkHost (fun _ => eval_of) time_dependent_of at_default_of accepts_value accepts_language
    py_str (float_str false) py_int_of_str.

Definition float_tmpl : ParmTemplate := mkTemplate parmTemplateType.Float [].
Definition string_tmpl : ParmTemplate := mkTemplate parmTemplateType.String [].

Definition k1 : Keyframe := mkKeyframe 1 (0 # 1) Bezier.
Definition k12 : Keyframe := mkKeyframe 12 (5 # 2) Linear.
Definition k24 : Keyframe := mkKeyframe 24 (1 # 1) Constant.
Definition k1_old : Keyframe := mkKeyframe 1 (7 # 1) Constant.

(** Source parameters (node [/obj/src]). *)
Definition src_tx : Parm := mkParm "Translate X" float_tmpl false (VFloat (9 # 2)) None [].
Definition src_color : Parm := mkParm "Texture" string_tmpl false (VStr "$HIP/tex.png") None [].
Definition src_scale : Parm := mkParm "Scale" float_tmpl false (VFloat (1 # 1)) None [k1; k12; k24].
Definition src_ry : Parm :=
  mkParm "Rotate Y" float_tmpl false (VFloat (3 # 1)) (Some ("hou.pwd().evalParm('tx')", exprLanguage.Python)) [].
Definition src_rz : Parm :=
  mkParm "Rotate Z" float_tmpl false (VFloat (2 # 1)) (Some ("ch('tx') * 2", exprLanguage.Hscript)) [].
Definition src_file : Parm := mkParm "File" string_tmpl false (VStr "$HIP/geo.$F4.bgeo") None [].
Definition src_pin : Parm := mkParm "Pin" float_tmpl true (VFloat (1 # 1)) None [].

(** Target parameters (node [/obj/tgt]); [/obj/held] has its [scale] locked. *)
Definition tgt_tx : Parm := mkParm "Translate X" float_tmpl false (VFloat (0 # 1)) None [].
Definition tgt_color : Parm := mkParm "Texture" string_tmpl false (VStr "") None [].
Definition tgt_scale : Parm := mkParm "Scale" float_tmpl false (VFloat (1 # 1)) None [k1_old].
Definition tgt_ry : Parm := mkParm "Rotate Y" float_tmpl false (VFloat (0 # 1)) None [].
Definition tgt_rz : Parm := mkParm "Rotate Z" float_tmpl false (VFloat (0 # 1)) None [].
Definition tgt_pin : Parm := mkParm "Pin" float_tmpl false (VFloat (0 # 1)) None [].
Definition held_scale : Parm := mkParm "Scale" float_tmpl true (VFloat (1 # 1)) None [k1_old].
Definition held_tx : Parm := mkParm "Translate X" float_tmpl true (VFloat (0 # 1)) None [].
Definition tgt_extra : Parm := mkParm "Extra" float_tmpl false (VFloat (0 # 1)) None [k1_old].

Definition demo : scene :=
  list_to_map
    [ (("/obj/src", "tx"), src_tx); (("/obj/src", "color"), src_color);
      (("/obj/src", "scale"), src_scale); (("/obj/src", "ry"), src_ry);
      (("/obj/src", "rz"), src_rz); (("/obj/src", "file"), src_file);
      (("/obj/src", "pin"), src_pin);
      (("/obj/tgt", "tx"), tgt_tx); (("/obj/tgt", "color"), tgt_color);
      (("/obj/tgt", "scale"), tgt_scale); (("/obj/tgt", "ry"), tgt_ry);
      (("/obj/tgt", "rz"), tgt_rz); (("/obj/tgt", "pin"), tgt_pin);
      (("/obj/tgt", "extra"), tgt_extra);
      (("/obj/held", "scale"), held_scale); (("/obj/held", "tx"), held_tx) ].

(** Parameters of other types (node [/obj/ui]), for the display strings. *)
Definition menu_tmpl : ParmTemplate :=
  mkTemplate parmTemplateType.Menu ["Low"; "Medium"; "High"].
Definition toggle_tmpl : ParmTemplate := mkTemplate parmTemplateType.Toggle [].
Definition ramp_tmpl : ParmTemplate := mkTemplate parmTemplateType.Ramp [].

Definition long_text : string :=
  "The quick brown fox jumps over the lazy dog by the river bank".

Definition ui_quality : Parm := mkParm "Quality" menu_tmpl false (VInt 1) None [].
Definition ui_level : Parm := mkParm "Level" menu_tmpl false (VInt 7) None [].
Definition ui_enable : Parm := mkParm "Enable" toggle_tmpl false (VInt 1) None [].
Definition ui_notes : Parm := mkParm "Notes" string_tmpl false (VStr long_text) None [].
Definition ui_falloff : Parm :=
  mkParm "Falloff" ramp_tmpl false (VRamp [((0 # 1)%Q, (0 # 1)%Q); ((1 # 1)%Q, (1 # 1)%Q)]) None [].
Definition ui_unset : Parm := mkParm "Unset" float_tmpl false VNone None [].

Definition widgets : scene :=
  list_to_map
    [ (("/obj/ui", "quality"), ui_quality); (("/obj/ui", "level"), ui_level);
      (("/obj/ui", "enable"), ui_enable); (("/obj/ui", "notes"), ui_notes);
      (("/obj/ui", "falloff"), ui_falloff); (("/obj/ui", "unset"), ui_unset) ].

(** The snapshots of the source parameters of [demo], as
    [ParameterItem(parm)] builds them ([snapshot] below runs it). *)
Definition snapshot (nm : string) : (exn + ParameterItem.t) * scene :=
  ParameterItem.__init__ host ("/obj/src", nm) demo.

Definition tx_item : ParameterItem.t :=
  ParameterItem.mk ("/obj/src", "tx") "tx" "Translate X" float_tmpl false
    (VFloat (9 # 2)) "4.5" false false.
Definition color_item : ParameterItem.t :=
  ParameterItem.mk ("/obj/src", "color") "color" "Texture" string_tmpl false
    (VStr "/home/user/tex.png") "/home/user/tex.png" false false.
Definition scale_item : ParameterItem.t :=
  ParameterItem.mk ("/obj/src", "scale") "scale" "Scale" float_tmpl false
    (VFloat (0 # 1)) "0" true false.
Definition ry_item : ParameterItem.t :=
  ParameterItem.mk ("/obj/src", "ry") "ry" "Rotate Y" float_tmpl false
    (VFloat (3 # 1)) "3" false true.
Definition file_item : ParameterItem.t :=
  ParameterItem.mk ("/obj/src", "file") "file" "File" string_tmpl false
    (VStr "/home/user/geo.$F4.bgeo") "/home/user/geo.$F4.bgeo" true false.
Definition pin_item : ParameterItem.t :=
  ParameterItem.mk ("/obj/src", "pin") "pin" "Pin" float_tmpl false
    (VFloat (1 # 1)) "1" false false.

(** The snapshot of an animated parameter [extra] the source node had when
    it was loaded and has no more in [demo]: its handle is stale. *)
Definition extra_item : ParameterItem.t :=
  ParameterItem.mk ("/obj/src", "extra") "extra" "Extra" float_tmpl false
    (VFloat (1 # 1)) "1" true false.

(** A second host, whose parameters can refer to one another: the
    expression [ch('/obj/tgt/tx') + 1] evaluates to the value of the
    parameter [tx] of [/obj/tgt] plus one; every other parameter evaluates
    as on [host].  On the scene [linked_scene] the parameter [tx] of the
    source node has that expression; [follow_item] is its snapshot. *)
Definition follows_tx : string := "ch('/obj/tgt/tx') + 1".

Definition eval_linked (s : scene) (p : Parm) : exn + pyvalue :=
  match expr p with
  | Some (e, _) =>
      if String.eqb e follows_tx then
        match s !! ("/obj/tgt", "tx") with
        | Some target =>
            match raw target with
            | VFloat q => inr (VFloat (Qplus q (1 # 1)))
            | _ => inl OperationFailed
            end
        | None => inl OperationFailed
        end
      else eval_of p
  | None => eval_of p
  end.

Definition linked : Host :=
  mkHost eval_linked time_dependent_of at_default_of accepts_value accepts_language
    py_str (float_str false) py_int_of_str.

Definition src_follow : Parm :=
  mkParm "Translate X" float_tmpl false (VFloat (0 # 1))
    (Some (follows_tx, exprLanguage.Hscript)) [].

Definition linked_scene : scene :=
  list_to_map [ (("/obj/src", "tx"), src_follow); (("/obj/tgt", "tx"), tgt_tx) ].

Definition follow_item : ParameterItem.t :=
  ParameterItem.mk ("/obj/src", "tx") "tx" "Translate X" float_tmpl false
    (VFloat (1 # 1)) "1" false true.

(** A text of thirty characters and sixty bytes, on a String parameter. *)
Definition accents : string :=
  "éééééééééééééééééééééééééééééé".

Definition ui_accents : Parm := mkParm "Accents" string_tmpl false (VStr accents) None [].

Definition accented : scene := list_to_map [ (("/obj/ui", "accents"), ui_accents) ].

(** For the panel: the lowering of letters, the nodes of the scene, and a
    table, a target picker and a panel to run the methods on. *)

(** [str.lower()] on the letters [A] to [Z]; the other characters are
    kept. *)
Definition lower_char (c : ascii) : ascii :=
  let n := nat_of_ascii c in
  if ((65 <=? n) && (n <=? 90))%nat then ascii_of_nat (n + 32) else c.

Fixpoint lower (s : string) : string :=
  match s with
  | EmptyString => EmptyString
  | String.String c rest => String.String (lower_char c) (lower rest)
  end.

(** [str.strip()] of spaces. *)
Fixpoint lstrip (s : string) : string :=
  match s with
  | String.String " "%char rest => lstrip rest
  | _ => s
  end.

Definition strip (s : string) : string := String.rev (lstrip (String.rev (lstrip s))).

(** The nodes of [demo], and [hou.node] on them: the node at an absolute
    path. *)
Definition demo_nodes : nodes :=
  list_to_map
    [ ("/obj/src", mkNode "src" ["tx"; "color"; "scale"; "ry"; "rz"; "file"; "pin"]);
      ("/obj/tgt", mkNode "tgt" ["tx"; "color"; "scale"; "ry"; "rz"; "pin"; "extra"]);
      ("/obj/held", mkNode "held" ["scale"; "tx"]) ].

Definition hou_node (path : string) : exn + option string :=
  inr (if live demo_nodes path then Some path else None).

(** A node [/obj/rig] with a folder set, a separator and a label among its
    parameters. *)
Definition rig_tabs : Parm :=
  mkParm "Tabs" (mkTemplate parmTemplateType.FolderSet []) false (VInt 0) None [].
Definition rig_tx : Parm := mkParm "Translate X" float_tmpl false (VFloat (9 # 2)) None [].
Definition rig_rule : Parm :=
  mkParm "" (mkTemplate parmTemplateType.Separator []) false (VStr "") None [].
Definition rig_note : Parm :=
  mkParm "Controls" (mkTemplate parmTemplateType.Label []) false (VStr "") None [].
Definition rig_name : Parm := mkParm "Name" string_tmpl false (VStr "") None [].

Definition rig : scene :=
  list_to_map
    [ (("/obj/rig", "tabs"), rig_tabs); (("/obj/rig", "tx"), rig_tx);
      (("/obj/rig", "rule"), rig_rule); (("/obj/rig", "note"), rig_note);
      (("/obj/rig", "name"), rig_name) ].

Definition rig_nodes : nodes :=
  list_to_map [ ("/obj/rig", mkNode "rig" ["tabs"; "tx"; "rule"; "note"; "name"]) ].

(** The table of the source parameters of [demo], nothing checked; the same
    filtered by the text [rot]; and with the row of [tx] checked. *)
Definition table : ParameterTableModel.t :=
  ParameterTableModel.set_parameters lower
    [tx_item; color_item; scale_item; ry_item; file_item; pin_item]
    ParameterTableModel.__init__.

Definition table_rot : ParameterTableModel.t := ParameterTableModel.set_filter lower "Rot" table.

Definition table_tx : ParameterTableModel.t :=
  ParameterTableModel.with_checked ({[0]} ∪ ∅) table.

(** A target picker with three rows; the node of the second was deleted
    since. *)
Definition picker : MultiNodePickerWidget.t :=
  MultiNodePickerWidget.mk ["/obj/tgt"; "/obj/gone"; "/obj/held"]
    (mkList [mkItem 0 "/obj/tgt"; mkItem 1 "/obj/gone"; mkItem 2 "/obj/held"] 3).

(** The panel with [/obj/src] loaded, the row of [tx] checked and the three
    targets picked. *)
Definition panel : ParameterTransferPanel.t :=
  ParameterTransferPanel.mk (Some "/obj/src") table_tx picker true true true
    "1 parameters selected" "Loaded 6 parameters from src (6 modified)".

End Sim.

(** ** Properties *)

Section Calls.

Context {A : Type}.

Lemma read_live (f : Parm -> exn + A) h s p :
  s !! h = Some p -> read f h s = (f p, s).
Proof. intros Hh. unfold read. now rewrite Hh. Qed.

Lemma read_keeps_scene (f : Parm -> exn + A) h s :
  snd (read f h s) = s.
Proof. unfold read. now destruct (s !! h). Qed.

End Calls.

Lemma write_accepted f h s p p' :
  s !! h = Some p -> f p = inr p' -> write f h s = (inr tt, <[h := p']> s).
Proof. intros Hh Hf. unfold write. now rewrite Hh, Hf. Qed.

Lemma write_refused f h s p e :
  s !! h = Some p -> f p = inl e -> write f h s = (inl e, s).
Proof. intros Hh Hf. unfold write. now rewrite Hh, Hf. Qed.

Lemma node_parm_found node nm s p :
  s !! (node, nm) = Some p -> node_parm node nm s = (inr (Some (node, nm)), s).
Proof. intros Hh. unfold node_parm. now rewrite Hh. Qed.

Lemma node_parm_missing node nm s :
  s !! (node, nm) = None -> node_parm node nm s = (inr None, s).
Proof. intros Hh. unfold node_parm. now rewrite Hh. Qed.

Section TransferFacts.

Variable host : Host.

(** C5. A target node without a parameter of the descriptor's name gives
    [failed] at once: the scene is returned as it was, whatever the options
    and whatever the state of the source. *)
Theorem C5_missing_target_fails item target_node ce ck sl s :
  s !! (target_node, ParameterItem.name item) = None ->
  _transfer_parameter host item target_node ce ck sl s = (inr failed, s).
Proof.
  intros Hmiss. unfold _transfer_parameter, bind.
  now rewrite (node_parm_missing _ _ _ Hmiss).
Qed.

(** C4. With [skip_locked] set, a target parameter that exists, and the
    target or the source parameter locked, the outcome is [skipped] for every
    setting of the two copy options, and the scene is unchanged. *)
Theorem C4_locked_is_skipped item target_node ce ck s tp :
  s !! (target_node, ParameterItem.name item) = Some tp ->
  (locked tp = true \/
   exists sp, s !! ParameterItem.parm item = Some sp /\ locked sp = true) ->
  _transfer_parameter host item target_node ce ck true s = (inr skipped, s).
Proof.
  intros Htgt Hlock. unfold _transfer_parameter, bind.
  rewrite (node_parm_found _ _ _ _ Htgt). unfold lock_test, bind, parm_isLocked.
  rewrite (read_live _ _ _ _ Htgt).
  destruct (locked tp) eqn:Htl; [reflexivity|].
  destruct Hlock as [Hl | (sp & Hsrc & Hsl)]; [discriminate|].
  rewrite (read_live _ _ _ _ Hsrc), Hsl. reflexivity.
Qed.

End TransferFacts.

Lemma length_append (a b : string) :
  String.length (a +:+ b) = String.length a + String.length b.
Proof. induction a as [|c a IH]; simpl; [reflexivity | now f_equal]. Qed.

Lemma py_str_len_append (a b : string) :
  py_str_len (a +:+ b) = py_str_len a + py_str_len b.
Proof.
  induction a as [|c a IH]; simpl; [reflexivity|].
  destruct (is_continuation c); [exact IH | simpl; now rewrite IH].
Qed.

(** A slice [s[:n]] has [n] characters, or all those of [s] when they are
    fewer. *)
Lemma py_str_len_take (text : string) : forall n,
  py_str_len (py_str_take n text) = Nat.min n (py_str_len text).
Proof.
  induction text as [|c text IH]; intros n; simpl; [now rewrite Nat.min_0_r|].
  destruct (is_continuation c) eqn:Hc; simpl; rewrite ?Hc; [apply IH|].
  destruct n as [|n]; simpl; rewrite ?Hc; [reflexivity | now rewrite IH].
Qed.

Section SnapshotFacts.

Variable host : Host.

Lemma get_value_live h s p :
  s !! h = Some p ->
  ParameterItem._get_value host h s = (inr (value_fallback host s p), s).
Proof.
  intros Hh.
  unfold ParameterItem._get_value, value_fallback, try_except, bind,
    parm_eval, parm_unexpandedString.
  rewrite !(read_live _ _ _ _ Hh).
  destruct (eval_of host s p); [|reflexivity].
  now destruct (unexpandedString_of p).
Qed.

Lemma display_plain_keeps_scene h s p :
  s !! h = Some p ->
  snd (ParameterItem.display_plain host h s) = s.
Proof.
  intros Hh. unfold ParameterItem.display_plain, bind, parm_eval.
  rewrite (read_live _ _ _ _ Hh).
  destruct (eval_of host s p) as [e|[]]; reflexivity.
Qed.

Lemma display_menu_total h tmpl s p :
  s !! h = Some p ->
  exists r, ParameterItem.display_menu host h tmpl s = (inr r, s).
Proof.
  intros Hh. unfold ParameterItem.display_menu, try_except, bind, parm_eval.
  rewrite (read_live _ _ _ _ Hh).
  destruct (eval_of host s p) as [e|v]; [now eexists|].
  unfold lift. destruct (py_int host v) as [e|idx]; [now eexists|]. cbn.
  destruct (_ && _)%bool; [|now eexists].
  destruct (menuLabels tmpl !! Z.to_nat idx); now eexists.
Qed.

(** [_get_display_value] always returns a string: its outer [except] turns
    every failure into [str(self.value)]. *)
Lemma get_display_value_total h tmpl v s p :
  s !! h = Some p ->
  exists text, ParameterItem._get_display_value host h tmpl v s = (inr text, s).
Proof.
  intros Hh. unfold ParameterItem._get_display_value, try_except.
  assert (Hplain : exists text,
             match ParameterItem.display_plain host h s with
             | (inl e, s') => ret (py_str host v) s'
             | r => r
             end = (inr text, s)).
  { pose proof (display_plain_keeps_scene h s p Hh) as Hs.
    destruct (ParameterItem.display_plain host h s) as [[e|text] s']; cbn in Hs; subst s';
      now eexists. }
  destruct (type tmpl); try exact Hplain.
  - (* String *)
    unfold bind, parm_eval. rewrite (read_live _ _ _ _ Hh).
    destruct (eval_of host s p) as [e|val]; [now eexists|].
    destruct val as [|z|q|text|pts]; unfold lift, py_len, raise, ret;
      try now eexists.
    destruct (50 <? py_str_len text)%nat; now eexists.
  - (* Toggle *)
    unfold bind, parm_eval. rewrite (read_live _ _ _ _ Hh).
    destruct (eval_of host s p) as [e|val]; now eexists.
  - (* Menu *)
    unfold bind. destruct (display_menu_total h tmpl s p Hh) as [r ->].
    destruct r; [now eexists | exact Hplain].
  - (* Ramp *)
    now eexists.
Qed.

(** The whole of [__init__] on a live parameter. *)
Lemma init_live h s p :
  s !! h = Some p ->
  exists text,
    ParameterItem.__init__ host h s =
      (inr (ParameterItem.mk h (snd h) (description p) (parmTemplate_of p)
              (at_default_of host p) (value_fallback host s p) text
              (time_dependent_of host p)
              (negb (time_dependent_of host p) && has_expr p)),
       s).
Proof.
  intros Hh.
  destruct (get_display_value_total h (parmTemplate_of p) (value_fallback host s p) s p Hh)
    as [text Htext].
  exists text. unfold ParameterItem.__init__, bind, parm_name, parm_description,
    parm_parmTemplate, parm_isAtDefault, parm_isTimeDependent.
  rewrite !(read_live _ _ _ _ Hh), (get_value_live h s p Hh), Htext.
  rewrite !(read_live _ _ _ _ Hh).
  destruct (time_dependent_of host p); cbn; [reflexivity|].
  unfold try_except_OperationFailed, bind, parm_expression.
  rewrite (read_live _ _ _ _ Hh). unfold expression_of, has_expr.
  destruct (expr p) as [[e l]|]; reflexivity.
Qed.

(** C6. On a live parameter the snapshot is always built, nothing is raised
    and the scene is untouched; its value is the result of [eval()], else the
    raw string, else [None]. *)
Theorem C6_snapshot_always_built h s p :
  s !! h = Some p ->
  exists item,
    ParameterItem.__init__ host h s = (inr item, s) /\
    ParameterItem.value item =
      match eval_of host s p with
      | inr v => v
      | inl _ =>
          match unexpandedString_of p with
          | inr text => VStr text
          | inl _ => VNone
          end
      end.
Proof.
  intros Hh. destruct (init_live h s p Hh) as [text ->].
  eexists. split; reflexivity.
Qed.

(** C9, as the code has it. On a live parameter [has_keyframes] is what the
    host answers to [isTimeDependent()], whether or not keyframes are stored;
    [has_expression] is set only when that answer is no and an expression
    can be read, a failed read giving [False] and no error; the two flags are
    never both set. *)
Theorem C9_flags_follow_time_dependence h s p :
  s !! h = Some p ->
  exists item,
    ParameterItem.__init__ host h s = (inr item, s) /\
    ParameterItem.has_keyframes item = time_dependent_of host p /\
    ParameterItem.has_expression item =
      (negb (time_dependent_of host p) && has_expr p) /\
    (ParameterItem.has_keyframes item && ParameterItem.has_expression item = false).
Proof.
  intros Hh. destruct (init_live h s p Hh) as [text ->].
  eexists. split; [reflexivity|]. cbn.
  repeat split. now destruct (time_dependent_of host p).
Qed.

(** The display string of a String parameter is its evaluated text when
    that has at most 50 characters, and otherwise its first 47 characters
    followed by three dots, 50 characters in all; characters are counted,
    not the bytes of their encoding. *)
Theorem display_of_string h tmpl v s p (text : string) :
  s !! h = Some p ->
  type tmpl = parmTemplateType.String ->
  eval_of host s p = inr (VStr text) ->
  ParameterItem._get_display_value host h tmpl v s =
    (inr (if (50 <? py_str_len text)%nat
          then py_str_take 47 text +:+ "..." else text), s)
  /\ ((50 < py_str_len text)%nat ->
      py_str_len (py_str_take 47 text +:+ "...") = 50).
Proof.
  intros Hh Hty Hev. split.
  - unfold ParameterItem._get_display_value, try_except, bind, parm_eval.
    rewrite Hty, (read_live _ _ _ _ Hh), Hev. cbn [lift py_len ret].
    now destruct (50 <? py_str_len text)%nat.
  - intros Hlong. rewrite py_str_len_append, py_str_len_take.
    rewrite Nat.min_l by lia. reflexivity.
Qed.

(** The display string of a Toggle is [On] or [Off], by the truth of the
    evaluated value. *)
Theorem display_of_toggle h tmpl v s p val :
  s !! h = Some p ->
  type tmpl = parmTemplateType.Toggle ->
  eval_of host s p = inr val ->
  ParameterItem._get_display_value host h tmpl v s =
    (inr (if py_truthy val then "On" else "Off"), s).
Proof.
  intros Hh Hty Hev.
  unfold ParameterItem._get_display_value, try_except, bind, parm_eval.
  now rewrite Hty, (read_live _ _ _ _ Hh), Hev.
Qed.

(** The display string of a Ramp is a fixed placeholder; the parameter is not
    even read. *)
Theorem display_of_ramp h tmpl v s :
  type tmpl = parmTemplateType.Ramp ->
  ParameterItem._get_display_value host h tmpl v s = (inr "[Ramp Data]", s).
Proof.
  intros Hty. unfold ParameterItem._get_display_value, try_except. now rewrite Hty.
Qed.

(** The display string of a Menu whose evaluated index is in the range of
    its labels is the label and the index in brackets; out of range it is
    the plain string of the index. *)
Theorem display_of_menu h tmpl v s p idx :
  s !! h = Some p ->
  type tmpl = parmTemplateType.Menu ->
  eval_of host s p = inr (VInt idx) ->
  (forall text : string, (0 <= idx)%Z -> menuLabels tmpl !! Z.to_nat idx = Some text ->
     ParameterItem._get_display_value host h tmpl v s =
       (inr (text +:+ " (" +:+ py_str host (VInt idx) +:+ ")"), s))
  /\ ((idx < 0 \/ Z.of_nat (length (menuLabels tmpl)) <= idx)%Z ->
      ParameterItem._get_display_value host h tmpl v s =
        (inr (py_str host (VInt idx)), s)).
Proof.
  intros Hh Hty Hev.
  unfold ParameterItem._get_display_value, ParameterItem.display_menu,
    ParameterItem.display_plain, try_except, bind, parm_eval.
  rewrite Hty, !(read_live _ _ _ _ Hh), Hev. cbn [lift py_int ret]. split.
  - intros text Hpos Hitem.
    pose proof (lookup_lt_Some _ _ _ Hitem) as Hlt.
    destruct (Z.leb_spec 0 idx); [|lia].
    destruct (Z.ltb_spec idx (Z.of_nat (length (menuLabels tmpl)))); [|lia].
    cbn [andb]. now rewrite Hitem.
  - intros Hout.
    destruct (Z.leb_spec 0 idx); cbn [andb];
      [destruct (Z.ltb_spec idx (Z.of_nat (length (menuLabels tmpl)))); [lia|]|];
      cbn; now rewrite (read_live _ _ _ _ Hh), Hev.
Qed.

(** When [eval()] raises, the display string of any type but Ramp is the
    plain string of the value the snapshot kept. *)
Theorem display_falls_back h tmpl v s p e :
  s !! h = Some p ->
  type tmpl <> parmTemplateType.Ramp ->
  eval_of host s p = inl e ->
  ParameterItem._get_display_value host h tmpl v s = (inr (py_str host v), s).
Proof.
  intros Hh Hty Hev.
  unfold ParameterItem._get_display_value, ParameterItem.display_menu,
    ParameterItem.display_plain, try_except, bind, parm_eval.
  destruct (type tmpl); try congruence;
    rewrite ?(read_live _ _ _ _ Hh), Hev; cbn;
    rewrite ?(read_live _ _ _ _ Hh), ?Hev; reflexivity.
Qed.

End SnapshotFacts.

(** *** Keyframe lists *)

Lemma insert_keyframe_after k acc :
  Forall (fun k' => (frame k' < frame k)%Z) acc ->
  insert_keyframe k acc = acc ++ [k].
Proof.
  induction 1 as [|k' acc Hlt _ IH]; [reflexivity|]. cbn.
  destruct (Z.ltb_spec (frame k) (frame k')); [lia|].
  destruct (Z.eqb_spec (frame k) (frame k')); [lia|].
  now rewrite IH.
Qed.

Lemma ordered_before acc k rest :
  keys_ordered (acc ++ k :: rest) ->
  Forall (fun k' => (frame k' < frame k)%Z) acc.
Proof.
  unfold keys_ordered. induction acc as [|a acc IH]; cbn; intros Hs; [constructor|].
  apply StronglySorted_inv in Hs as [Hs Hall]. constructor; [|now apply IH].
  rewrite Forall_forall in Hall. apply Hall. apply elem_of_app. right. left.
Qed.

(** Setting ordered keyframes one after the other rebuilds their list. *)
Lemma insert_all_ordered ks : forall acc,
  keys_ordered (acc ++ ks) -> insert_all ks acc = acc ++ ks.
Proof.
  induction ks as [|k ks IH]; intros acc Hs; cbn.
  - now rewrite app_nil_r.
  - rewrite (insert_keyframe_after k acc (ordered_before acc k ks Hs)).
    unfold insert_all in IH. rewrite IH; rewrite <- app_assoc; [reflexivity | exact Hs].
Qed.

Lemma insert_keyframe_Forall (P : Keyframe -> Prop) k ks :
  P k -> Forall P ks -> Forall P (insert_keyframe k ks).
Proof.
  intros Hk. induction 1 as [|k' ks Hk' Hks IH]; cbn; [now repeat constructor|].
  destruct (frame k <? frame k')%Z; [now repeat constructor|].
  destruct (frame k =? frame k')%Z; now constructor.
Qed.

(** [setKeyframe] keeps a parameter's keyframes in order. *)
Lemma insert_keyframe_ordered k ks :
  keys_ordered ks -> keys_ordered (insert_keyframe k ks).
Proof.
  unfold keys_ordered. induction 1 as [|k' ks Hs IH Hall]; cbn; [now repeat constructor|].
  destruct (Z.ltb_spec (frame k) (frame k')).
  - constructor; [now constructor|]. constructor; [assumption|].
    eapply Forall_impl; [exact Hall|]. cbn. intros; lia.
  - destruct (Z.eqb_spec (frame k) (frame k')) as [Heq|Hneq].
    + constructor; [assumption|]. now rewrite Heq.
    + constructor; [assumption|]. apply insert_keyframe_Forall; [lia | assumption].
Qed.

Lemma with_keys_same p : with_keys (keys p) p = p.
Proof. now destruct p. Qed.

Section TransferSteps.

Variable host : Host.

(** The loop [for keyframe in ...: target_parm.setKeyframe(keyframe)] on an
    unlocked target. *)
Lemma set_keyframes_unlocked (tgt : handle) ks : forall s tp,
  s !! tgt = Some tp -> locked tp = false ->
  for_each ks (fun keyframe => parm_setKeyframe tgt keyframe) s =
    (inr tt, <[tgt := with_keys (insert_all ks (keys tp)) tp]> s).
Proof.
  induction ks as [|k ks IH]; intros s tp Htgt Hun; cbn.
  - unfold ret. now rewrite with_keys_same, insert_id.
  - unfold bind, parm_setKeyframe.
    rewrite (write_accepted _ _ _ tp (with_keys (insert_keyframe k (keys tp)) tp) Htgt)
      by (unfold setKeyframe_of; now rewrite Hun).
    rewrite (IH _ (with_keys (insert_keyframe k (keys tp)) tp))
      by (try apply lookup_insert_eq; assumption).
    now rewrite insert_insert_eq.
Qed.

(** The lock test answers no when nothing it looks at is locked. *)
Lemma lock_test_clear sl (src tgt : handle) s tp sp :
  s !! tgt = Some tp -> s !! src = Some sp ->
  (sl = true -> locked tp = false /\ locked sp = false) ->
  lock_test sl src tgt s = (inr false, s).
Proof.
  intros Htgt Hsrc Hclear. unfold lock_test. destruct sl; [|reflexivity].
  destruct Hclear as [Htl Hsl]; [reflexivity|].
  unfold bind, parm_isLocked.
  now rewrite (read_live _ _ _ _ Htgt), Htl, (read_live _ _ _ _ Hsrc), Hsl.
Qed.

(** Past the lookup and the lock test, the call is the guarded body. *)
Lemma transfer_not_skipped item target_node ce ck sl s tp :
  s !! (target_node, ParameterItem.name item) = Some tp ->
  lock_test sl (ParameterItem.parm item) (target_node, ParameterItem.name item) s
    = (inr false, s) ->
  _transfer_parameter host item target_node ce ck sl s =
    try_except
      (transfer_body host item (ParameterItem.parm item)
         (target_node, ParameterItem.name item) ce ck)
      (fun _ => ret failed) s.
Proof.
  intros Htgt Hskip. unfold _transfer_parameter, bind at 1.
  rewrite (node_parm_found _ _ _ _ Htgt). unfold bind at 1. now rewrite Hskip.
Qed.

End TransferSteps.

(** *** A second call, on the target's state alone *)

(** Where the value copy is reached, [eval()] of the source is read for
    every type but String: what it gives the second call has to be what it
    gave the first. *)
Lemma copied_value_again item ck ev ev' sp :
  ((ck && ParameterItem.has_keyframes item)%bool = false ->
   type (ParameterItem.parm_template item) <> parmTemplateType.String -> ev' = ev) ->
  (ck && ParameterItem.has_keyframes item)%bool = false ->
  copied_value item sp ev' = copied_value item sp ev.
Proof.
  intros Hev Hk. unfold copied_value.
  destruct (type _) eqn:Hty; try reflexivity; apply Hev; congruence.
Qed.

(** For a source other than the target: a second call on what the first
    one left does the same and leaves the same. *)
Lemma effect_idempotent host item ce ck sl tp src ev ev' :
  ((ck && ParameterItem.has_keyframes item)%bool = false ->
   type (ParameterItem.parm_template item) <> parmTemplateType.String -> ev' = ev) ->
  effect host item ce ck sl (snd (effect host item ce ck sl tp src src ev)) src src ev'
  = effect host item ce ck sl tp src src ev.
Proof.
  intros Hev. pose proof (copied_value_again item ck ev ev') as Hcv.
  unfold effect, lock_answer, body_effect, expression_effect, value_effect,
    set_of, setExpression_of.
  destruct (ck && ParameterItem.has_keyframes item)%bool;
    [clear Hcv | specialize (fun sp => Hcv sp Hev eq_refl)];
    destruct sl, (locked tp) eqn:Htl, src as [sp|]; cbn; rewrite ?Htl; cbn;
    try reflexivity;
    try (destruct (locked sp); cbn; rewrite ?Htl; cbn; try reflexivity);
    try rewrite (Hcv sp);
    destruct (ce && ParameterItem.has_expression item)%bool; cbn; rewrite ?Htl; cbn;
    try reflexivity;
    repeat (case_match; simplify_eq/=; rewrite ?Htl; try reflexivity; try congruence).
Qed.

(** The value stored by the value copy is the value a copy from the stored
    parameter passes again. *)
Lemma copied_value_stored item ck ev ev' p v :
  ((ck && ParameterItem.has_keyframes item)%bool = false ->
   type (ParameterItem.parm_template item) <> parmTemplateType.String -> ev' = ev) ->
  (ck && ParameterItem.has_keyframes item)%bool = false ->
  copied_value item p ev = inr v ->
  copied_value item (with_raw v p) ev' = inr v.
Proof.
  intros Hev Hk. unfold copied_value, unexpandedString_of.
  destruct (type _) eqn:Hty; try (intros <-; apply Hev; congruence).
  cbn. destruct (raw p); intros [= <-]; reflexivity.
Qed.

(** For a source that is the target itself. *)
Lemma effect_idempotent_alias host item ce ck sl tp ev ev' :
  ((ck && ParameterItem.has_keyframes item)%bool = false ->
   type (ParameterItem.parm_template item) <> parmTemplateType.String -> ev' = ev) ->
  let tp1 :=
    snd (effect host item ce ck sl tp (Some tp) (Some (with_keys [] tp)) ev) in
  effect host item ce ck sl tp1 (Some tp1) (Some (with_keys [] tp1)) ev'
  = effect host item ce ck sl tp (Some tp) (Some (with_keys [] tp)) ev.
Proof.
  intros Hev. cbv zeta.
  pose proof (copied_value_again item ck ev ev') as Hcv.
  pose proof (copied_value_stored item ck ev ev') as Hst.
  unfold effect, lock_answer, body_effect, expression_effect, value_effect,
    set_of, setExpression_of.
  destruct sl, (locked tp) eqn:Htl; cbn; rewrite ?Htl; cbn; try reflexivity;
    (destruct (ck && ParameterItem.has_keyframes item)%bool; cbn; rewrite ?Htl; cbn;
     [reflexivity|]);
    specialize (fun sp => Hcv sp Hev eq_refl); specialize (fun p v => Hst p v Hev eq_refl);
    destruct (ce && ParameterItem.has_expression item)%bool; cbn;
    repeat first
      [ reflexivity
      | congruence
      | match goal with
        | H : copied_value item tp ev = inr ?v
          |- context [copied_value item (with_raw ?v tp) ev'] =>
            rewrite (Hst tp v H)
        | H : copied_value item tp ev = inr ?v,
          H' : copied_value item (with_raw ?v tp) ev' = _ |- _ =>
            rewrite (Hst tp v H) in H';
            simplify_eq
        | |- context [copied_value item tp ev'] => rewrite (Hcv tp)
        | H' : context [copied_value item tp ev'] |- _ => rewrite (Hcv tp) in H'
        end
      | progress (cbn; rewrite ?Htl)
      | case_match; simplify_eq/= ].
Qed.

#[local] Instance agree_outside_preorder tgt : PreOrder (agree_outside tgt).
Proof.
  split; [now intros s h _|].
  intros s1 s2 s3 H12 H23 h Hne. now rewrite (H23 h Hne), (H12 h Hne).
Qed.

#[local] Instance same_parameters_preorder : PreOrder same_parameters.
Proof.
  split; [now intros s|]. intros s1 s2 s3 H12 H23. unfold same_parameters in *. congruence.
Qed.

Section Preserves.

Context {A B : Type} (R : relation scene) `{!PreOrder R}.

Lemma pr_ret (a : A) : preserves R (ret a).
Proof. intros s. reflexivity. Qed.

Lemma pr_raise (e : exn) : preserves R (@raise A e).
Proof. intros s. reflexivity. Qed.

Lemma pr_lift (r : exn + A) : preserves R (lift r).
Proof. destruct r; [apply pr_raise | apply pr_ret]. Qed.

Lemma pr_read (f : Parm -> exn + A) h : preserves R (read f h).
Proof. intros s. rewrite read_keeps_scene. reflexivity. Qed.

Lemma pr_bind (m : M A) (k : A -> M B) :
  preserves R m -> (forall a, preserves R (k a)) -> preserves R (bind m k).
Proof.
  intros Hm Hk s. unfold bind. specialize (Hm s).
  destruct (m s) as [[e|a] s']; cbn in *; [exact Hm|].
  etransitivity; [exact Hm | apply Hk].
Qed.

Lemma pr_try (m : M A) (handler : exn -> M A) :
  preserves R m -> (forall e, preserves R (handler e)) ->
  preserves R (try_except m handler).
Proof.
  intros Hm Hh s. unfold try_except. specialize (Hm s).
  destruct (m s) as [[e|a] s']; cbn in *; [|exact Hm].
  etransitivity; [exact Hm | apply Hh].
Qed.

Lemma pr_for_each (xs : list A) (body : A -> M unit) :
  (forall x, preserves R (body x)) -> preserves R (for_each xs body).
Proof.
  intros Hb. induction xs as [|x xs IH]; cbn; [intros s; reflexivity|].
  intros s. unfold bind. specialize (Hb x s).
  destruct (body x s) as [[e|[]] s']; cbn in *; [exact Hb|].
  etransitivity; [exact Hb | apply IH].
Qed.

Lemma pr_node_parm node nm : preserves R (node_parm node nm).
Proof. intros s. unfold node_parm. destruct (s !! (node, nm)); reflexivity. Qed.

End Preserves.

Lemma write_only_touches tgt f : only_touches tgt (write f tgt).
Proof.
  intros s h Hne. unfold write.
  destruct (s !! tgt) as [p|]; [|reflexivity].
  destruct (f p); cbn; [reflexivity|]. now rewrite lookup_insert_ne.
Qed.

Lemma write_keeps_parameters h f : keeps_parameters (write f h).
Proof.
  intros s. unfold write, same_parameters.
  destruct (s !! h) as [p|] eqn:Hh; [|reflexivity].
  destruct (f p); cbn; [reflexivity|].
  rewrite dom_insert_L. apply elem_of_dom_2 in Hh.
  apply set_eq. intros h'. rewrite elem_of_union, elem_of_singleton.
  split; [intros [->|]; assumption | auto].
Qed.

Lemma pr_parm_eval (host : Host) (R : relation scene) `{!PreOrder R} (h : handle) :
  preserves R (parm_eval host h).
Proof. intros s. unfold parm_eval. rewrite read_keeps_scene. reflexivity. Qed.

Create HintDb frame.

#[local] Hint Resolve pr_ret pr_raise pr_lift pr_read pr_parm_eval pr_node_parm : frame.
#[local] Hint Extern 1 (preserves _ (write _ _)) =>
  first [apply write_only_touches | apply write_keeps_parameters] : frame.
#[local] Hint Extern 2 (preserves _ (bind _ _)) => apply pr_bind; [| |intros ?] : frame.
#[local] Hint Extern 2 (preserves _ (try_except _ _)) => apply pr_try; [| |intros ?] : frame.
#[local] Hint Extern 2 (preserves _ (for_each _ _)) => apply pr_for_each; [|intros ?] : frame.
#[local] Hint Extern 3 (preserves _ (if ?b then _ else _)) => destruct b : frame.
#[local] Hint Extern 3 (preserves _ (match ?x with Some _ => _ | None => _ end)) =>
  destruct x : frame.

Section TransferRuns.

Variable host : Host.

Lemma lock_test_preserves R `{!PreOrder R} sl src tgt :
  preserves R (lock_test sl src tgt).
Proof. unfold lock_test, parm_isLocked. destruct sl; auto with frame. Qed.

Lemma transfer_body_preserves R item src tgt ce ck :
  kept tgt R -> preserves R (transfer_body host item src tgt ce ck).
Proof.
  intros HR.
  assert (PreOrder R) by (destruct HR; apply _).
  assert (Hw : forall f, preserves R (write f tgt))
    by (destruct HR; intros f; [apply write_only_touches | apply write_keeps_parameters]).
  assert (Hcopy : preserves R (copy_value host item src tgt)).
  { unfold copy_value, parm_unexpandedString, parm_set.
    destruct (type _); auto with frame. }
  unfold transfer_body, copy_expression, parm_deleteAllKeyframes, parm_keyframes,
    parm_setKeyframe, parm_expression, parm_expressionLanguage, parm_setExpression.
  destruct (ck && _)%bool; [auto 10 with frame|].
  apply pr_bind; [apply _ | destruct (ce && _)%bool; auto 10 with frame|].
  intros [o|]; auto with frame.
Qed.

Lemma transfer_preserves R item target_node ce ck sl :
  kept (target_node, ParameterItem.name item) R ->
  preserves R (_transfer_parameter host item target_node ce ck sl).
Proof.
  intros HR.
  assert (PreOrder R) by (destruct HR; apply _).
  intros s. unfold _transfer_parameter, bind at 1, node_parm.
  destruct (s !! (target_node, ParameterItem.name item)); [|reflexivity].
  revert s. apply pr_bind; [apply _ | now apply lock_test_preserves|].
  intros []; [auto with frame|].
  apply pr_try; [apply _ | now apply transfer_body_preserves | auto with frame].
Qed.

(** A call changes no parameter but the one it resolved on the target
    node. *)
Lemma transfer_only_touches item target_node ce ck sl :
  only_touches (target_node, ParameterItem.name item)
    (_transfer_parameter host item target_node ce ck sl).
Proof. apply transfer_preserves. constructor. Qed.

(** A call neither adds nor removes a parameter. *)
Lemma transfer_keeps_parameters item target_node ce ck sl :
  keeps_parameters (_transfer_parameter host item target_node ce ck sl).
Proof. apply (transfer_preserves _ item target_node). constructor. Qed.

(** *** The calls of one transfer, run on a scene *)

Lemma lock_test_run sl src tgt s tp :
  s !! tgt = Some tp ->
  lock_test sl src tgt s = (lock_answer sl tp (s !! src), s).
Proof.
  intros Htgt. unfold lock_test, lock_answer, bind, parm_isLocked.
  destruct sl; [|reflexivity]. rewrite (read_live _ _ _ _ Htgt).
  destruct (locked tp); [reflexivity|]. unfold read. now destruct (s !! src).
Qed.

(** The value copy under the outer handler. The source is read before the
    target is written, so this holds for a source that is the target too. *)
Lemma copy_value_run item src tgt s tp :
  s !! tgt = Some tp ->
  try_except (copy_value host item src tgt ;; ret success) (fun _ => ret failed) s =
    (fst (value_effect host item tp (s !! src) (evaluated host src s)),
     <[tgt := snd (value_effect host item tp (s !! src) (evaluated host src s))]> s).
Proof.
  intros Htgt. pose proof (insert_id s tgt tp Htgt) as Hid.
  unfold copy_value, value_effect, copied_value, evaluated.
  destruct (s !! src) as [sp|] eqn:Hsrc;
    destruct (type _);
    unfold try_except, bind, parm_unexpandedString, parm_eval, parm_set, read, write;
    rewrite Hsrc; cbn; rewrite ?Hid; try reflexivity;
    try (destruct (unexpandedString_of sp) as [e|text]; cbn; [now rewrite Hid|]);
    try (destruct (eval_of host s sp) as [e|v]; cbn; [now rewrite Hid|]);
    rewrite Htgt;
    match goal with |- context [set_of host ?v tp] =>
      destruct (set_of host v tp) as [e'|tp']; cbn; [now rewrite Hid | reflexivity]
    end.
Qed.

Lemma copy_expression_run src tgt s tp :
  s !! tgt = Some tp ->
  copy_expression host src tgt s =
    match expression_effect host tp (s !! src) with
    | Some tp' => (inr (Some success), <[tgt := tp']> s)
    | None => (inr None, s)
    end.
Proof.
  intros Htgt.
  unfold copy_expression, expression_effect.
  unfold try_except, bind, parm_expression, parm_expressionLanguage,
    parm_setExpression, read, write, expression_of, expressionLanguage_of.
  destruct (s !! src) as [sp|] eqn:Hsrc; [|reflexivity].
  destruct (expr sp) as [[e l]|] eqn:Hexpr; [|reflexivity].
  cbn. rewrite Hsrc. cbn. rewrite Hexpr, Htgt.
  now destruct (setExpression_of host e l tp).
Qed.

Lemma body_run item src tgt ce ck s tp :
  s !! tgt = Some tp ->
  try_except (transfer_body host item src tgt ce ck) (fun _ => ret failed) s =
    (fst (body_effect host item ce ck tp (s !! src)
            (<[tgt := with_keys [] tp]> s !! src) (evaluated host src s)),
     <[tgt := snd (body_effect host item ce ck tp (s !! src)
                     (<[tgt := with_keys [] tp]> s !! src) (evaluated host src s))]> s).
Proof.
  intros Htgt. pose proof (insert_id s tgt tp Htgt) as Hid.
  unfold transfer_body, body_effect.
  destruct (ck && _)%bool.
  - unfold try_except, bind at 1, parm_deleteAllKeyframes.
    destruct (locked tp) eqn:Htl.
    + rewrite (write_refused _ _ _ tp PermissionError Htgt)
        by (unfold deleteAllKeyframes_of; now rewrite Htl).
      cbn. now rewrite Hid.
    + rewrite (write_accepted _ _ _ tp (with_keys [] tp) Htgt)
        by (unfold deleteAllKeyframes_of; now rewrite Htl).
      unfold bind at 1, parm_keyframes, read.
      destruct (<[tgt := with_keys [] tp]> s !! src) as [sp|]; [|reflexivity].
      unfold bind at 1.
      rewrite (set_keyframes_unlocked _ _ _ (with_keys [] tp))
        by (try apply lookup_insert_eq; assumption).
      cbn. now rewrite insert_insert_eq.
  - destruct (ce && _)%bool.
    + unfold try_except, bind at 1. rewrite (copy_expression_run _ _ _ tp Htgt).
      destruct (expression_effect host tp (s !! src)) as [tp'|]; [reflexivity|].
      apply (copy_value_run item src tgt s tp Htgt).
    + apply (copy_value_run item src tgt s tp Htgt).
Qed.

(** A whole call on a scene where the target parameter exists. *)
Lemma transfer_run item target_node ce ck sl s tp :
  let src := ParameterItem.parm item in
  let tgt := (target_node, ParameterItem.name item) in
  s !! tgt = Some tp ->
  _transfer_parameter host item target_node ce ck sl s =
    (fst (effect host item ce ck sl tp (s !! src) (<[tgt := with_keys [] tp]> s !! src)
            (evaluated host src s)),
     <[tgt := snd (effect host item ce ck sl tp (s !! src)
                     (<[tgt := with_keys [] tp]> s !! src) (evaluated host src s))]> s).
Proof.
  intros src tgt Htgt. pose proof (insert_id s _ tp Htgt) as Hid.
  unfold _transfer_parameter, bind at 1.
  rewrite (node_parm_found _ _ _ _ Htgt). unfold bind at 1.
  rewrite (lock_test_run _ _ _ _ tp Htgt). unfold effect. fold src.
  destruct (lock_answer sl tp _) as [e|[]]; cbn [fst snd]; rewrite ?Hid; try reflexivity.
  now apply body_run.
Qed.

(** On a scene where the target parameter is missing. *)
Lemma transfer_missing item target_node ce ck sl s :
  s !! (target_node, ParameterItem.name item) = None ->
  _transfer_parameter host item target_node ce ck sl s = (inr failed, s).
Proof.
  intros Hmiss. unfold _transfer_parameter, bind.
  now rewrite (node_parm_missing _ _ _ Hmiss).
Qed.

End TransferRuns.

Section TransferClaims.

Variable host : Host.

(** C1, as the code has it. For a descriptor with [has_keyframes] and the
    option [copy_keyframes], a target parameter that exists, and the lock
    test not applying (with [skip_locked]: the target not locked, the source
    parameter in the scene and not locked).  When the target is locked the
    host refuses [deleteAllKeyframes]: the outcome is [failed] and the scene
    is unchanged.  Otherwise the keyframes of the target are deleted first;
    when the source parameter is then not in the scene, reading its keyframes
    raises: the outcome is [failed] and the target is left without
    keyframes.  Otherwise every keyframe the source then has is set on the
    target with [setKeyframe], and the outcome is [success].  So, for a
    source parameter other than the target whose keyframes are in frame
    order, the target ends with exactly the source's keyframes, in the
    source's order, none of its own; and a source parameter that is the
    target itself ends without keyframes. *)
Theorem C1_keyframes_replace_target item target_node ce sl s tp :
  ParameterItem.has_keyframes item = true ->
  s !! (target_node, ParameterItem.name item) = Some tp ->
  (sl = true ->
   locked tp = false /\
   exists sp, s !! ParameterItem.parm item = Some sp /\ locked sp = false) ->
  _transfer_parameter host item target_node ce true sl s =
    (if locked tp then (inr failed, s)
     else
       match <[(target_node, ParameterItem.name item) := with_keys [] tp]> s
               !! ParameterItem.parm item with
       | None =>
           (inr failed, <[(target_node, ParameterItem.name item) := with_keys [] tp]> s)
       | Some sp =>
           (inr success,
            <[(target_node, ParameterItem.name item) :=
                with_keys (insert_all (keys sp) []) tp]> s)
       end)
  /\ (forall sp,
        locked tp = false ->
        s !! ParameterItem.parm item = Some sp ->
        ParameterItem.parm item <> (target_node, ParameterItem.name item) ->
        keys_ordered (keys sp) ->
        _transfer_parameter host item target_node ce true sl s =
          (inr success,
           <[(target_node, ParameterItem.name item) := with_keys (keys sp) tp]> s))
  /\ (locked tp = false ->
      ParameterItem.parm item = (target_node, ParameterItem.name item) ->
      _transfer_parameter host item target_node ce true sl s =
        (inr success, <[(target_node, ParameterItem.name item) := with_keys [] tp]> s)).
Proof.
  intros Hk Htgt Hclear.
  assert (Hrun :
    _transfer_parameter host item target_node ce true sl s =
      (if locked tp then (inr failed, s)
       else
         match <[(target_node, ParameterItem.name item) := with_keys [] tp]> s
                 !! ParameterItem.parm item with
         | None =>
             (inr failed, <[(target_node, ParameterItem.name item) := with_keys [] tp]> s)
         | Some sp =>
             (inr success,
              <[(target_node, ParameterItem.name item) :=
                  with_keys (insert_all (keys sp) []) tp]> s)
         end)).
  { rewrite (transfer_run host item target_node ce true sl s tp Htgt).
    pose proof (insert_id s _ tp Htgt) as Hid.
    unfold effect, lock_answer, body_effect. rewrite Hk. cbn [andb].
    destruct sl.
    - destruct Hclear as (Htl & sp & Hsrc & Hsl); [reflexivity|].
      rewrite Htl, Hsrc, Hsl.
      now destruct (<[_ := with_keys [] tp]> s !! ParameterItem.parm item).
    - destruct (locked tp); [cbn [fst snd]; now rewrite Hid|].
      now destruct (<[_ := with_keys [] tp]> s !! ParameterItem.parm item). }
  split; [exact Hrun|]. split.
  - intros sp Htl Hsrc Hne Hord. rewrite Hrun, Htl.
    rewrite lookup_insert_ne by auto. rewrite Hsrc.
    now rewrite (insert_all_ordered (keys sp) []) by exact Hord.
  - intros Htl Halias. rewrite Hrun, Htl, Halias, lookup_insert_eq. reflexivity.
Qed.

(** C2. With [copy_expressions] set on a descriptor with [has_expression]
    (keyframe branch not taken, lock test not applying), when the host
    refuses [setExpression] on the target the call does not give [failed] for
    that: it goes on to the value copy, from the scene as it was, and its
    result is the result of the value copy alone. *)
Theorem C2_refused_expression_falls_through item target_node ck sl s tp sp e l x :
  ParameterItem.has_expression item = true ->
  (ck && ParameterItem.has_keyframes item)%bool = false ->
  s !! (target_node, ParameterItem.name item) = Some tp ->
  s !! ParameterItem.parm item = Some sp ->
  (sl = true -> locked tp = false /\ locked sp = false) ->
  expr sp = Some (e, l) ->
  setExpression_of host e l tp = inl x ->
  _transfer_parameter host item target_node true ck sl s =
    try_except
      (copy_value host item (ParameterItem.parm item)
         (target_node, ParameterItem.name item) ;; ret success)
      (fun _ => ret failed) s.
Proof.
  intros He Hk Htgt Hsrc Hclear Hexpr Hrefused.
  rewrite (transfer_not_skipped _ _ _ _ _ _ _ tp Htgt)
    by (apply (lock_test_clear _ _ _ _ tp sp); auto).
  unfold transfer_body. rewrite Hk, He. cbn [andb].
  unfold try_except at 1, bind at 1.
  rewrite (copy_expression_run _ _ _ _ tp Htgt).
  unfold expression_effect. rewrite Hsrc, Hexpr, Hrefused. reflexivity.
Qed.

(** C3. When neither the keyframe branch nor the expression branch applies
    (and the lock test does not either), what is handed to the target's
    [set] is the source's raw string from [unexpandedString()] for a
    descriptor of type String, and the result of [eval()] for every other
    type, Ramp included; the call gives [success] with that value stored when
    the host accepts it, and [failed] with the scene unchanged when the read
    or the write raises.  A stored string reads back unexpanded as it was
    written. *)
Theorem C3_plain_copy_writes_raw_string item target_node ce ck sl s tp sp :
  (ck && ParameterItem.has_keyframes item)%bool = false ->
  (ce && ParameterItem.has_expression item)%bool = false ->
  s !! (target_node, ParameterItem.name item) = Some tp ->
  s !! ParameterItem.parm item = Some sp ->
  (sl = true -> locked tp = false /\ locked sp = false) ->
  _transfer_parameter host item target_node ce ck sl s =
    match
      match type (ParameterItem.parm_template item) with
      | parmTemplateType.String =>
          match unexpandedString_of sp with
          | inr text => inr (VStr text)
          | inl e => inl e
          end
      | _ => eval_of host s sp
      end
    with
    | inr v =>
        match set_of host v tp with
        | inr tp' => (inr success, <[(target_node, ParameterItem.name item) := tp']> s)
        | inl _ => (inr failed, s)
        end
    | inl _ => (inr failed, s)
    end
  /\ (forall text tp',
        set_of host (VStr text) tp = inr tp' -> unexpandedString_of tp' = inr text).
Proof.
  intros Hk He Htgt Hsrc Hclear. split.
  - rewrite (transfer_not_skipped _ _ _ _ _ _ _ tp Htgt)
      by (apply (lock_test_clear _ _ _ _ tp sp); auto).
    unfold transfer_body. rewrite Hk, He.
    change (try_except _ _ s) with
      (try_except
         (copy_value host item (ParameterItem.parm item)
            (target_node, ParameterItem.name item) ;; ret success)
         (fun _ => ret failed) s).
    rewrite (copy_value_run _ _ _ _ _ tp Htgt).
    unfold evaluated, parm_eval, read. rewrite Hsrc. cbn [fst].
    pose proof (insert_id s _ tp Htgt) as Hid.
    unfold value_effect, copied_value.
    destruct (type _);
      repeat (case_match; cbn [fst snd]; rewrite ?Hid; try reflexivity; try congruence).
  - intros text tp'. unfold set_of.
    repeat case_match; intros [= <-]; reflexivity.
Qed.

(** C8, as the code has it. A second call with the same descriptor, target
    node and options, made on the scene the first call left, gives the same
    outcome and leaves the scene, so the target parameter, as the first call
    left it, provided [eval()] of the source parameter gives on that scene
    what it gave on the scene of the first call.  That is asked only where
    the value copy reads it: not when the keyframe branch is taken, and not
    for a descriptor of type String. *)
Theorem C8_second_call_changes_nothing item target_node ce ck sl s r1 s1 :
  _transfer_parameter host item target_node ce ck sl s = (r1, s1) ->
  ((ck && ParameterItem.has_keyframes item)%bool = false ->
   type (ParameterItem.parm_template item) <> parmTemplateType.String ->
   fst (parm_eval host (ParameterItem.parm item) s1)
   = fst (parm_eval host (ParameterItem.parm item) s)) ->
  _transfer_parameter host item target_node ce ck sl s1 = (r1, s1).
Proof.
  intros Hrun Hev.
  destruct (s !! (target_node, ParameterItem.name item)) as [tp|] eqn:Htgt.
  - rewrite (transfer_run host item target_node ce ck sl s tp Htgt) in Hrun.
    injection Hrun as <- <-.
    rewrite (transfer_run host item target_node ce ck sl _ _ (lookup_insert_eq s _ _)).
    unfold evaluated in *.
    destruct (decide (ParameterItem.parm item = (target_node, ParameterItem.name item)))
      as [Halias|Hne].
    + rewrite Halias in *. rewrite Htgt in *. rewrite !lookup_insert_eq in *.
      rewrite (effect_idempotent_alias host item ce ck sl tp _ _ Hev).
      now rewrite insert_insert_eq.
    + rewrite !lookup_insert_ne in * by auto.
      rewrite (effect_idempotent host item ce ck sl tp _ _ _ Hev).
      now rewrite insert_insert_eq.
  - rewrite (transfer_missing host _ _ _ _ _ _ Htgt) in Hrun.
    injection Hrun as <- <-.
    now apply transfer_missing.
Qed.

(** On a host whose [eval()] of a parameter reads the state of that
    parameter alone: a second call made with the source parameter as it was
    at the first call gives the same outcome and leaves the same scene. *)
Theorem second_call_with_source_unchanged item target_node ce ck sl s r1 s1 :
  reads_own_state host ->
  _transfer_parameter host item target_node ce ck sl s = (r1, s1) ->
  s1 !! ParameterItem.parm item = s !! ParameterItem.parm item ->
  _transfer_parameter host item target_node ce ck sl s1 = (r1, s1).
Proof.
  intros Hown Hrun Hsame.
  set (tgt := (target_node, ParameterItem.name item)).
  assert (Hframe : forall h, h <> tgt -> s1 !! h = s !! h).
  { intros h Hne.
    pose proof (transfer_only_touches host item target_node ce ck sl s h Hne) as Hot.
    now rewrite Hrun in Hot. }
  assert (Hev : evaluated host (ParameterItem.parm item) s1
                = evaluated host (ParameterItem.parm item) s).
  { unfold evaluated, parm_eval, read. rewrite Hsame.
    destruct (s !! ParameterItem.parm item); [apply Hown | reflexivity]. }
  destruct (s !! tgt) as [tp|] eqn:Htgt.
  - destruct (decide (ParameterItem.parm item = tgt)) as [Halias|Hne].
    + (* the source is the target: the first call left it alone *)
      assert (s1 = s) as ->; [|exact Hrun].
      apply map_eq. intros h. destruct (decide (h = tgt)) as [->|Hh]; [|auto].
      now rewrite <- Halias.
    + rewrite (transfer_run host item target_node ce ck sl s tp Htgt) in Hrun.
      rewrite lookup_insert_ne in Hrun by auto.
      injection Hrun as <- <-.
      rewrite (transfer_run host item target_node ce ck sl _ _ (lookup_insert_eq s _ _)).
      rewrite !lookup_insert_ne by auto.
      rewrite (effect_idempotent host item ce ck sl tp _ _ _ (fun _ _ => Hev)).
      now rewrite insert_insert_eq.
  - rewrite (transfer_missing host _ _ _ _ _ _ Htgt) in Hrun.
    injection Hrun as <- <-.
    now apply transfer_missing.
Qed.

(** C10, as the code has it. A call writes through the handle it resolved
    on the target node and through no other: every parameter other than
    that one, the source parameter included whenever it is not that very
    parameter, is after the call what it was before, for every option and
    every outcome. *)
Theorem C10_only_the_target_is_written item target_node ce ck sl s h :
  h <> (target_node, ParameterItem.name item) ->
  snd (_transfer_parameter host item target_node ce ck sl s) !! h = s !! h.
Proof. intros Hne. now apply transfer_only_touches. Qed.

End TransferClaims.

(** *** The batch *)

Section BatchFacts.

Variable host : Host.

Lemma count_total result c : total (count result c) = S (total c).
Proof. destruct result; unfold total; cbn; lia. Qed.

(** With its source parameter still in the scene, a call returns one of the
    three outcomes: nothing leaves it. *)
Lemma transfer_returns item target_node ce ck sl s :
  is_Some (s !! ParameterItem.parm item) ->
  exists o, fst (_transfer_parameter host item target_node ce ck sl s) = inr o.
Proof.
  intros [sp Hsrc]. unfold _transfer_parameter, bind at 1, node_parm.
  destruct (s !! (target_node, ParameterItem.name item)) as [tp|] eqn:Htgt;
    [|now eexists].
  unfold bind at 1. rewrite (lock_test_run _ _ _ _ tp Htgt), Hsrc.
  unfold lock_answer.
  assert (Hbody : exists o,
            fst (try_except
                   (transfer_body host item (ParameterItem.parm item)
                      (target_node, ParameterItem.name item) ce ck)
                   (fun _ => ret failed) s) = inr o).
  { unfold try_except. destruct (transfer_body _ _ _ _ _ _ s) as [[e|o] s']; now eexists. }
  destruct sl; [|exact Hbody].
  destruct (locked tp); [now eexists|].
  destruct (locked sp); [now eexists | exact Hbody].
Qed.

(** The inner loop of the batch over live source parameters. *)
Lemma inner_loop_counts target_node ce ck sl items : forall c s,
  Forall (fun item => is_Some (s !! ParameterItem.parm item)) items ->
  exists c' s',
    for_fold items
      (fun parm_item c =>
         result <- _transfer_parameter host parm_item target_node ce ck sl ;;
         ret (count result c)) c s = (inr c', s')
    /\ total c' = total c + length items
    /\ dom s' = dom s.
Proof.
  induction items as [|item items IH]; intros c s Hlive; cbn.
  - exists c, s. repeat split; lia.
  - apply Forall_cons in Hlive as [Hitem Hrest].
    destruct (transfer_returns item target_node ce ck sl s Hitem) as [o Ho].
    pose proof (transfer_keeps_parameters host item target_node ce ck sl s) as Hdom.
    unfold same_parameters in Hdom. unfold bind at 1, bind at 1.
    destruct (_transfer_parameter host item target_node ce ck sl s) as [r s1].
    cbn in Ho, Hdom. subst r. cbn.
    destruct (IH (count o c) s1) as (c' & s' & Hrun & Htotal & Hdom').
    { eapply Forall_impl; [exact Hrest|]. intros it Hit. cbn in Hit.
      apply elem_of_dom. rewrite Hdom. now apply elem_of_dom. }
    exists c', s'. rewrite Hrun. repeat split; [|congruence].
    rewrite Htotal, count_total. lia.
Qed.

(** When every selected source parameter is still in the scene, the batch
    over N target nodes and M parameters runs to its end and its three
    counters add up to N * M. *)
Theorem batch_counts_every_pair targets items ce ck sl s :
  Forall (fun item => is_Some (s !! ParameterItem.parm item)) items ->
  exists c s',
    _do_transfer host targets items ce ck sl s = (inr c, s') /\
    total c = length targets * length items.
Proof.
  intros Hlive. unfold _do_transfer.
  enough (Hgen : forall c s,
            Forall (fun item => is_Some (s !! ParameterItem.parm item)) items ->
            exists c' s',
              for_fold targets
                (fun target_node c =>
                   for_fold items
                     (fun parm_item c =>
                        result <- _transfer_parameter host parm_item target_node ce ck sl ;;
                        ret (count result c)) c) c s = (inr c', s')
              /\ total c' = total c + length targets * length items).
  { destruct (Hgen (mkCounts 0 0 0) s Hlive) as (c' & s' & Hrun & Htotal).
    exists c', s'. split; [exact Hrun | exact Htotal]. }
  clear s Hlive. induction targets as [|target_node targets IH]; intros c s Hlive; cbn.
  - exists c, s. split; [reflexivity | lia].
  - destruct (inner_loop_counts target_node ce ck sl items c s Hlive)
      as (c1 & s1 & Hrun1 & Htotal1 & Hdom1).
    unfold bind at 1. rewrite Hrun1.
    destruct (IH c1 s1) as (c' & s' & Hrun & Htotal).
    { eapply Forall_impl; [exact Hlive|]. intros it Hit. cbn in Hit.
      apply elem_of_dom. rewrite Hdom1. now apply elem_of_dom. }
    exists c', s'. split; [exact Hrun | lia].
Qed.

End BatchFacts.

(** ** The panel: properties *)

(** *** Rows picked by a loop *)

Lemma fold_left_matching {A} (keep : A -> bool) (xs : list A) : forall i acc,
  fold_left (fun filtered '(i, x) => if keep x then filtered ++ [i] else filtered)
    (enumerate_from i xs) acc
  = acc ++ matching_from keep i xs.
Proof.
  induction xs as [|x xs IH]; intros i acc; cbn.
  - now rewrite app_nil_r.
  - rewrite IH. destruct (keep x); [|reflexivity].
    now rewrite <- app_assoc.
Qed.

Lemma elem_of_matching_from {A} (keep : A -> bool) (xs : list A) : forall i j,
  j ∈ matching_from keep i xs <->
  i <= j /\ exists x, xs !! (j - i) = Some x /\ keep x = true.
Proof.
  induction xs as [|x xs IH]; intros i j; cbn.
  - split; [intros H; inversion H | intros (_ & y & Hy & _); discriminate].
  - assert (Hrest : j ∈ matching_from keep (S i) xs <->
                    S i <= j /\ exists y, (x :: xs) !! (j - i) = Some y /\ keep y = true).
    { rewrite IH. split; intros (Hle & y & Hy & Hk); (split; [exact Hle|]); exists y;
        (split; [|exact Hk]).
      - replace (j - i) with (S (j - S i)) by lia. exact Hy.
      - replace (j - i) with (S (j - S i)) in Hy by lia. exact Hy. }
    destruct (keep x) eqn:Hx.
    + rewrite elem_of_cons, Hrest. split.
      * intros [-> | (Hle & y & Hy & Hk)].
        -- split; [lia|]. exists x. now rewrite Nat.sub_diag.
        -- split; [lia|]. now exists y.
      * intros (Hle & y & Hy & Hk).
        destruct (decide (j = i)) as [->|Hne]; [now left|].
        right. split; [lia|]. now exists y.
    + rewrite Hrest. split.
      * intros (Hle & y & Hy & Hk). split; [lia|]. now exists y.
      * intros (Hle & y & Hy & Hk). split; [|now exists y].
        destruct (decide (j = i)) as [->|Hne]; [|lia].
        rewrite Nat.sub_diag in Hy. cbn in Hy. congruence.
Qed.

Lemma matching_from_sorted {A} (keep : A -> bool) (xs : list A) : forall i,
  StronglySorted lt (matching_from keep i xs).
Proof.
  induction xs as [|x xs IH]; intros i; cbn; [constructor|].
  destruct (keep x); [|apply IH].
  constructor; [apply IH|].
  apply Forall_forall. intros j Hj. apply elem_of_matching_from in Hj. lia.
Qed.

Lemma matching_from_all {A} (keep : A -> bool) (xs : list A) : forall i,
  (forall x, x ∈ xs -> keep x = true) -> matching_from keep i xs = seq i (length xs).
Proof.
  induction xs as [|x xs IH]; intros i Hall; cbn; [reflexivity|].
  rewrite Hall by (apply elem_of_cons; now left).
  f_equal. apply IH. intros y Hy. apply Hall, elem_of_cons. now right.
Qed.

Lemma matching_from_length {A} (keep : A -> bool) (xs : list A) : forall i,
  length (matching_from keep i xs) = length (List.filter keep xs).
Proof.
  induction xs as [|x xs IH]; intros i; cbn; [reflexivity|].
  destruct (keep x); cbn; now rewrite IH.
Qed.

Lemma matching_from_NoDup {A} (keep : A -> bool) (xs : list A) i :
  NoDup (matching_from keep i xs).
Proof.
  pose proof (matching_from_sorted keep xs i) as Hs.
  induction Hs as [|j l Hs IH Hall]; constructor; [|exact IH].
  intros Hin. rewrite Forall_forall in Hall. specialize (Hall j Hin). lia.
Qed.

Lemma matching_from_lt {A} (keep : A -> bool) (xs : list A) j :
  j ∈ matching_from keep 0 xs -> j < length xs.
Proof.
  intros Hj. apply elem_of_matching_from in Hj as (_ & x & Hx & _).
  rewrite Nat.sub_0_r in Hx. now apply lookup_lt_Some in Hx.
Qed.

(** *** Python's indexing *)

Lemma py_index_nat {A} (xs : list A) (i : nat) :
  py_index xs (Z.of_nat i) = if decide (i < length xs) then Some i else None.
Proof.
  unfold py_index. destruct (Z.ltb_spec (Z.of_nat i) 0); [lia|].
  destruct (Z.leb_spec 0 (Z.of_nat i)); [|lia]. cbn.
  destruct (Z.ltb_spec (Z.of_nat i) (Z.of_nat (length xs))).
  - rewrite decide_True by lia. now rewrite Nat2Z.id.
  - now rewrite decide_False by lia.
Qed.

Lemma py_getitem_nat {A} (xs : list A) (i : nat) :
  py_getitem xs (Z.of_nat i) =
    match xs !! i with Some x => inr x | None => inl IndexError end.
Proof.
  unfold py_getitem. rewrite py_index_nat. destruct (decide (i < length xs)) as [Hlt|Hge].
  - reflexivity.
  - now rewrite lookup_ge_None_2 by lia.
Qed.

Lemma py_getitem_Some {A} (xs : list A) (i : Z) (x : A) :
  py_getitem xs i = inr x -> x ∈ xs.
Proof.
  unfold py_getitem. destruct (py_index xs i) as [j|]; [|discriminate].
  destruct (xs !! j) as [y|] eqn:Hy; [|discriminate].
  intros [= <-]. now apply list_elem_of_lookup_2 in Hy.
Qed.

(** An index from 0 below the length reads the element at that place. *)
Lemma py_getitem_in_range {A} (xs : list A) (i : Z) :
  (0 <= i < Z.of_nat (length xs))%Z ->
  exists x, py_getitem xs i = inr x /\ xs !! Z.to_nat i = Some x.
Proof.
  intros Hi. unfold py_getitem, py_index.
  destruct (Z.ltb_spec i 0); [lia|].
  destruct (Z.leb_spec 0 i); [|lia]. destruct (Z.ltb_spec i (Z.of_nat (length xs))); [|lia].
  cbn. destruct (lookup_lt_is_Some_2 xs (Z.to_nat i)) as [x Hx]; [lia|].
  exists x. now rewrite Hx.
Qed.

Lemma comprehension_returns {A B} (f : A -> exception + B) (xs : list A) :
  (forall x, x ∈ xs -> exists y, f x = inr y) ->
  exists ys, comprehension f xs = inr ys /\ Forall2 (fun x y => f x = inr y) xs ys.
Proof.
  induction xs as [|x xs IH]; intros Hall; cbn.
  - exists []. split; [reflexivity | constructor].
  - destruct (Hall x) as [y Hy]; [apply elem_of_cons; now left|].
    destruct IH as (ys & Hys & Hall2).
    { intros z Hz. apply Hall, elem_of_cons. now right. }
    exists (y :: ys). rewrite Hy, Hys. split; [reflexivity | now constructor].
Qed.

(** *** Sets of rows built by a loop *)

Lemma fold_left_add (rows : list nat) : forall checked : gset nat,
  fold_left (fun checked idx => {[idx]} ∪ checked) rows checked
  = list_to_set rows ∪ checked.
Proof.
  induction rows as [|i rows IH]; intros checked; cbn.
  - now rewrite union_empty_l_L.
  - rewrite IH. apply set_eq. intros j.
    rewrite !elem_of_union, elem_of_singleton. tauto.
Qed.

Lemma fold_left_add_matching {A} (keep : A -> bool) (xs : list A) :
  forall i (checked : gset nat),
  fold_left (fun checked '(i, x) => if keep x then {[i]} ∪ checked else checked)
    (enumerate_from i xs) checked
  = list_to_set (matching_from keep i xs) ∪ checked.
Proof.
  induction xs as [|x xs IH]; intros i checked; cbn.
  - now rewrite union_empty_l_L.
  - rewrite IH. destruct (keep x); [|reflexivity].
    apply set_eq. intros j. cbn.
    rewrite !elem_of_union, elem_of_singleton. tauto.
Qed.

(** *** The table model *)

Section TableModelFacts.

Variable lower : string -> string.

Implicit Types (m : ParameterTableModel.t) (index : QModelIndex).

Lemma update_rows m :
  ParameterTableModel._filtered_indices (ParameterTableModel._update_filtered_indices lower m)
  = matching_from (ParameterTableModel._matches_filter lower m) 0
      (ParameterTableModel.parameters m).
Proof.
  unfold ParameterTableModel._update_filtered_indices, enumerate. cbn.
  now rewrite (fold_left_matching (ParameterTableModel._matches_filter lower m)).
Qed.

(** After [_update_filtered_indices] the rows are the indices of the
    parameters that match the filter, each once and in increasing order. *)
Theorem rows_are_the_matching_parameters m :
  let shown :=
    ParameterTableModel._filtered_indices
      (ParameterTableModel._update_filtered_indices lower m) in
  StronglySorted lt shown /\
  forall i, i ∈ shown <->
            exists item, ParameterTableModel.parameters m !! i = Some item /\
                         ParameterTableModel._matches_filter lower m item = true.
Proof.
  cbv zeta. rewrite update_rows. split; [apply matching_from_sorted|].
  intros i. rewrite elem_of_matching_from, Nat.sub_0_r. split.
  - now intros (_ & Hx).
  - intros Hx. split; [lia | exact Hx].
Qed.

Lemma matches_filter_open m item :
  ParameterTableModel.show_only_non_default m = false ->
  ParameterTableModel.filter_text m = "" ->
  ParameterTableModel._matches_filter lower m item = true.
Proof.
  intros Hshow Htext. unfold ParameterTableModel._matches_filter.
  now rewrite Hshow, Htext.
Qed.

(** With the filter text emptied and the modified-only box cleared, whatever
    they were, every parameter has its row, in the order of the
    parameters. *)
Theorem open_filter_shows_every_parameter m :
  let m' :=
    ParameterTableModel.set_show_only_non_default lower false
      (ParameterTableModel.set_filter lower "" m) in
  ParameterTableModel._filtered_indices m'
    = seq 0 (length (ParameterTableModel.parameters m)) /\
  ParameterTableModel.rowCount m' = length (ParameterTableModel.parameters m).
Proof.
  cbv zeta. unfold ParameterTableModel.rowCount, ParameterTableModel.set_show_only_non_default.
  rewrite update_rows. cbn [ParameterTableModel.parameters ParameterTableModel.set_filter
    ParameterTableModel._update_filtered_indices].
  rewrite matching_from_all.
  - split; [reflexivity | apply length_seq].
  - intros item _. now apply matches_filter_open.
Qed.

(** **** What every reachable model satisfies *)

Lemma consistent_update m :
  (forall i, i ∈ ParameterTableModel.checked_items m ->
             i < length (ParameterTableModel.parameters m)) ->
  consistent lower (ParameterTableModel._update_filtered_indices lower m).
Proof.
  intros Hchecked. split; [|exact Hchecked]. now rewrite update_rows.
Qed.

Lemma consistent_with_checked m checked :
  consistent lower m ->
  (forall i, i ∈ checked -> i < length (ParameterTableModel.parameters m)) ->
  consistent lower (ParameterTableModel.with_checked checked m).
Proof. intros [Hrows _] Hchecked. split; [exact Hrows | exact Hchecked]. Qed.

Lemma consistent_row m i :
  consistent lower m -> i ∈ ParameterTableModel._filtered_indices m ->
  i < length (ParameterTableModel.parameters m).
Proof. intros [Hrows _] Hi. rewrite Hrows in Hi. now apply matching_from_lt in Hi. Qed.

Lemma setData_changes m index value role changed m' :
  ParameterTableModel.setData m index value role = inr (changed, m') ->
  (changed = false /\ m' = m) \/
  (changed = true /\ role = Qt.CheckStateRole /\ column index = 0%Z /\
   exists real_idx,
     py_getitem (ParameterTableModel._filtered_indices m) (row index) = inr real_idx /\
     m' = ParameterTableModel.with_checked
            (match value with
             | Qt.Checked => {[real_idx]} ∪ ParameterTableModel.checked_items m
             | _ => ParameterTableModel.checked_items m ∖ {[real_idx]}
             end) m).
Proof.
  unfold ParameterTableModel.setData. intros Hset.
  destruct role; try (left; split; congruence).
  destruct (Z.eqb_spec (column index) 0) as [Hcol|Hcol]; [|left; split; congruence].
  destruct (py_getitem _ (row index)) as [e|real_idx] eqn:Hrow; [discriminate|].
  right. destruct value; injection Hset as <- <-; repeat split; try exact Hcol; now exists real_idx.
Qed.

Lemma reachable_consistent m : reachable lower m -> consistent lower m.
Proof.
  induction 1 as [|m _ IH|m parm_items _ IH|m text _ IH|m enabled _ IH
                 |m index value role changed m' _ IH Hset|m _ IH|m _ IH|m _ IH].
  - split; [reflexivity | intros i Hi; now apply elem_of_empty in Hi].
  - apply consistent_update, IH.
  - apply consistent_update. intros i Hi. now apply elem_of_empty in Hi.
  - apply consistent_update, IH.
  - apply consistent_update, IH.
  - apply setData_changes in Hset as [[_ ->] | (_ & _ & _ & real_idx & Hrow & ->)]; [exact IH|].
    apply consistent_with_checked; [exact IH|].
    assert (Hlt : real_idx < length (ParameterTableModel.parameters m)).
    { apply (consistent_row m); [exact IH|]. now apply py_getitem_Some in Hrow. }
    intros i Hi. destruct value.
    + apply elem_of_difference in Hi as [Hi _]. now apply IH.
    + apply elem_of_difference in Hi as [Hi _]. now apply IH.
    + apply elem_of_union in Hi as [Hi|Hi]; [|now apply IH].
      apply elem_of_singleton in Hi. now subst i.
  - apply consistent_with_checked; [exact IH|].
    intros i. rewrite fold_left_add, elem_of_union, elem_of_list_to_set.
    intros [Hi|Hi]; [now apply (consistent_row m) | now apply IH].
  - apply consistent_with_checked; [exact IH|]. intros i Hi. now apply elem_of_empty in Hi.
  - apply consistent_with_checked; [exact IH|].
    intros i. unfold enumerate.
    rewrite (fold_left_add_matching (fun item => negb (ParameterItem.is_at_default item))).
    rewrite elem_of_union, elem_of_list_to_set.
    intros [Hi|Hi]; [now apply matching_from_lt in Hi | now apply elem_of_empty in Hi].
Qed.

(** The rows of a reachable model follow its filter: computing them again
    changes nothing. *)
Theorem rows_follow_the_filter m :
  reachable lower m ->
  ParameterTableModel._update_filtered_indices lower m = m.
Proof.
  intros Hm. apply reachable_consistent in Hm as [Hrows _].
  pose proof (update_rows m) as Hupd. rewrite <- Hrows in Hupd.
  unfold ParameterTableModel._update_filtered_indices in *. cbn in Hupd.
  destruct m as [ps checked show text rows]. cbn in *. now rewrite Hupd.
Qed.

Lemma checked_parameters_consistent m order :
  consistent lower m ->
  order ≡ₚ elements (ParameterTableModel.checked_items m) ->
  exists checked_parms,
    ParameterTableModel.get_checked_parameters m order = inr checked_parms /\
    length checked_parms = size (ParameterTableModel.checked_items m) /\
    Forall2 (fun i item => ParameterTableModel.parameters m !! i = Some item)
      order checked_parms.
Proof.
  intros [_ Hchecked] Horder.
  unfold ParameterTableModel.get_checked_parameters.
  destruct (comprehension_returns
              (fun i => py_getitem (ParameterTableModel.parameters m) (Z.of_nat i)) order)
    as (checked_parms & Hrun & Hall).
  { intros i Hi. rewrite Horder in Hi. apply elem_of_elements, Hchecked in Hi.
    destruct (lookup_lt_is_Some_2 _ _ Hi) as [item Hitem].
    exists item. now rewrite py_getitem_nat, Hitem. }
  exists checked_parms. split; [exact Hrun|]. split.
  - rewrite <- (Forall2_length _ _ _ Hall), Horder. reflexivity.
  - eapply Forall2_impl; [exact Hall|]. intros i item. cbn.
    rewrite py_getitem_nat. destruct (_ !! i); congruence.
Qed.

(** On a reachable model [get_checked_parameters] raises nothing: it returns
    the parameter of each checked index, one for one, in the order in which
    the set of checked indices is walked. *)
Theorem checked_parameters_are_returned m order :
  reachable lower m ->
  order ≡ₚ elements (ParameterTableModel.checked_items m) ->
  exists checked_parms,
    ParameterTableModel.get_checked_parameters m order = inr checked_parms /\
    length checked_parms = size (ParameterTableModel.checked_items m) /\
    Forall2 (fun i item => ParameterTableModel.parameters m !! i = Some item)
      order checked_parms.
Proof.
  intros Hm Horder. apply reachable_consistent in Hm.
  exact (checked_parameters_consistent m order Hm Horder).
Qed.

(** The parameter behind a row of a reachable model. *)
Lemma row_parameter m r :
  reachable lower m ->
  (0 <= r < Z.of_nat (ParameterTableModel.rowCount m))%Z ->
  exists real_idx item,
    py_getitem (ParameterTableModel._filtered_indices m) r = inr real_idx /\
    ParameterTableModel._filtered_indices m !! Z.to_nat r = Some real_idx /\
    py_getitem (ParameterTableModel.parameters m) (Z.of_nat real_idx) = inr item /\
    ParameterTableModel.parameters m !! real_idx = Some item.
Proof.
  intros Hm Hr. apply reachable_consistent in Hm.
  destruct (py_getitem_in_range _ r Hr) as (real_idx & Hget & Hlook).
  assert (Hlt : real_idx < length (ParameterTableModel.parameters m)).
  { apply (consistent_row m real_idx Hm). now apply list_elem_of_lookup_2 in Hlook. }
  destruct (lookup_lt_is_Some_2 _ _ Hlt) as [item Hitem].
  exists real_idx, item. rewrite py_getitem_nat, Hitem. now repeat split.
Qed.

(** On a reachable model [data] raises nothing for a row below [rowCount],
    whatever the column and the role. *)
Theorem data_returns_for_every_row m s r c role :
  reachable lower m ->
  (0 <= r < Z.of_nat (ParameterTableModel.rowCount m))%Z ->
  exists v, ParameterTableModel.data m s (mkIndex true r c) role = inr v.
Proof.
  intros Hm Hr. destruct (row_parameter m r Hm Hr) as (real_idx & item & Hrow & _ & Hitem & _).
  unfold ParameterTableModel.data. cbn. rewrite Hrow, Hitem.
  destruct role; try now eexists.
  - repeat (destruct (_ =? _)%Z; [now eexists|]). now eexists.
  - destruct (negb _); [now eexists|]. destruct (_ || _)%bool; now eexists.
  - destruct (_ =? _)%Z; now eexists.
Qed.


(** A check set through [setData] is read back by [data]: the row reads
    [Checked] after [Checked] was set and [Unchecked] after any other value,
    and the rows at other places read as before. *)
Theorem check_set_is_read_back m s index value m' :
  reachable lower m ->
  isValid index = true ->
  ParameterTableModel.setData m index value Qt.CheckStateRole = inr (true, m') ->
  ParameterTableModel.data m' s index Qt.CheckStateRole
    = inr (CCheck (match value with Qt.Checked => Qt.Checked | _ => Qt.Unchecked end)) /\
  forall other,
    py_index (ParameterTableModel._filtered_indices m) (row other)
      <> py_index (ParameterTableModel._filtered_indices m) (row index) ->
    ParameterTableModel.data m' s other Qt.CheckStateRole
      = ParameterTableModel.data m s other Qt.CheckStateRole.
Proof.
  intros Hm Hvalid Hset. pose proof (reachable_consistent m Hm) as Hcons.
  apply setData_changes in Hset as [[[=] _] | (_ & _ & Hcol & real_idx & Hrow & ->)].
  assert (Hlt : real_idx < length (ParameterTableModel.parameters m)).
  { apply (consistent_row m real_idx Hcons). now apply py_getitem_Some in Hrow. }
  destruct (lookup_lt_is_Some_2 _ _ Hlt) as [item Hitem].
  split.
  - unfold ParameterTableModel.data. rewrite Hvalid. cbn.
    rewrite Hrow, py_getitem_nat, Hitem, Hcol. cbn. do 2 f_equal.
    destruct value.
    + rewrite bool_decide_eq_false_2; [reflexivity|].
      rewrite elem_of_difference, elem_of_singleton. tauto.
    + rewrite bool_decide_eq_false_2; [reflexivity|].
      rewrite elem_of_difference, elem_of_singleton. tauto.
    + rewrite bool_decide_eq_true_2; [reflexivity|].
      rewrite elem_of_union, elem_of_singleton. tauto.
  - intros other Hother. unfold ParameterTableModel.data. cbn.
    destruct (isValid other); [|reflexivity]. cbn.
    unfold py_getitem at 1 3. unfold py_getitem in Hrow.
    destruct (py_index _ (row other)) as [j2|] eqn:Hj2; [|reflexivity].
    destruct (py_index _ (row index)) as [j1|] eqn:Hj1; [|discriminate].
    destruct (_ !! j2) as [idx2|] eqn:Hidx2; [|reflexivity].
    destruct (_ !! j1) as [idx1|] eqn:Hidx1; [|discriminate].
    injection Hrow as ->.
    assert (Hne : idx2 <> real_idx).
    { intros ->. apply Hother. f_equal.
      eapply NoDup_lookup; [|exact Hidx2|exact Hidx1].
      destruct Hcons as [-> _]. apply matching_from_NoDup. }
    destruct (py_getitem _ (Z.of_nat idx2)) as [e|item2]; [reflexivity|].
    destruct (column other =? 0)%Z; [|reflexivity]. do 2 f_equal.
    match goal with
    | |- (if bool_decide ?P then _ else _) = (if bool_decide ?Q then _ else _) =>
        rewrite (bool_decide_ext P Q); [reflexivity|]
    end.
    destruct value.
    + rewrite elem_of_difference, elem_of_singleton. tauto.
    + rewrite elem_of_difference, elem_of_singleton. tauto.
    + rewrite elem_of_union, elem_of_singleton. tauto.
Qed.

(** After [check_all_visible] every row reads [Checked], and no index that
    was checked, shown or hidden, is lost. *)
Theorem select_all_checks_every_row m s r :
  reachable lower m ->
  (0 <= r < Z.of_nat (ParameterTableModel.rowCount m))%Z ->
  ParameterTableModel.data (ParameterTableModel.check_all_visible m) s (mkIndex true r 0)
    Qt.CheckStateRole = inr (CCheck Qt.Checked) /\
  ParameterTableModel.checked_items m
    ⊆ ParameterTableModel.checked_items (ParameterTableModel.check_all_visible m).
Proof.
  intros Hm Hr.
  destruct (row_parameter m r Hm Hr) as (real_idx & item & Hrow & Hlook & Hitem & _).
  split.
  - unfold ParameterTableModel.data. cbn. rewrite Hrow, Hitem. do 2 f_equal.
    rewrite bool_decide_eq_true_2; [reflexivity|].
    rewrite fold_left_add. apply elem_of_union. left. apply elem_of_list_to_set.
    now apply list_elem_of_lookup_2 in Hlook.
  - cbn. rewrite fold_left_add. apply union_subseteq_r.
Qed.

(** [check_non_default] checks the parameters that are not at their default,
    all of them and no other, whether the filter shows them or not; they are
    as many as the loading of the node counted as modified. *)
Theorem select_modified_checks_the_modified m :
  let m' := ParameterTableModel.check_non_default m in
  (forall i, i ∈ ParameterTableModel.checked_items m' <->
             exists item, ParameterTableModel.parameters m !! i = Some item /\
                          ParameterItem.is_at_default item = false) /\
  size (ParameterTableModel.checked_items m')
    = length (List.filter (fun item => negb (ParameterItem.is_at_default item))
                (ParameterTableModel.parameters m)).
Proof.
  cbv zeta.
  assert (Hset : ParameterTableModel.checked_items (ParameterTableModel.check_non_default m)
                 = list_to_set
                     (matching_from (fun item => negb (ParameterItem.is_at_default item)) 0
                        (ParameterTableModel.parameters m))).
  { unfold ParameterTableModel.check_non_default, enumerate. cbn.
    rewrite (fold_left_add_matching (fun item => negb (ParameterItem.is_at_default item))).
    apply union_empty_r_L. }
  rewrite Hset. split.
  - intros i. rewrite elem_of_list_to_set, elem_of_matching_from, Nat.sub_0_r. split.
    + intros (_ & item & Hitem & Hmod). exists item. split; [exact Hitem|].
      now apply negb_true_iff.
    + intros (item & Hitem & Hmod). split; [lia|]. exists item. split; [exact Hitem|].
      now apply negb_true_iff.
  - rewrite size_list_to_set by apply matching_from_NoDup. apply matching_from_length.
Qed.

(** A row that was checked stays checked when the filter text changes: its
    parameter is among those [get_checked_parameters] returns, for every
    text, also one that hides the row. *)
Theorem checked_row_outlives_the_filter m index m1 real_idx item text order :
  reachable lower m ->
  ParameterTableModel.setData m index Qt.Checked Qt.CheckStateRole = inr (true, m1) ->
  py_getitem (ParameterTableModel._filtered_indices m) (row index) = inr real_idx ->
  ParameterTableModel.parameters m !! real_idx = Some item ->
  order ≡ₚ elements
            (ParameterTableModel.checked_items (ParameterTableModel.set_filter lower text m1)) ->
  exists checked_parms,
    ParameterTableModel.get_checked_parameters
      (ParameterTableModel.set_filter lower text m1) order = inr checked_parms /\
    item ∈ checked_parms.
Proof.
  intros Hm Hset Hrow Hitem Horder.
  assert (Hm1 : reachable lower m1) by (eapply reach_setData; eassumption).
  destruct (checked_parameters_consistent _ order
              (reachable_consistent _ (reach_set_filter lower m1 text Hm1)) Horder)
    as (checked_parms & Hrun & _ & Hall).
  exists checked_parms. split; [exact Hrun|].
  apply setData_changes in Hset as [[[=] _] | (_ & _ & _ & real_idx' & Hrow' & ->)].
  rewrite Hrow in Hrow'. injection Hrow' as <-.
  assert (Hin : real_idx ∈ order).
  { rewrite Horder. apply elem_of_elements. cbn.
    rewrite elem_of_union, elem_of_singleton. now left. }
  apply list_elem_of_lookup_1 in Hin as [k Hk].
  destruct (Forall2_lookup_l _ _ _ _ _ Hall Hk) as (item' & Hitem' & Hpar).
  cbn in Hpar. rewrite Hitem in Hpar. injection Hpar as <-.
  now apply list_elem_of_lookup_2 in Hitem'.
Qed.

(** A row is drawn in the default colour exactly when its Status column
    reads [Default]. *)
Theorem default_colour_iff_default_status m s r c :
  ParameterTableModel.data m s (mkIndex true r c) Qt.ForegroundRole = inr CNone <->
  ParameterTableModel.data m s (mkIndex true r 4) Qt.DisplayRole = inr (CText "Default").
Proof.
  unfold ParameterTableModel.data. cbn.
  destruct (py_getitem _ r) as [e|real_idx]; [split; discriminate|].
  destruct (py_getitem _ (Z.of_nat real_idx)) as [e|item]; [split; discriminate|].
  unfold ParameterTableModel.status_text.
  destruct (ParameterItem.is_at_default item), (ParameterItem.has_keyframes item),
    (ParameterItem.has_expression item); cbn; split; intros H; try reflexivity; discriminate.
Qed.

End TableModelFacts.

(** *** The target picker *)

Section TargetPickerFacts.

Variable ns : nodes.

Implicit Types (w : MultiNodePickerWidget.t) (node : string).

Lemma node_path_live node : live ns node = true -> node_path ns node = inr node.
Proof.
  unfold live, node_path, node_method. now destruct (ns !! node).
Qed.

Lemma node_path_gone node : live ns node = false -> node_path ns node = inl ObjectWasDeleted.
Proof.
  unfold live, node_path, node_method. now destruct (ns !! node).
Qed.

Lemma valid_nodes_loop (pending : list string) : forall valid_nodes,
  fold_left
    (fun valid_nodes node =>
       match node_path ns node with
       | inr _ => valid_nodes ++ [node]
       | inl _ => valid_nodes
       end)
    pending valid_nodes
  = valid_nodes ++ List.filter (live ns) pending.
Proof.
  induction pending as [|node pending IH]; intros valid_nodes; cbn.
  - now rewrite app_nil_r.
  - rewrite IH. destruct (live ns node) eqn:Hnode.
    + rewrite (node_path_live node Hnode). now rewrite <- app_assoc.
    + now rewrite (node_path_gone node Hnode).
Qed.

Lemma get_nodes_run w :
  MultiNodePickerWidget.get_nodes ns w
  = (List.filter (live ns) (MultiNodePickerWidget._nodes w),
     MultiNodePickerWidget.mk (List.filter (live ns) (MultiNodePickerWidget._nodes w))
       (MultiNodePickerWidget.node_list w)).
Proof.
  unfold MultiNodePickerWidget.get_nodes. now rewrite valid_nodes_loop.
Qed.

Lemma filter_filter_same {A} (keep : A -> bool) (xs : list A) :
  List.filter keep (List.filter keep xs) = List.filter keep xs.
Proof.
  induction xs as [|x xs IH]; cbn; [reflexivity|].
  destruct (keep x) eqn:Hx; cbn; [|exact IH]. now rewrite Hx, IH.
Qed.

(** [get_nodes] returns the nodes of [_nodes] that are still in the scene,
    in their order, and keeps them as [_nodes]; the rows of the list widget
    are left as they were; a second call returns the same. *)
Theorem get_nodes_returns_the_live_nodes w :
  let target_nodes := fst (MultiNodePickerWidget.get_nodes ns w) in
  let w' := snd (MultiNodePickerWidget.get_nodes ns w) in
  target_nodes = List.filter (live ns) (MultiNodePickerWidget._nodes w) /\
  MultiNodePickerWidget._nodes w' = target_nodes /\
  MultiNodePickerWidget.node_list w' = MultiNodePickerWidget.node_list w /\
  MultiNodePickerWidget.get_nodes ns w' = (target_nodes, w').
Proof.
  cbv zeta. rewrite !get_nodes_run. cbn. repeat split.
  now rewrite filter_filter_same.
Qed.

Lemma filter_all_length {A} (keep : A -> bool) (xs : list A) :
  length (List.filter keep xs) = length xs -> Forall (fun x => keep x = true) xs.
Proof.
  induction xs as [|x xs IH]; cbn; [constructor|].
  pose proof (List.filter_length_le keep xs) as Hle.
  destruct (keep x) eqn:Hx; cbn; intros Hlen; [|lia].
  constructor; [exact Hx | apply IH; lia].
Qed.

Lemma filter_all {A} (keep : A -> bool) (xs : list A) :
  Forall (fun x => keep x = true) xs -> List.filter keep xs = xs.
Proof.
  induction 1 as [|x xs Hx _ IH]; cbn; [reflexivity|]. now rewrite Hx, IH.
Qed.

(** A picker in step stays in step over [get_nodes] exactly when none of its
    nodes was deleted: after a deletion the list widget has a row more than
    there are nodes. *)
Theorem get_nodes_leaves_the_rows_behind w :
  in_step w ->
  in_step (snd (MultiNodePickerWidget.get_nodes ns w)) <->
  Forall (fun node => live ns node = true) (MultiNodePickerWidget._nodes w).
Proof.
  intros Hstep. rewrite get_nodes_run. unfold in_step in *. cbn. split.
  - intros Hkept. apply filter_all_length. rewrite Hkept, <- Hstep at 1. reflexivity.
  - intros Hlive. now rewrite filter_all.
Qed.

(** **** Adding the selected nodes *)

Lemma add_nodes_run (selected : list string) : forall w,
  Forall (fun node => live ns node = true) selected ->
  NoDup (MultiNodePickerWidget._nodes w) ->
  in_step w ->
  exists w',
    MultiNodePickerWidget.add_nodes ns selected w = (inr tt, w') /\
    NoDup (MultiNodePickerWidget._nodes w') /\
    in_step w' /\
    MultiNodePickerWidget._nodes w `prefix_of` MultiNodePickerWidget._nodes w' /\
    forall node, node ∈ MultiNodePickerWidget._nodes w' <->
                 node ∈ MultiNodePickerWidget._nodes w \/ node ∈ selected.
Proof.
  induction selected as [|node selected IH]; intros w Hlive Hnodup Hstep; cbn.
  - exists w. repeat split; try assumption; [reflexivity | now left |].
    intros [Hn|Hn]; [exact Hn | inversion Hn].
  - apply Forall_cons in Hlive as [Hnode Hlive].
    destruct (bool_decide_reflect (node ∈ MultiNodePickerWidget._nodes w)) as [Hin|Hout].
    + destruct (IH w Hlive Hnodup Hstep) as (w' & Hrun & Hnd & Hst & Hpre & Hmem).
      exists w'. repeat split; try assumption.
      * intros Hn. apply Hmem in Hn as [Hn|Hn]; [now left | right; now apply elem_of_cons; right].
      * intros [Hn|Hn]; apply Hmem; [now left|].
        apply elem_of_cons in Hn as [->|Hn]; [now left | now right].
    + rewrite (node_path_live node Hnode).
      destruct (IH (MultiNodePickerWidget.mk (MultiNodePickerWidget._nodes w ++ [node])
                      (QListWidget_.addItem node (MultiNodePickerWidget.node_list w))))
        as (w' & Hrun & Hnd & Hst & Hpre & Hmem); cbn.
      * exact Hlive.
      * apply NoDup_app. repeat split; [exact Hnodup| |apply NoDup_singleton].
        intros x Hx Hx'. apply list_elem_of_singleton in Hx'. now subst x.
      * unfold in_step in *. cbn. now rewrite map_app, Hstep.
      * exists w'. cbn in *. repeat split; try assumption.
        -- etrans; [|exact Hpre]. now apply prefix_app_r.
        -- intros Hn. apply Hmem in Hn as [Hn|Hn].
           ++ apply elem_of_app in Hn as [Hn|Hn]; [now left|].
              apply list_elem_of_singleton in Hn. subst. right. now left.
           ++ right. now right.
        -- intros [Hn|Hn]; apply Hmem.
           ++ left. apply elem_of_app. now left.
           ++ apply elem_of_cons in Hn as [->|Hn]; [|now right].
              left. apply elem_of_app. right. now apply list_elem_of_singleton.
Qed.

(** Adding the nodes selected in the network editor: the nodes already
    picked stay in front in their order, each selected node is picked once
    however often it comes, and the list widget stays in step. *)
Theorem selected_nodes_are_added_once w selected :
  selected <> [] ->
  Forall (fun node => live ns node = true) selected ->
  NoDup (MultiNodePickerWidget._nodes w) ->
  in_step w ->
  exists w',
    MultiNodePickerWidget._pick_from_selection ns w selected = (inr [], w') /\
    NoDup (MultiNodePickerWidget._nodes w') /\
    in_step w' /\
    MultiNodePickerWidget._nodes w `prefix_of` MultiNodePickerWidget._nodes w' /\
    forall node, node ∈ MultiNodePickerWidget._nodes w' <->
                 node ∈ MultiNodePickerWidget._nodes w \/ node ∈ selected.
Proof.
  intros Hsome Hlive Hnodup Hstep.
  destruct (add_nodes_run selected w Hlive Hnodup Hstep) as (w' & Hrun & Hrest).
  exists w'. split; [|exact Hrest].
  unfold MultiNodePickerWidget._pick_from_selection.
  destruct selected as [|node selected]; [congruence|]. now rewrite Hrun.
Qed.

End TargetPickerFacts.

(** **** Removing the selected rows *)

Lemma row_from_found (item : QListWidgetItem) (rows : list QListWidgetItem) : forall i,
  item ∈ rows ->
  exists k r,
    QListWidget_.row_from i item rows = (i + Z.of_nat k)%Z /\
    rows !! k = Some r /\ item_id r = item_id item.
Proof.
  induction rows as [|r rows IH]; intros i Hin; [inversion Hin|]. cbn.
  destruct (Nat.eqb_spec (item_id r) (item_id item)) as [Heq|Hne].
  - exists 0, r. repeat split; [lia | exact Heq].
  - apply elem_of_cons in Hin as [->|Hin]; [congruence|].
    destruct (IH (i + 1)%Z Hin) as (k & r' & Hrow & Hk & Hid).
    exists (S k), r'. repeat split; [lia | exact Hk | exact Hid].
Qed.

Lemma delete_is_filter (rows : list QListWidgetItem) : forall k r,
  NoDup (map item_id rows) ->
  rows !! k = Some r ->
  delete k rows = List.filter (fun r' => negb (item_id r' =? item_id r)%nat) rows.
Proof.
  induction rows as [|r0 rows IH]; intros k r Hnodup Hk; [discriminate|].
  cbn in Hnodup. apply NoDup_cons in Hnodup as [Hfresh Hnodup].
  destruct k as [|k]; cbn in Hk |- *.
  - injection Hk as ->. rewrite Nat.eqb_refl. cbn.
    symmetry. apply filter_all. apply Forall_forall. intros r' Hr'.
    apply negb_true_iff, Nat.eqb_neq. intros Heq. apply Hfresh. rewrite <- Heq.
    apply list_elem_of_In, in_map, list_elem_of_In, Hr'.
  - destruct (Nat.eqb_spec (item_id r0) (item_id r)) as [Heq|Hne]; cbn.
    + exfalso. apply Hfresh. rewrite Heq.
      apply list_elem_of_In, in_map, list_elem_of_In. now apply list_elem_of_lookup_2 in Hk.
    + f_equal. now apply IH.
Qed.

Lemma filter_twice {A} (f g : A -> bool) (xs : list A) :
  List.filter f (List.filter g xs) = List.filter (fun x => (g x && f x)%bool) xs.
Proof.
  induction xs as [|x xs IH]; cbn; [reflexivity|].
  destruct (g x); cbn; [|exact IH]. destruct (f x); now rewrite IH.
Qed.

Lemma NoDup_filter_ids (keep : QListWidgetItem -> bool) (rows : list QListWidgetItem) :
  NoDup (map item_id rows) -> NoDup (map item_id (List.filter keep rows)).
Proof.
  induction rows as [|r rows IH]; cbn; [intros; constructor|].
  intros Hnodup. apply NoDup_cons in Hnodup as [Hfresh Hnodup].
  destruct (keep r); cbn; [|now apply IH].
  apply NoDup_cons. split; [|now apply IH].
  intros Hin. apply Hfresh. apply list_elem_of_In, in_map_iff in Hin as (r' & Hid & Hr').
  apply List.filter_In in Hr' as [Hr' _].
  rewrite <- Hid. apply list_elem_of_In, in_map, Hr'.
Qed.

(** Removing the selected rows of a picker in step removes the nodes of
    those rows and no other: the rows left are the rows that were not
    selected, in their order, and the picker is in step again, so [_nodes]
    holds the nodes of the rows left. *)
Theorem selected_rows_are_removed (selectedItems : list QListWidgetItem) :
  forall w : MultiNodePickerWidget.t,
  in_step w ->
  NoDup (map item_id (items (MultiNodePickerWidget.node_list w))) ->
  NoDup (map item_id selectedItems) ->
  (forall chosen : QListWidgetItem,
     chosen ∈ selectedItems -> chosen ∈ items (MultiNodePickerWidget.node_list w)) ->
  exists w',
    MultiNodePickerWidget._remove_selected w selectedItems = (inr tt, w') /\
    in_step w' /\
    items (MultiNodePickerWidget.node_list w')
      = List.filter (fun r => negb (existsb (fun chosen => (item_id r =? item_id chosen)%nat) selectedItems))
          (items (MultiNodePickerWidget.node_list w)).
Proof.
  induction selectedItems as [|item rest IH]; intros w Hstep Hrows Hsel Hheld; cbn.
  - exists w. repeat split; [exact Hstep|]. symmetry. apply filter_all.
    now apply Forall_forall.
  - cbn in Hsel. apply NoDup_cons in Hsel as [Hfresh Hsel].
    destruct (row_from_found item (items (MultiNodePickerWidget.node_list w)) 0)
      as (k & r & Hrow & Hk & Hid); [apply Hheld, elem_of_cons; now left|].
    unfold QListWidget_.row. rewrite Hrow, Z.add_0_l.
    pose proof (lookup_lt_Some _ _ _ Hk) as Hlt.
    unfold py_delitem. rewrite py_index_nat.
    rewrite decide_True by (rewrite Hstep, length_map; exact Hlt).
    unfold QListWidget_.takeItem.
    destruct (Z.leb_spec 0 (Z.of_nat k)); [|lia].
    destruct (Z.ltb_spec (Z.of_nat k)
                (Z.of_nat (length (items (MultiNodePickerWidget.node_list w))))); [|lia].
    cbn. rewrite Nat2Z.id.
    rewrite (delete_is_filter _ k r Hrows Hk).
    destruct (IH (MultiNodePickerWidget.mk (delete k (MultiNodePickerWidget._nodes w))
                    (mkList
                       (List.filter (fun r' => negb (item_id r' =? item_id r)%nat)
                          (items (MultiNodePickerWidget.node_list w)))
                       (next_id (MultiNodePickerWidget.node_list w)))))
      as (w' & Hrun & Hstep' & Hitems); cbn.
    + unfold in_step. cbn. rewrite <- (delete_is_filter _ k r Hrows Hk).
      rewrite Hstep. clear. revert k.
      induction (items (MultiNodePickerWidget.node_list w)) as [|x xs IHx]; intros [|k]; cbn;
        try reflexivity. now rewrite IHx.
    + now apply NoDup_filter_ids.
    + exact Hsel.
    + intros item' Hitem'. apply list_elem_of_In, List.filter_In. split.
      * apply list_elem_of_In, Hheld, elem_of_cons. now right.
      * apply negb_true_iff, Nat.eqb_neq. rewrite Hid. intros Heq. apply Hfresh.
        rewrite <- Heq. apply list_elem_of_In, in_map, list_elem_of_In, Hitem'.
    + exists w'. split; [exact Hrun|]. split; [exact Hstep'|].
      cbn in Hitems. rewrite Hitems, filter_twice. apply List.filter_ext. intros r'.
      rewrite Hid. now rewrite negb_orb.
Qed.

(** *** The source picker *)

Section SourcePickerFacts.

Variable ns : nodes.
Variable strip : string -> string.
Variable hou_node : string -> exn + option string.

(** What editing the path leaves, when [hou.node] returns nodes of the
    scene only: either the field is cleared of its mark, it shows the path of
    the node now held (nothing for none) and [node_changed] was sent with that
    node; or the field is marked, its text is the text typed, the node held
    is the node held before and nothing was sent. *)
Theorem path_edit_outcomes (w : NodePickerWidget.t) :
  (forall path node, hou_node path = inr (Some node) -> live ns node = true) ->
  let sent := fst (NodePickerWidget._on_path_edited ns strip hou_node w) in
  let w' := snd (NodePickerWidget._on_path_edited ns strip hou_node w) in
  (styleSheet (NodePickerWidget.path_edit w') = "" /\
   text (NodePickerWidget.path_edit w') = default "" (NodePickerWidget._node w') /\
   sent = [node_changed (NodePickerWidget._node w')])
  \/
  (styleSheet (NodePickerWidget.path_edit w') = NodePickerWidget.not_found /\
   text (NodePickerWidget.path_edit w') = text (NodePickerWidget.path_edit w) /\
   NodePickerWidget._node w' = NodePickerWidget._node w /\
   sent = []).
Proof.
  intros Hhost. cbv zeta. unfold NodePickerWidget._on_path_edited.
  destruct (String.eqb _ ""); [left; now repeat split|].
  destruct (hou_node _) as [e|[node|]] eqn:Hnode; [right; now repeat split| |right; now repeat split].
  left. unfold NodePickerWidget.set_node.
  rewrite (node_path_live ns node (Hhost _ _ Hnode)). now repeat split.
Qed.

End SourcePickerFacts.

(** *** The panel *)

Lemma str_of_int_inj (a b : Z) : str_of_int a = str_of_int b -> a = b.
Proof.
  unfold str_of_int. intros Heq.
  assert (Hnorm : forall z, NilZero.int_of_string (NilZero.string_of_int (Z.to_int z))
                            = Some (Z.to_int z)).
  { intros z. apply NilZero.isi; intros Hz.
    - pose proof (DecimalZ.to_of (Z.to_int z)) as Hn.
      rewrite DecimalZ.of_to, Hz in Hn. discriminate.
    - pose proof (DecimalZ.to_of (Z.to_int z)) as Hn.
      rewrite DecimalZ.of_to, Hz in Hn. discriminate. }
  pose proof (Hnorm a) as Ha. rewrite Heq, Hnorm in Ha. injection Ha as Ha.
  rewrite <- (DecimalZ.of_to a), <- (DecimalZ.of_to b). now rewrite Ha.
Qed.

Lemma append_same_tail (tail : string) : forall a b : string,
  (a +:+ tail)%string = (b +:+ tail)%string -> a = b.
Proof.
  intros a b Heq.
  assert (Hlen : String.length a = String.length b).
  { apply (f_equal String.length) in Heq. rewrite !length_append in Heq. lia. }
  revert b Heq Hlen. induction a as [|c a IH]; intros [|c' b] Heq Hlen; cbn in *;
    try reflexivity; try discriminate.
  injection Heq as -> Heq. f_equal. apply IH; [exact Heq | lia].
Qed.

Section PanelFacts.

Variable host : Host.
Variable lower : string -> string.
Variable ns : nodes.

Implicit Types (panel : ParameterTransferPanel.t).

Lemma init_stale h s :
  s !! h = None -> fst (ParameterItem.__init__ host h s) = inl ObjectWasDeleted.
Proof.
  intros Hh. unfold ParameterItem.__init__, bind, parm_name, read. now rewrite Hh.
Qed.

(** The Status column of a snapshot built by [__init__] reads one of six
    texts: never Animated and Expression together. *)
Theorem snapshot_status_is_one_of_six h s item :
  fst (ParameterItem.__init__ host h s) = inr item ->
  ParameterTableModel.status_text item
    ∈ ["Default"; "🔑 Animated"; "⚡ Expression"; "✏️ Modified";
       "🔑 Animated | ✏️ Modified"; "⚡ Expression | ✏️ Modified"]%string.
Proof.
  intros Hinit. destruct (s !! h) as [p|] eqn:Hh.
  - destruct (init_live host h s p Hh) as [shown Hrun]. rewrite Hrun in Hinit.
    injection Hinit as <-. unfold ParameterTableModel.status_text. cbn.
    destruct (time_dependent_of host p), (has_expr p), (at_default_of host p); cbn;
      repeat first [apply list_elem_of_here | apply list_elem_of_further].
  - rewrite (init_stale h s Hh) in Hinit. discriminate.
Qed.

(** **** Loading the source node *)

Lemma load_parameters_loop (parms : list handle) s : forall parm_items,
  Forall (fun h => is_Some (s !! h)) parms ->
  exists loaded,
    for_fold parms
      (fun parm parm_items =>
         template <- parm_parmTemplate parm ;;
         if ParameterTransferPanel.is_structural (type template) then ret parm_items
         else
           parm_item <- ParameterItem.__init__ host parm ;;
           ret (parm_items ++ [parm_item]))
      parm_items s
    = (inr (parm_items ++ loaded), s) /\
    map ParameterItem.parm loaded = List.filter (value_bearing s) parms /\
    Forall (fun item => fst (ParameterItem.__init__ host (ParameterItem.parm item) s) = inr item)
      loaded.
Proof.
  unfold parm_parmTemplate.
  induction parms as [|h parms IH]; intros parm_items Hlive; cbn.
  - exists []. rewrite app_nil_r. repeat split. constructor.
  - apply Forall_cons in Hlive as [[p Hh] Hlive].
    unfold bind at 1, bind at 1. rewrite (read_live _ _ _ _ Hh).
    unfold value_bearing at 1. rewrite Hh.
    destruct (ParameterTransferPanel.is_structural (type (parmTemplate_of p))); cbn.
    + apply IH, Hlive.
    + destruct (init_live host h s p Hh) as [shown Hrun].
      unfold bind at 1. rewrite Hrun. cbn.
      destruct (IH (parm_items ++ [ParameterItem.mk h (snd h) (description p) (parmTemplate_of p)
                                     (at_default_of host p) (value_fallback host s p) shown
                                     (time_dependent_of host p)
                                     (negb (time_dependent_of host p) && has_expr p)]) Hlive)
        as (loaded & Hloop & Hparms & Hsnap).
      eexists (_ :: loaded). rewrite Hloop, <- app_assoc. cbn. repeat split.
      * now rewrite Hparms.
      * constructor; [|exact Hsnap]. cbn. now rewrite Hrun.
Qed.

(** Picking a source node that is in the scene with its parameters: the
    table gets a snapshot of each parameter of the node that is not a folder,
    a folder set, a label or a separator, in the order of [node.parms()];
    nothing is checked and the label says so; the scene is as it was. *)
Theorem source_node_is_loaded panel node n s :
  ns !! node = Some n ->
  Forall (fun nm => is_Some (s !! (node, nm))) (parm_names n) ->
  exists panel',
    ParameterTransferPanel._on_source_changed host lower ns panel (Some node) s
      = ((inr tt, panel'), s) /\
    ParameterTransferPanel._source_node panel' = Some node /\
    map ParameterItem.parm
      (ParameterTableModel.parameters (ParameterTransferPanel.table_model panel'))
      = List.filter (value_bearing s) (map (pair node) (parm_names n)) /\
    Forall (fun item => fst (ParameterItem.__init__ host (ParameterItem.parm item) s) = inr item)
      (ParameterTableModel.parameters (ParameterTransferPanel.table_model panel')) /\
    ParameterTableModel.checked_items (ParameterTransferPanel.table_model panel') = ∅ /\
    ParameterTransferPanel.selected_count_label panel' = "0 parameters selected"%string.
Proof.
  intros Hnode Hlive.
  unfold ParameterTransferPanel._on_source_changed, node_parms, node_name_of, node_method.
  rewrite Hnode. unfold ParameterTransferPanel.load_parameters.
  destruct (load_parameters_loop (map (pair node) (parm_names n)) s [])
    as (loaded & Hloop & Hparms & Hsnap).
  { apply Forall_forall. intros h Hh. apply list_elem_of_In, in_map_iff in Hh as (nm & <- & Hnm).
    rewrite Forall_forall in Hlive. apply Hlive, list_elem_of_In, Hnm. }
  rewrite Hloop. cbn [app]. eexists. split; [reflexivity|]. cbn. now repeat split.
Qed.

(** Clearing the source node empties the table and unchecks every row, and
    leaves the selection label as it was: a label that read the number of
    checked rows, some row being checked, reads it no more. *)
Theorem cleared_source_leaves_a_stale_count panel s :
  count_shown panel ->
  ParameterTableModel.checked_items (ParameterTransferPanel.table_model panel) <> ∅ ->
  exists panel',
    ParameterTransferPanel._on_source_changed host lower ns panel None s
      = ((inr tt, panel'), s) /\
    ParameterTableModel.parameters (ParameterTransferPanel.table_model panel') = [] /\
    ParameterTableModel.checked_items (ParameterTransferPanel.table_model panel') = ∅ /\
    ParameterTransferPanel.selected_count_label panel'
      = ParameterTransferPanel.selected_count_label panel /\
    ~ count_shown panel'.
Proof.
  intros Hshown Hsome. eexists. split; [reflexivity|]. cbn. repeat split.
  unfold count_shown in *. cbn. rewrite Hshown. intros Heq.
  apply append_same_tail, str_of_int_inj in Heq.
  rewrite size_empty in Heq. apply Nat2Z.inj, size_empty_inv in Heq.
  apply Hsome. now apply leibniz_equiv.
Qed.

(** **** The transfer button *)

Lemma batch_returns targets items ce ck sl : forall s,
  Forall (fun item => is_Some (s !! ParameterItem.parm item)) items ->
  exists c s',
    _do_transfer host targets items ce ck sl s = (inr c, s') /\
    total c = length targets * length items /\
    dom s' = dom s.
Proof.
  unfold _do_transfer.
  enough (Hgen : forall c s,
            Forall (fun item => is_Some (s !! ParameterItem.parm item)) items ->
            exists c' s',
              for_fold targets
                (fun target_node c =>
                   for_fold items
                     (fun parm_item c =>
                        result <- _transfer_parameter host parm_item target_node ce ck sl ;;
                        ret (count result c)) c) c s = (inr c', s')
              /\ total c' = total c + length targets * length items
              /\ dom s' = dom s).
  { intros s Hlive. destruct (Hgen (mkCounts 0 0 0) s Hlive) as (c' & s' & Hrun & Htotal & Hdom).
    exists c', s'. now repeat split. }
  induction targets as [|target_node targets IH]; intros c s Hlive; cbn.
  - exists c, s. repeat split. lia.
  - destruct (inner_loop_counts host target_node ce ck sl items c s Hlive)
      as (c1 & s1 & Hrun1 & Htotal1 & Hdom1).
    unfold bind at 1. rewrite Hrun1.
    destruct (IH c1 s1) as (c' & s' & Hrun & Htotal & Hdom).
    { eapply Forall_impl; [exact Hlive|]. intros it Hit. cbn in Hit.
      apply elem_of_dom. rewrite Hdom1. now apply elem_of_dom. }
    exists c', s'. repeat split; [exact Hrun | lia | congruence].
Qed.

(** Nothing is transferred without parameters checked, a target node still
    in the scene and the user's consent: when the set of checked rows is
    empty, or every picked target was deleted, or the question is answered
    by another button than Transfer, [_do_transfer] leaves the scene, the
    table and the status line as they were. *)
Theorem nothing_is_transferred_without_consent panel order answer s :
  order = [] \/
  Forall (fun node => live ns node = false)
    (MultiNodePickerWidget._nodes (ParameterTransferPanel.target_picker panel)) \/
  answer <> 0%Z ->
  let run := ParameterTransferPanel._do_transfer host ns panel order answer s in
  snd run = s /\
  ParameterTransferPanel.table_model (snd (fst run)) = ParameterTransferPanel.table_model panel /\
  ParameterTransferPanel.status_label (snd (fst run)) = ParameterTransferPanel.status_label panel /\
  forall question c msg, fst (fst run) <> ParameterTransferPanel.Completed question c msg.
Proof.
  intros Hguard. cbv zeta. unfold ParameterTransferPanel._do_transfer.
  destruct (ParameterTableModel.get_checked_parameters _ order) as [e|checked_parms] eqn:Hchecked;
    [now repeat split|].
  destruct checked_parms as [|parm_item checked_parms]; [now repeat split|].
  rewrite get_nodes_run.
  destruct (List.filter (live ns) _) as [|target targets] eqn:Htargets; [now repeat split|].
  destruct (ParameterTransferPanel.question_text _ _ _ _) as [e|question]; [now repeat split|].
  destruct (Z.eqb_spec answer 0) as [Hanswer|Hanswer]; [|now repeat split].
  exfalso. destruct Hguard as [-> | [Hgone | Hno]]; [discriminate| |contradiction].
  assert (Hin : target ∈ List.filter (live ns)
                  (MultiNodePickerWidget._nodes (ParameterTransferPanel.target_picker panel))).
  { rewrite Htargets. now left. }
  apply list_elem_of_In, List.filter_In in Hin as [Hin Hlive].
  rewrite Forall_forall in Hgone. apply list_elem_of_In, Hgone in Hin. congruence.
Qed.

Lemma target_lines (targets : list string) :
  Forall (fun node => live ns node = true) targets ->
  exists lines,
    comprehension
      (fun node =>
         match node_path ns node with
         | inr path => inr ("  - " +:+ path +:+ nl)%string
         | inl e => inl (SceneError e)
         end) targets = inr lines.
Proof.
  induction 1 as [|node targets Hnode _ [lines IH]]; cbn; [now eexists|].
  rewrite (node_path_live ns node Hnode), IH. now eexists.
Qed.

Lemma filter_live_all (targets : list string) :
  Forall (fun node => live ns node = true) (List.filter (live ns) targets).
Proof.
  apply Forall_forall. intros node Hnode.
  now apply list_elem_of_In, List.filter_In in Hnode as [_ Hnode].
Qed.

(** With rows checked, a target node in the scene, the source node and the
    source parameters still there, and Transfer pressed, [_do_transfer] runs
    the batch to its end: every pair of a target still in the scene and a
    checked parameter is counted once, the targets that were deleted are left
    out without a count, the status line tells the number of successes and of
    targets, and no parameter appears in the scene or disappears from it. *)
Theorem transfer_button_runs_the_batch panel order source s :
  reachable lower (ParameterTransferPanel.table_model panel) ->
  order ≡ₚ elements
            (ParameterTableModel.checked_items (ParameterTransferPanel.table_model panel)) ->
  order <> [] ->
  ParameterTransferPanel._source_node panel = Some source ->
  live ns source = true ->
  Exists (fun node => live ns node = true)
    (MultiNodePickerWidget._nodes (ParameterTransferPanel.target_picker panel)) ->
  Forall (fun item => is_Some (s !! ParameterItem.parm item))
    (ParameterTableModel.parameters (ParameterTransferPanel.table_model panel)) ->
  let target_nodes :=
    List.filter (live ns)
      (MultiNodePickerWidget._nodes (ParameterTransferPanel.target_picker panel)) in
  exists question c panel' s',
    ParameterTransferPanel._do_transfer host ns panel order 0 s
      = ((ParameterTransferPanel.Completed question c
            (ParameterTransferPanel.summary_text c), panel'), s') /\
    total c = length target_nodes * length order /\
    ParameterTransferPanel.status_label panel'
      = ("Transferred " +:+ str_of_int (Z.of_nat (success_count c)) +:+ " parameters to "
         +:+ str_of_int (Z.of_nat (length target_nodes)) +:+ " node(s)")%string /\
    MultiNodePickerWidget._nodes (ParameterTransferPanel.target_picker panel') = target_nodes /\
    dom s' = dom s.
Proof.
  intros Hm Horder Hsome Hsource Hsrc_live Htarget Hparms. cbv zeta.
  destruct (checked_parameters_consistent lower _ order (reachable_consistent lower _ Hm) Horder)
    as (checked_parms & Hchecked & Hlen & Hall).
  unfold ParameterTransferPanel._do_transfer. rewrite Hchecked.
  assert (Hlen' : length checked_parms = length order)
    by (symmetry; exact (Forall2_length _ _ _ Hall)).
  destruct checked_parms as [|parm_item checked_parms];
    [destruct order; [congruence | discriminate]|].
  rewrite get_nodes_run.
  destruct (List.filter (live ns) _) as [|target targets] eqn:Htargets.
  { exfalso. apply Exists_exists in Htarget as (node & Hin & Hlive).
    assert (Hin' : node ∈ List.filter (live ns)
                     (MultiNodePickerWidget._nodes (ParameterTransferPanel.target_picker panel))).
    { apply list_elem_of_In, List.filter_In. split; [now apply list_elem_of_In | exact Hlive]. }
    rewrite Htargets in Hin'. inversion Hin'. }
  pose proof (filter_live_all
                (MultiNodePickerWidget._nodes (ParameterTransferPanel.target_picker panel)))
    as Hlive_targets.
  rewrite Htargets in Hlive_targets.
  unfold ParameterTransferPanel.question_text.
  cbn [ParameterTransferPanel._source_node]. rewrite Hsource.
  rewrite (node_path_live ns source Hsrc_live).
  destruct (target_lines (take 5 (target :: targets))) as [lines Hlines].
  { apply Forall_take. exact Hlive_targets. }
  rewrite Hlines.
  destruct (batch_returns (target :: targets) (parm_item :: checked_parms)
              (ParameterTransferPanel.copy_expressions_check panel)
              (ParameterTransferPanel.copy_keyframes_check panel)
              (ParameterTransferPanel.skip_locked_check panel) s)
    as (c & s' & Hrun & Htotal & Hdom).
  { apply Forall_forall. intros item Hitem.
    apply list_elem_of_lookup_1 in Hitem as [k Hk].
    destruct (Forall2_lookup_r _ _ _ _ _ Hall Hk) as (i & _ & Hi).
    rewrite Forall_forall in Hparms. apply Hparms. now apply list_elem_of_lookup_2 in Hi. }
  destruct (5 <? length (target :: targets))%nat; cbn [negb Z.eqb];
    cbn [ParameterTransferPanel.copy_expressions_check
           ParameterTransferPanel.copy_keyframes_check
           ParameterTransferPanel.skip_locked_check];
    rewrite Hrun; do 4 eexists; (split; [reflexivity|]);
    (split; [rewrite Htotal, Hlen'; reflexivity|]); now repeat split.
Qed.

End PanelFacts.

(** *** Handlers that only read the scene *)

Section ReadOnly.

Variable host : Host.

Lemma pr_try_OperationFailed {A : Type} (R : relation scene) `{!PreOrder R} (m handler : M A) :
  preserves R m -> preserves R handler ->
  preserves R (try_except_OperationFailed m handler).
Proof.
  intros Hm Hh s. unfold try_except_OperationFailed. specialize (Hm s).
  destruct (m s) as [[e|a] s']; cbn in *; [|exact Hm].
  destruct (is_OperationFailed e); [|exact Hm].
  etransitivity; [exact Hm | apply Hh].
Qed.

Lemma pr_for_fold {A S : Type} (R : relation scene) `{!PreOrder R} (xs : list A)
    (body : A -> S -> M S) :
  (forall x acc, preserves R (body x acc)) -> forall acc, preserves R (for_fold xs body acc).
Proof.
  intros Hb. induction xs as [|x xs IH]; intros acc; cbn; [intros s; reflexivity|].
  apply pr_bind; [assumption | apply Hb | intros acc'; apply IH].
Qed.

Lemma display_plain_reads_only h : preserves eq (ParameterItem.display_plain host h).
Proof.
  pose proof (_ : PreOrder (@eq scene)).
  unfold ParameterItem.display_plain.
  apply pr_bind; [apply _ | auto with frame|]. intros []; cbn; auto with frame.
Qed.

Lemma init_reads_only h : preserves eq (ParameterItem.__init__ host h).
Proof.
  pose proof (_ : PreOrder (@eq scene)).
  assert (Hplain := display_plain_reads_only h).
  assert (Hvalue : preserves eq (ParameterItem._get_value host h)).
  { unfold ParameterItem._get_value, parm_unexpandedString. auto 10 with frame. }
  assert (Hmenu : forall tmpl, preserves eq (ParameterItem.display_menu host h tmpl)).
  { intros tmpl. unfold ParameterItem.display_menu.
    apply pr_try; [apply _| |auto with frame].
    apply pr_bind; [apply _ | auto with frame|]. intros v.
    apply pr_bind; [apply _ | auto with frame|]. intros idx.
    destruct (_ && _)%bool; [|auto with frame].
    destruct (_ !! _); auto with frame. }
  assert (Hdisplay : forall tmpl v,
             preserves eq (ParameterItem._get_display_value host h tmpl v)).
  { intros tmpl v. unfold ParameterItem._get_display_value.
    apply pr_try; [apply _| |auto with frame].
    destruct (type tmpl); try exact Hplain.
    - apply pr_bind; [apply _ | auto with frame|]. intros val.
      apply pr_bind; [apply _ | auto with frame|]. intros n.
      destruct val; auto with frame.
    - auto with frame.
    - apply pr_bind; [apply _ | apply Hmenu|]. intros [shown|]; auto with frame.
    - auto with frame. }
  unfold ParameterItem.__init__, parm_name, parm_description, parm_parmTemplate,
    parm_isAtDefault, parm_isTimeDependent, parm_expression.
  repeat (apply pr_bind; [apply _ | auto with frame | intros ?]).
  - destruct (negb _); [|auto with frame].
    apply pr_try_OperationFailed; [apply _ | auto with frame | auto with frame].
  - auto with frame.
Qed.

Variable lower : string -> string.
Variable ns : nodes.

(** Choosing or clearing the source node reads the scene and writes nothing
    to it, whether the loading comes to its end or a scene call raises on the
    way. *)
Theorem loading_the_source_reads_only (panel : ParameterTransferPanel.t)
    (node : option string) s :
  snd (ParameterTransferPanel._on_source_changed host lower ns panel node s) = s.
Proof.
  unfold ParameterTransferPanel._on_source_changed.
  destruct node as [node|]; [|reflexivity].
  destruct (node_parms ns node) as [e|parms]; [reflexivity|].
  pose proof (_ : PreOrder (@eq scene)).
  assert (Hload : preserves eq (ParameterTransferPanel.load_parameters host parms)).
  { unfold ParameterTransferPanel.load_parameters. apply pr_for_fold; [apply _|].
    intros parm parm_items. unfold parm_parmTemplate.
    apply pr_bind; [apply _ | auto with frame|]. intros template.
    destruct (ParameterTransferPanel.is_structural _); [auto with frame|].
    apply pr_bind; [apply _ | apply init_reads_only | auto with frame]. }
  specialize (Hload s).
  destruct (ParameterTransferPanel.load_parameters host parms s) as [[e|parm_items] s'];
    cbn in Hload; subst s'; [reflexivity|].
  now destruct (node_name_of ns node).
Qed.

(** The selection label keeps reading the number of checked rows over every
    handler but the clearing of the source node, also when the handler
    ends on an exception. *)
Theorem count_label_follows_the_checks panel s panel' s' :
  handled host lower ns panel s panel' s' ->
  count_shown panel -> count_shown panel'.
Proof.
  intros Hstep Hshown.
  destruct Hstep as [panel s node r panel' s' Hrun|panel s text|panel s checked|panel s|panel s
                    |panel s|panel s index value panel' Hrun
                    |panel s order answer e panel' s' Hrun]; try reflexivity.
  - unfold ParameterTransferPanel._on_source_changed in Hrun.
    destruct (node_parms ns node) as [e|parms]; [injection Hrun as <- <- <-; exact Hshown|].
    destruct (ParameterTransferPanel.load_parameters host parms s) as [[e|parm_items] s1];
      [injection Hrun as <- <- <-; exact Hshown|].
    destruct (node_name_of ns node); injection Hrun as <- <- <-; reflexivity.
  - unfold ParameterTransferPanel.row_toggled in Hrun.
    destruct (ParameterTableModel.setData _ index value _) as [e|[changed table]] eqn:Hset;
      [discriminate|].
    destruct changed; injection Hrun as <-; [reflexivity|].
    apply (setData_changes) in Hset as [[_ ->] | ([=] & _)].
    destruct panel. exact Hshown.
  - unfold ParameterTransferPanel._do_transfer in Hrun.
    destruct (ParameterTableModel.get_checked_parameters _ order) as [e0|checked_parms];
      [injection Hrun as <- <- <-; exact Hshown|].
    destruct checked_parms as [|parm_item checked_parms];
      [injection Hrun as <- <- <-; exact Hshown|].
    destruct (MultiNodePickerWidget.get_nodes ns _) as [target_nodes picker].
    destruct target_nodes as [|target targets]; [injection Hrun as <- <- <-; exact Hshown|].
    destruct (ParameterTransferPanel.question_text _ _ _ _) as [e0|question];
      [injection Hrun as <- <- <-; exact Hshown|].
    destruct (negb _); [injection Hrun as <- <- <-; exact Hshown|].
    destruct (_do_transfer host _ _ _ _ _ s) as [[e0|c] s1];
      injection Hrun as <- <- <-; exact Hshown.
Qed.

End ReadOnly.

(** ** The tool on the scene [Sim.demo] *)

(** The descriptors of [Sim] are the snapshots [__init__] builds. *)
Example snapshots_of_demo :
  fst (Sim.snapshot "tx") = inr Sim.tx_item /\
  fst (Sim.snapshot "color") = inr Sim.color_item /\
  fst (Sim.snapshot "scale") = inr Sim.scale_item /\
  fst (Sim.snapshot "ry") = inr Sim.ry_item /\
  fst (Sim.snapshot "file") = inr Sim.file_item /\
  fst (Sim.snapshot "pin") = inr Sim.pin_item.
Proof. repeat split; vm_compute; reflexivity. Qed.

(** Section 8 of the specification, first scenario: [tx] at 4.5 on the
    source, at its default on the target, all options set, nothing locked. *)
Example scenario_plain_value :
  let run := _transfer_parameter Sim.host Sim.tx_item "/obj/tgt" true true true Sim.demo in
  fst run = inr success /\
  snd run !! ("/obj/tgt", "tx") = Some (with_raw (VFloat (9 # 2)) Sim.tgt_tx).
Proof. split; vm_compute; reflexivity. Qed.

(** Section 8, third scenario: three source keyframes at frames 1, 12 and
    24 replace the one keyframe of the target. *)
Lemma C1_keyframes_replace_target_witness :
  _transfer_parameter Sim.host Sim.scale_item "/obj/tgt" true true true Sim.demo =
    (inr success,
     <[("/obj/tgt", "scale") := with_keys [Sim.k1; Sim.k12; Sim.k24] Sim.tgt_scale]>
       Sim.demo).
Proof.
  destruct (C1_keyframes_replace_target Sim.host Sim.scale_item "/obj/tgt" true true
              Sim.demo Sim.tgt_scale) as (_ & Hcopy & _).
  - reflexivity.
  - vm_compute; reflexivity.
  - intros _. split; [reflexivity|]. exists Sim.src_scale.
    split; [vm_compute; reflexivity | reflexivity].
  - apply (Hcopy Sim.src_scale).
    + reflexivity.
    + vm_compute; reflexivity.
    + discriminate.
    + repeat constructor.
Defined.

(** C1 as stated fails, in three ways.  With [skip_locked] off and the
    target parameter locked, the lock test does not apply, the descriptor has
    keyframes and the target exists, yet the host refuses
    [deleteAllKeyframes]: the outcome is [failed] and the target keeps its
    own keyframe.  With the source node among the targets the outcome is
    [success] while the parameter is left without any of its three
    keyframes.  With a source parameter that is gone since the snapshot the
    target's keyframe is deleted, reading the source's raises, and the
    outcome is [failed]. *)
Lemma C1_counterexample :
  let held := _transfer_parameter Sim.host Sim.scale_item "/obj/held" true true false Sim.demo in
  let self := _transfer_parameter Sim.host Sim.scale_item "/obj/src" true true true Sim.demo in
  let gone := _transfer_parameter Sim.host Sim.extra_item "/obj/tgt" true true false Sim.demo in
  (ParameterItem.has_keyframes Sim.scale_item = true /\
   Sim.demo !! ("/obj/held", "scale") = Some Sim.held_scale /\
   fst held = inr failed /\
   snd held !! ("/obj/held", "scale") = Some Sim.held_scale) /\
  (Sim.demo !! ("/obj/src", "scale") = Some Sim.src_scale /\
   keys Sim.src_scale = [Sim.k1; Sim.k12; Sim.k24] /\
   fst self = inr success /\
   snd self !! ("/obj/src", "scale") = Some (with_keys [] Sim.src_scale)) /\
  (ParameterItem.has_keyframes Sim.extra_item = true /\
   Sim.demo !! ("/obj/tgt", "extra") = Some Sim.tgt_extra /\
   keys Sim.tgt_extra = [Sim.k1_old] /\
   fst gone = inr failed /\
   snd gone !! ("/obj/tgt", "extra") = Some (with_keys [] Sim.tgt_extra)).
Proof. repeat split; vm_compute; reflexivity. Qed.

Lemma C2_refused_expression_falls_through_witness :
  let run := _transfer_parameter Sim.host Sim.ry_item "/obj/tgt" true true true Sim.demo in
  setExpression_of Sim.host "hou.pwd().evalParm('tx')" exprLanguage.Python Sim.tgt_ry
    = inl OperationFailed /\
  fst run = inr success /\
  snd run !! ("/obj/tgt", "ry") = Some (with_raw (VFloat (3 # 1)) Sim.tgt_ry).
Proof.
  cbv zeta. split; [reflexivity|].
  rewrite (C2_refused_expression_falls_through Sim.host Sim.ry_item "/obj/tgt" true true
             Sim.demo Sim.tgt_ry Sim.src_ry
             "hou.pwd().evalParm('tx')" exprLanguage.Python OperationFailed).
  - split; vm_compute; reflexivity.
  - reflexivity.
  - reflexivity.
  - vm_compute; reflexivity.
  - vm_compute; reflexivity.
  - intros _. split; reflexivity.
  - reflexivity.
  - reflexivity.
Defined.

(** Section 8, second scenario: the raw string, not its expansion. *)
Lemma C3_plain_copy_writes_raw_string_witness :
  let run := _transfer_parameter Sim.host Sim.color_item "/obj/tgt" false false true Sim.demo in
  eval_of Sim.host Sim.demo Sim.src_color = inr (VStr "/home/user/tex.png") /\
  fst run = inr success /\
  snd run !! ("/obj/tgt", "color") = Some (with_raw (VStr "$HIP/tex.png") Sim.tgt_color).
Proof.
  cbv zeta. split; [reflexivity|].
  destruct (C3_plain_copy_writes_raw_string Sim.host Sim.color_item "/obj/tgt"
              false false true Sim.demo Sim.tgt_color Sim.src_color) as [Hrun _].
  - reflexivity.
  - reflexivity.
  - vm_compute; reflexivity.
  - vm_compute; reflexivity.
  - intros _. split; reflexivity.
  - rewrite Hrun. split; vm_compute; reflexivity.
Defined.

Lemma C4_locked_is_skipped_witness :
  _transfer_parameter Sim.host Sim.scale_item "/obj/held" true true true Sim.demo
    = (inr skipped, Sim.demo) /\
  _transfer_parameter Sim.host Sim.pin_item "/obj/tgt" false false true Sim.demo
    = (inr skipped, Sim.demo).
Proof.
  split.
  - apply (C4_locked_is_skipped Sim.host Sim.scale_item "/obj/held" true true
             Sim.demo Sim.held_scale).
    + vm_compute; reflexivity.
    + left. reflexivity.
  - apply (C4_locked_is_skipped Sim.host Sim.pin_item "/obj/tgt" false false
             Sim.demo Sim.tgt_pin).
    + vm_compute; reflexivity.
    + right. exists Sim.src_pin. split; [vm_compute; reflexivity | reflexivity].
Defined.

Lemma C5_missing_target_fails_witness :
  _transfer_parameter Sim.host Sim.file_item "/obj/tgt" true true true Sim.demo
    = (inr failed, Sim.demo).
Proof.
  apply (C5_missing_target_fails Sim.host Sim.file_item "/obj/tgt" true true true Sim.demo).
  vm_compute; reflexivity.
Defined.

Lemma C6_snapshot_always_built_witness :
  exists item,
    ParameterItem.__init__ Sim.host ("/obj/src", "color") Sim.demo = (inr item, Sim.demo) /\
    ParameterItem.value item = VStr "/home/user/tex.png".
Proof.
  destruct (C6_snapshot_always_built Sim.host ("/obj/src", "color") Sim.demo Sim.src_color)
    as (item & Hinit & Hvalue).
  - vm_compute; reflexivity.
  - exists item. split; [exact Hinit | exact Hvalue].
Defined.

(** Twice onto another node: a plain value, where the value copy reads
    [eval()] of the source, and keyframes; and keyframes twice onto the
    source node itself. *)
Lemma C8_second_call_changes_nothing_witness :
  let plain := _transfer_parameter Sim.host Sim.tx_item "/obj/tgt" true true true Sim.demo in
  let first := _transfer_parameter Sim.host Sim.scale_item "/obj/tgt" true true true Sim.demo in
  let own := _transfer_parameter Sim.host Sim.scale_item "/obj/src" true true true Sim.demo in
  (fst plain = inr success /\
   _transfer_parameter Sim.host Sim.tx_item "/obj/tgt" true true true (snd plain)
     = (fst plain, snd plain)) /\
  (fst first = inr success /\
   _transfer_parameter Sim.host Sim.scale_item "/obj/tgt" true true true (snd first)
     = (fst first, snd first)) /\
  (fst own = inr success /\
   snd own !! ("/obj/src", "scale") = Some (with_keys [] Sim.src_scale) /\
   _transfer_parameter Sim.host Sim.scale_item "/obj/src" true true true (snd own)
     = (fst own, snd own)).
Proof.
  cbv zeta. split; [|split].
  - split; [vm_compute; reflexivity|].
    apply (C8_second_call_changes_nothing Sim.host Sim.tx_item "/obj/tgt" true true true
             Sim.demo).
    + apply surjective_pairing.
    + intros _ _. vm_compute; reflexivity.
  - split; [vm_compute; reflexivity|].
    apply (C8_second_call_changes_nothing Sim.host Sim.scale_item "/obj/tgt" true true true
             Sim.demo).
    + apply surjective_pairing.
    + intros Hk. discriminate Hk.
  - split; [vm_compute; reflexivity|]. split; [vm_compute; reflexivity|].
    apply (C8_second_call_changes_nothing Sim.host Sim.scale_item "/obj/src" true true true
             Sim.demo).
    + apply surjective_pairing.
    + intros Hk. discriminate Hk.
Defined.

(** C8 as stated fails.  On the scene [Sim.linked_scene] the source
    parameter [tx] has the expression [ch('/obj/tgt/tx') + 1], which reads
    the target; [Sim.follow_item] is its snapshot.  With [copy_expressions]
    off the value copy stores what [eval()] of the source gives: 1 at the
    first call, 2 at the second.  Nothing edits the source parameter, which
    is the same after each call, and both calls give [success]; the target
    parameter after the second call is not what the first call left. *)
Lemma C8_counterexample :
  let first :=
    _transfer_parameter Sim.linked Sim.follow_item "/obj/tgt" false true true
      Sim.linked_scene in
  let second :=
    _transfer_parameter Sim.linked Sim.follow_item "/obj/tgt" false true true (snd first) in
  fst (ParameterItem.__init__ Sim.linked ("/obj/src", "tx") Sim.linked_scene)
    = inr Sim.follow_item /\
  fst first = inr success /\
  snd first !! ("/obj/tgt", "tx") = Some (with_raw (VFloat (1 # 1)) Sim.tgt_tx) /\
  snd first !! ("/obj/src", "tx") = Sim.linked_scene !! ("/obj/src", "tx") /\
  fst second = inr success /\
  snd second !! ("/obj/tgt", "tx") = Some (with_raw (VFloat (2 # 1)) Sim.tgt_tx) /\
  snd second !! ("/obj/src", "tx") = Sim.linked_scene !! ("/obj/src", "tx") /\
  snd second !! ("/obj/tgt", "tx") <> snd first !! ("/obj/tgt", "tx").
Proof.
  cbv zeta.
  split; [vm_compute; reflexivity|]. split; [vm_compute; reflexivity|].
  split; [vm_compute; reflexivity|]. split; [vm_compute; reflexivity|].
  split; [vm_compute; reflexivity|]. split; [vm_compute; reflexivity|].
  split; [vm_compute; reflexivity|]. vm_compute. discriminate.
Qed.

Lemma second_call_with_source_unchanged_witness :
  let first := _transfer_parameter Sim.host Sim.tx_item "/obj/tgt" false false false Sim.demo in
  fst first = inr success /\
  _transfer_parameter Sim.host Sim.tx_item "/obj/tgt" false false false (snd first)
    = (fst first, snd first).
Proof.
  cbv zeta. split; [vm_compute; reflexivity|].
  apply (second_call_with_source_unchanged Sim.host Sim.tx_item "/obj/tgt"
           false false false Sim.demo).
  - intros s s' p. reflexivity.
  - apply surjective_pairing.
  - vm_compute; reflexivity.
Defined.

Lemma C9_flags_follow_time_dependence_witness :
  exists item,
    ParameterItem.__init__ Sim.host ("/obj/src", "rz") Sim.demo = (inr item, Sim.demo) /\
    ParameterItem.has_keyframes item = false /\
    ParameterItem.has_expression item = true.
Proof.
  destruct (C9_flags_follow_time_dependence Sim.host ("/obj/src", "rz") Sim.demo Sim.src_rz)
    as (item & Hinit & Hk & He & _).
  - vm_compute; reflexivity.
  - exists item. split; [exact Hinit|]. split; [exact Hk | exact He].
Defined.

(** C9 as stated fails: a string parameter holding a file path with the
    frame variable, [$HIP/geo.$F4.bgeo], stores no keyframe, yet the host
    reports it time-dependent and its snapshot has [has_keyframes] set. *)
Lemma C9_counterexample :
  fst (ParameterItem.__init__ Sim.host ("/obj/src", "file") Sim.demo) = inr Sim.file_item /\
  ParameterItem.has_keyframes Sim.file_item = true /\
  fst (parm_keyframes ("/obj/src", "file") Sim.demo) = inr [].
Proof. repeat split; vm_compute; reflexivity. Qed.

Lemma C10_only_the_target_is_written_witness :
  snd (_transfer_parameter Sim.host Sim.scale_item "/obj/tgt" true true true Sim.demo)
    !! ("/obj/src", "scale") = Sim.demo !! ("/obj/src", "scale").
Proof.
  apply (C10_only_the_target_is_written Sim.host Sim.scale_item "/obj/tgt" true true true
           Sim.demo ("/obj/src", "scale")).
  discriminate.
Defined.

(** C10 as stated fails: with the source node among the target nodes, the
    parameter resolved on the target is the source parameter, and the call
    deletes its keyframes. *)
Lemma C10_counterexample :
  let run := _transfer_parameter Sim.host Sim.scale_item "/obj/src" true true true Sim.demo in
  ParameterItem.parm Sim.scale_item = ("/obj/src", "scale") /\
  Sim.demo !! ("/obj/src", "scale") = Some Sim.src_scale /\
  snd run !! ("/obj/src", "scale") = Some (with_keys [] Sim.src_scale) /\
  snd run !! ("/obj/src", "scale") <> Sim.demo !! ("/obj/src", "scale").
Proof.
  cbv zeta. repeat split; try (vm_compute; reflexivity).
  vm_compute. discriminate.
Qed.

(** C7 on a failing input. The batch over the target [/obj/tgt] and the two
    descriptors [extra] (whose source parameter has been removed since the
    snapshot) and [tx], with [skip_locked] set: [source_parm.isLocked()]
    raises outside the [try], the exception leaves [_transfer_parameter] and
    the loops, no counter is returned and the pair of [tx] is never
    processed.  With [skip_locked] off the same batch reaches the [try] and
    counts both pairs. *)
Theorem C7_stale_source_aborts_batch :
  let batch sl := _do_transfer Sim.host ["/obj/tgt"] [Sim.extra_item; Sim.tx_item]
                    true true sl Sim.demo in
  Sim.demo !! ("/obj/src", "extra") = None /\
  fst (batch true) = inl ObjectWasDeleted /\
  snd (batch true) !! ("/obj/tgt", "tx") = Some Sim.tgt_tx /\
  fst (batch false) = inr (mkCounts 1 0 1) /\
  snd (batch false) !! ("/obj/tgt", "tx") = Some (with_raw (VFloat (9 # 2)) Sim.tgt_tx).
Proof. cbv zeta. repeat split; vm_compute; reflexivity. Qed.

Lemma batch_counts_every_pair_witness :
  exists c s',
    _do_transfer Sim.host ["/obj/tgt"; "/obj/held"]
      [Sim.tx_item; Sim.color_item; Sim.scale_item] true true true Sim.demo = (inr c, s') /\
    total c = 6.
Proof.
  apply (batch_counts_every_pair Sim.host ["/obj/tgt"; "/obj/held"]
           [Sim.tx_item; Sim.color_item; Sim.scale_item] true true true Sim.demo).
  repeat constructor; eexists; vm_compute; reflexivity.
Defined.


(** A text of more than fifty characters is cut to fifty; a text of thirty
    accented characters, sixty bytes in its encoding, is shown whole. *)
Lemma display_of_string_witness :
  (ParameterItem._get_display_value Sim.host ("/obj/ui", "notes") Sim.string_tmpl VNone
     Sim.widgets
   = (inr "The quick brown fox jumps over the lazy dog by ...", Sim.widgets)
   /\ py_str_len "The quick brown fox jumps over the lazy dog by ..." = 50) /\
  (String.length Sim.accents = 60 /\
   ParameterItem._get_display_value Sim.host ("/obj/ui", "accents") Sim.string_tmpl VNone
     Sim.accented
   = (inr Sim.accents, Sim.accented)).
Proof.
  split.
  - destruct (display_of_string Sim.host ("/obj/ui", "notes") Sim.string_tmpl VNone
                Sim.widgets Sim.ui_notes Sim.long_text) as [Hrun Hlen].
    + vm_compute; reflexivity.
    + reflexivity.
    + reflexivity.
    + split; [exact Hrun | apply Hlen; vm_compute; lia].
  - split; [reflexivity|].
    destruct (display_of_string Sim.host ("/obj/ui", "accents") Sim.string_tmpl VNone
                Sim.accented Sim.ui_accents Sim.accents) as [Hrun _].
    + vm_compute; reflexivity.
    + reflexivity.
    + reflexivity.
    + exact Hrun.
Defined.

Lemma display_of_toggle_witness :
  ParameterItem._get_display_value Sim.host ("/obj/ui", "enable") Sim.toggle_tmpl VNone
    Sim.widgets
  = (inr "On", Sim.widgets).
Proof.
  apply (display_of_toggle Sim.host ("/obj/ui", "enable") Sim.toggle_tmpl VNone
           Sim.widgets Sim.ui_enable (VInt 1)).
  - vm_compute; reflexivity.
  - reflexivity.
  - reflexivity.
Defined.

Lemma display_of_ramp_witness :
  ParameterItem._get_display_value Sim.host ("/obj/ui", "falloff") Sim.ramp_tmpl VNone
    Sim.widgets
  = (inr "[Ramp Data]", Sim.widgets).
Proof.
  apply (display_of_ramp Sim.host ("/obj/ui", "falloff") Sim.ramp_tmpl VNone Sim.widgets).
  reflexivity.
Defined.

Lemma display_of_menu_witness :
  ParameterItem._get_display_value Sim.host ("/obj/ui", "quality") Sim.menu_tmpl VNone
    Sim.widgets
  = (inr "Medium (1)", Sim.widgets)
  /\ ParameterItem._get_display_value Sim.host ("/obj/ui", "level") Sim.menu_tmpl VNone
       Sim.widgets
     = (inr "7", Sim.widgets).
Proof.
  split.
  - destruct (display_of_menu Sim.host ("/obj/ui", "quality") Sim.menu_tmpl VNone
                Sim.widgets Sim.ui_quality 1) as [Hin _].
    + vm_compute; reflexivity.
    + reflexivity.
    + reflexivity.
    + apply (Hin "Medium"); [lia | reflexivity].
  - destruct (display_of_menu Sim.host ("/obj/ui", "level") Sim.menu_tmpl VNone
                Sim.widgets Sim.ui_level 7) as [_ Hout].
    + vm_compute; reflexivity.
    + reflexivity.
    + reflexivity.
    + apply Hout. right. cbn. lia.
Defined.

Lemma display_falls_back_witness :
  ParameterItem._get_display_value Sim.host ("/obj/ui", "unset") Sim.float_tmpl VNone
    Sim.widgets
  = (inr "None", Sim.widgets).
Proof.
  apply (display_falls_back Sim.host ("/obj/ui", "unset") Sim.float_tmpl VNone
           Sim.widgets Sim.ui_unset OperationFailed).
  - vm_compute; reflexivity.
  - discriminate.
  - reflexivity.
Defined.

(** ** The panel on the scene [Sim.demo] *)

Lemma sim_table_reachable : reachable Sim.lower Sim.table.
Proof. apply reach_set_parameters, reach_init. Qed.

Lemma sim_table_tx_reachable : reachable Sim.lower Sim.table_tx.
Proof.
  apply (reach_setData Sim.lower Sim.table (mkIndex true 0 0) Qt.Checked Qt.CheckStateRole true).
  - exact sim_table_reachable.
  - vm_compute; reflexivity.
Qed.

Lemma sim_hou_node_live path node :
  Sim.hou_node path = inr (Some node) -> live Sim.demo_nodes node = true.
Proof.
  unfold Sim.hou_node. destruct (live Sim.demo_nodes path) eqn:Hpath; congruence.
Qed.

(** The table of the six source parameters, whole and filtered by [Rot]:
    the text is matched in the label whatever the case of its letters. *)
Example table_of_demo :
  ParameterTableModel._filtered_indices Sim.table = [0; 1; 2; 3; 4; 5] /\
  ParameterTableModel._filtered_indices Sim.table_rot = [3] /\
  ParameterTableModel.data Sim.table_rot Sim.demo (mkIndex true 0 2) Qt.DisplayRole
    = inr (CText "Rotate Y") /\
  ParameterTableModel.data Sim.table_rot Sim.demo (mkIndex true 0 4) Qt.DisplayRole
    = inr (CText "⚡ Expression | ✏️ Modified").
Proof. repeat split; vm_compute; reflexivity. Qed.

(** The transfer button on the panel of [Sim]: [tx] goes to [/obj/tgt], is
    skipped on [/obj/held] where it is locked, and the deleted target is
    passed over. *)
Example transfer_of_demo :
  let run :=
    ParameterTransferPanel._do_transfer Sim.host Sim.demo_nodes Sim.panel [0] 0 Sim.demo in
  (exists question msg,
     fst (fst run) = ParameterTransferPanel.Completed question (mkCounts 1 1 0) msg) /\
  ParameterTransferPanel.status_label (snd (fst run)) = "Transferred 1 parameters to 2 node(s)" /\
  snd run !! ("/obj/tgt", "tx") = Some (with_raw (VFloat (9 # 2)) Sim.tgt_tx) /\
  snd run !! ("/obj/held", "tx") = Some Sim.held_tx.
Proof.
  cbv zeta. split; [do 2 eexists; vm_compute; reflexivity|].
  repeat split; vm_compute; reflexivity.
Qed.

Lemma rows_follow_the_filter_witness :
  ParameterTableModel._update_filtered_indices Sim.lower Sim.table_rot = Sim.table_rot.
Proof.
  apply (rows_follow_the_filter Sim.lower Sim.table_rot).
  apply reach_set_filter, sim_table_reachable.
Defined.

Lemma checked_parameters_are_returned_witness :
  exists checked_parms,
    ParameterTableModel.get_checked_parameters
      (ParameterTableModel.check_all_visible Sim.table) [4; 2; 5; 3; 1; 0] = inr checked_parms /\
    length checked_parms
      = size (ParameterTableModel.checked_items
                (ParameterTableModel.check_all_visible Sim.table)) /\
    Forall2
      (fun i item =>
         ParameterTableModel.parameters (ParameterTableModel.check_all_visible Sim.table) !! i
         = Some item)
      [4; 2; 5; 3; 1; 0] checked_parms.
Proof.
  apply (checked_parameters_are_returned Sim.lower
           (ParameterTableModel.check_all_visible Sim.table) [4; 2; 5; 3; 1; 0]).
  - apply reach_check_all_visible, sim_table_reachable.
  - replace (elements _) with [4; 2; 5; 3; 1; 0] by (vm_compute; reflexivity). reflexivity.
Defined.

Lemma data_returns_for_every_row_witness :
  exists v,
    ParameterTableModel.data Sim.table Sim.demo (mkIndex true 5 3) Qt.DisplayRole = inr v.
Proof.
  apply (data_returns_for_every_row Sim.lower Sim.table Sim.demo 5 3 Qt.DisplayRole).
  - exact sim_table_reachable.
  - split; [lia | vm_compute; reflexivity].
Defined.

Lemma check_set_is_read_back_witness :
  ParameterTableModel.data Sim.table_tx Sim.demo (mkIndex true 0 0) Qt.CheckStateRole
    = inr (CCheck Qt.Checked) /\
  ParameterTableModel.data Sim.table_tx Sim.demo (mkIndex true 1 0) Qt.CheckStateRole
    = ParameterTableModel.data Sim.table Sim.demo (mkIndex true 1 0) Qt.CheckStateRole.
Proof.
  destruct (check_set_is_read_back Sim.lower Sim.table Sim.demo (mkIndex true 0 0) Qt.Checked
              Sim.table_tx) as [Hread Hothers].
  - exact sim_table_reachable.
  - reflexivity.
  - vm_compute; reflexivity.
  - split; [exact Hread | apply Hothers; vm_compute; discriminate].
Defined.

Lemma select_all_checks_every_row_witness :
  ParameterTableModel.data (ParameterTableModel.check_all_visible Sim.table_rot) Sim.demo
    (mkIndex true 0 0) Qt.CheckStateRole = inr (CCheck Qt.Checked) /\
  ParameterTableModel.checked_items Sim.table_rot
    ⊆ ParameterTableModel.checked_items (ParameterTableModel.check_all_visible Sim.table_rot).
Proof.
  apply (select_all_checks_every_row Sim.lower Sim.table_rot Sim.demo 0).
  - apply reach_set_filter, sim_table_reachable.
  - split; [lia | vm_compute; reflexivity].
Defined.

Lemma checked_row_outlives_the_filter_witness :
  ParameterTableModel._filtered_indices
    (ParameterTableModel.set_filter Sim.lower "Rot" Sim.table_tx) = [3] /\
  exists checked_parms,
    ParameterTableModel.get_checked_parameters
      (ParameterTableModel.set_filter Sim.lower "Rot" Sim.table_tx) [0] = inr checked_parms /\
    Sim.tx_item ∈ checked_parms.
Proof.
  split; [vm_compute; reflexivity|].
  apply (checked_row_outlives_the_filter Sim.lower Sim.table (mkIndex true 0 0) Sim.table_tx
           0 Sim.tx_item "Rot" [0]).
  - exact sim_table_reachable.
  - vm_compute; reflexivity.
  - vm_compute; reflexivity.
  - reflexivity.
  - replace (elements _) with [0] by (vm_compute; reflexivity). reflexivity.
Defined.

Lemma snapshot_status_is_one_of_six_witness :
  ParameterTableModel.status_text Sim.ry_item
    ∈ ["Default"; "🔑 Animated"; "⚡ Expression"; "✏️ Modified";
       "🔑 Animated | ✏️ Modified"; "⚡ Expression | ✏️ Modified"]%string.
Proof.
  apply (snapshot_status_is_one_of_six Sim.host ("/obj/src", "ry") Sim.demo Sim.ry_item).
  vm_compute; reflexivity.
Defined.

Lemma get_nodes_leaves_the_rows_behind_witness :
  ~ in_step (snd (MultiNodePickerWidget.get_nodes Sim.demo_nodes Sim.picker)).
Proof.
  intros Hstep.
  apply (get_nodes_leaves_the_rows_behind Sim.demo_nodes Sim.picker) in Hstep;
    [|reflexivity].
  apply Forall_cons in Hstep as [_ Hstep]. apply Forall_cons in Hstep as [Hgone _].
  vm_compute in Hgone. discriminate.
Defined.

Lemma selected_nodes_are_added_once_witness :
  let w := MultiNodePickerWidget.mk ["/obj/tgt"] (mkList [mkItem 0 "/obj/tgt"] 1) in
  let selected := ["/obj/held"; "/obj/tgt"; "/obj/held"]%string in
  exists w',
    MultiNodePickerWidget._pick_from_selection Sim.demo_nodes w selected = (inr [], w') /\
    NoDup (MultiNodePickerWidget._nodes w') /\
    in_step w' /\
    MultiNodePickerWidget._nodes w `prefix_of` MultiNodePickerWidget._nodes w' /\
    forall node, node ∈ MultiNodePickerWidget._nodes w' <->
                 node ∈ MultiNodePickerWidget._nodes w \/ node ∈ selected.
Proof.
  cbv zeta.
  apply (selected_nodes_are_added_once Sim.demo_nodes
           (MultiNodePickerWidget.mk ["/obj/tgt"] (mkList [mkItem 0 "/obj/tgt"] 1))
           ["/obj/held"; "/obj/tgt"; "/obj/held"]%string).
  - discriminate.
  - repeat constructor.
  - apply NoDup_singleton.
  - reflexivity.
Defined.

Lemma selected_rows_are_removed_witness :
  exists w',
    MultiNodePickerWidget._remove_selected Sim.picker
      [mkItem 2 "/obj/held"; mkItem 0 "/obj/tgt"] = (inr tt, w') /\
    in_step w' /\
    items (MultiNodePickerWidget.node_list w')
      = List.filter
          (fun r =>
             negb (existsb (fun chosen => (item_id r =? item_id chosen)%nat)
                     [mkItem 2 "/obj/held"; mkItem 0 "/obj/tgt"]))
          (items (MultiNodePickerWidget.node_list Sim.picker)).
Proof.
  apply (selected_rows_are_removed [mkItem 2 "/obj/held"; mkItem 0 "/obj/tgt"] Sim.picker).
  - reflexivity.
  - refine (bool_decide_unpack _ _); vm_compute; exact I.
  - refine (bool_decide_unpack _ _); vm_compute; exact I.
  - intros chosen Hchosen.
    repeat (apply elem_of_cons in Hchosen as [->|Hchosen]); [| |inversion Hchosen];
      cbn; repeat first [apply list_elem_of_here | apply list_elem_of_further].
Defined.

Lemma path_edit_outcomes_witness :
  let w := NodePickerWidget.mk (Some "/obj/src") (mkLineEdit "  /obj/tgt " "") in
  let sent := fst (NodePickerWidget._on_path_edited Sim.demo_nodes Sim.strip Sim.hou_node w) in
  let w' := snd (NodePickerWidget._on_path_edited Sim.demo_nodes Sim.strip Sim.hou_node w) in
  (styleSheet (NodePickerWidget.path_edit w') = "" /\
   text (NodePickerWidget.path_edit w') = default "" (NodePickerWidget._node w') /\
   sent = [node_changed (NodePickerWidget._node w')])
  \/
  (styleSheet (NodePickerWidget.path_edit w') = NodePickerWidget.not_found /\
   text (NodePickerWidget.path_edit w') = text (NodePickerWidget.path_edit w) /\
   NodePickerWidget._node w' = NodePickerWidget._node w /\
   sent = []).
Proof.
  apply (path_edit_outcomes Sim.demo_nodes Sim.strip Sim.hou_node
           (NodePickerWidget.mk (Some "/obj/src") (mkLineEdit "  /obj/tgt " ""))).
  exact sim_hou_node_live.
Defined.

Lemma source_node_is_loaded_witness :
  exists panel',
    ParameterTransferPanel._on_source_changed Sim.host Sim.lower Sim.rig_nodes
      ParameterTransferPanel.__init__ (Some "/obj/rig") Sim.rig = ((inr tt, panel'), Sim.rig) /\
    ParameterTransferPanel._source_node panel' = Some "/obj/rig" /\
    map ParameterItem.parm
      (ParameterTableModel.parameters (ParameterTransferPanel.table_model panel'))
      = [("/obj/rig", "tx"); ("/obj/rig", "name")] /\
    ParameterTransferPanel.selected_count_label panel' = "0 parameters selected".
Proof.
  destruct (source_node_is_loaded Sim.host Sim.lower Sim.rig_nodes
              ParameterTransferPanel.__init__ "/obj/rig"
              (mkNode "rig" ["tabs"; "tx"; "rule"; "note"; "name"]) Sim.rig)
    as (panel' & Hrun & Hsource & Hparms & _ & _ & Hlabel).
  - vm_compute; reflexivity.
  - repeat constructor; eexists; vm_compute; reflexivity.
  - exists panel'. split; [exact Hrun|]. split; [exact Hsource|].
    split; [rewrite Hparms; vm_compute; reflexivity | exact Hlabel].
Defined.

Lemma cleared_source_leaves_a_stale_count_witness :
  exists panel',
    ParameterTransferPanel._on_source_changed Sim.host Sim.lower Sim.demo_nodes Sim.panel
      None Sim.demo = ((inr tt, panel'), Sim.demo) /\
    ParameterTableModel.parameters (ParameterTransferPanel.table_model panel') = [] /\
    ParameterTableModel.checked_items (ParameterTransferPanel.table_model panel') = ∅ /\
    ParameterTransferPanel.selected_count_label panel'
      = ParameterTransferPanel.selected_count_label Sim.panel /\
    ~ count_shown panel'.
Proof.
  apply (cleared_source_leaves_a_stale_count Sim.host Sim.lower Sim.demo_nodes Sim.panel
           Sim.demo).
  - unfold count_shown. vm_compute; reflexivity.
  - apply (non_empty_inhabited_L 0). refine (bool_decide_unpack _ _); vm_compute; exact I.
Defined.

Lemma count_label_follows_the_checks_witness :
  count_shown (ParameterTransferPanel._select_all_visible Sim.panel).
Proof.
  apply (count_label_follows_the_checks Sim.host Sim.lower Sim.demo_nodes Sim.panel Sim.demo
           (ParameterTransferPanel._select_all_visible Sim.panel) Sim.demo).
  - apply handled_select_all.
  - unfold count_shown. vm_compute; reflexivity.
Defined.

Lemma nothing_is_transferred_without_consent_witness :
  let run :=
    ParameterTransferPanel._do_transfer Sim.host Sim.demo_nodes Sim.panel [0] 1 Sim.demo in
  snd run = Sim.demo /\
  ParameterTransferPanel.table_model (snd (fst run))
    = ParameterTransferPanel.table_model Sim.panel /\
  ParameterTransferPanel.status_label (snd (fst run))
    = ParameterTransferPanel.status_label Sim.panel /\
  forall question c msg, fst (fst run) <> ParameterTransferPanel.Completed question c msg.
Proof.
  apply (nothing_is_transferred_without_consent Sim.host Sim.demo_nodes Sim.panel [0] 1
           Sim.demo).
  right. right. discriminate.
Defined.

Lemma transfer_button_runs_the_batch_witness :
  exists question c panel' s',
    ParameterTransferPanel._do_transfer Sim.host Sim.demo_nodes Sim.panel [0] 0 Sim.demo
      = ((ParameterTransferPanel.Completed question c (ParameterTransferPanel.summary_text c),
          panel'), s') /\
    total c = 2 /\
    MultiNodePickerWidget._nodes (ParameterTransferPanel.target_picker panel')
      = ["/obj/tgt"; "/obj/held"] /\
    dom s' = dom Sim.demo.
Proof.
  destruct (transfer_button_runs_the_batch Sim.host Sim.lower Sim.demo_nodes Sim.panel [0]
              "/obj/src" Sim.demo)
    as (question & c & panel' & s' & Hrun & Htotal & _ & Htargets & Hdom).
  - exact sim_table_tx_reachable.
  - replace (elements _) with [0] by (vm_compute; reflexivity). reflexivity.
  - discriminate.
  - reflexivity.
  - vm_compute; reflexivity.
  - apply Exists_cons_hd. vm_compute; reflexivity.
  - repeat constructor; eexists; vm_compute; reflexivity.
  - exists question, c, panel', s'. split; [exact Hrun|].
    split; [rewrite Htotal; vm_compute; reflexivity|].
    split; [rewrite Htargets; vm_compute; reflexivity | exact Hdom].
Defined.
